(** * istio.io/manager: validators, discovery cache and proxy watcher

    A shallow embedding of three parts of the manager:
    - [model/validation.go]: the structural validators of services and
      routing rules;
    - [proxy/envoy/discovery.go]: the SDS/CDS/RDS discovery service and its
      three response caches;
    - [proxy/envoy/watcher.go]: the functions that launch and clean up one
      epoch of the proxy.

    Go values are modelled as follows.  An [int], [int32] or [uint64] is a
    [Z] (wrap-around written out where the code does arithmetic), a
    [float32]/[float64] is a primitive float, a [string] is a [string] of
    bytes, a slice that is only ranged over is a [list], a slice whose
    nil-ness is observable is an [option (list _)], a [map] is a [gmap],
    and an [error] is an [option] whose [None] is Go's nil. *)

From Stdlib Require Import ZArith List String Ascii Bool Lia DecimalString.
From Stdlib Require Import Floats.
From Stdlib Require DecimalZ DecimalPos.
From stdpp Require Import gmap strings list fin_maps.

Open Scope string_scope.
Open Scope Z_scope.

(** ** The Go runtime and libraries the code relies on *)

Module fmt.

(** An operand of a formatting verb. *)
Inductive arg :=
| Str (s : string)
| Int (n : Z).

(** [fmt.Sprintf(format, args...)], kept as the call that was made. *)
Record message := Sprintf { format : string; args : list arg }.

(** [fmt.Sprint(n)] and the verbs [%d], [%v] on an integer: decimal digits,
    with a leading minus sign for a negative number. *)
Definition Sprint (n : Z) : string := NilZero.string_of_int (Z.to_int n).

Section Render.
(** [strconv.Quote], the implementation of the verb [%q]. *)
Variable Quote : string -> string.

Definition operand (verb : ascii) (a : arg) : string :=
  match a with
  | Int n => Sprint n
  | Str s => if Ascii.eqb verb "q" then Quote s else s
  end.

(** The text of a message: every [%x] consumes the next operand. *)
Fixpoint render (format : string) (args : list arg) : string :=
  match format with
  | EmptyString => EmptyString
  | String "%" (String verb rest) =>
      match args with
      | a :: args' => operand verb a ++ render rest args'
      | [] => String "%" (String verb (render rest []))
      end
  | String c rest => String c (render rest args)
  end.

Definition text (m : message) : string := render (format m) (args m).
End Render.

End fmt.

(** Go's [error] values as the validators build them: a single
    [fmt.Errorf], or the flat list of a [*multierror.Error]. *)
Inductive error_value :=
| Plain (m : fmt.message)
| Multi (errs : list fmt.message).

Definition error := option error_value.

Definition Errorf (format : string) (args : list fmt.arg) : error :=
  Some (Plain (fmt.Sprintf format args)).

Module multierror.

(** The errors an [error] stands for. *)
Definition Errors (e : error) : list fmt.message :=
  match e with
  | None => []
  | Some (Plain m) => [m]
  | Some (Multi l) => l
  end.

(** [multierror.Append(err, e)] of hashicorp/go-multierror: the result is
    always a [*multierror.Error]; a multi-error argument is flattened
    into it and a nil argument adds nothing. *)
Definition Append (err : error) (e : error) : error :=
  Some (Multi (Errors err ++ Errors e)%list).

End multierror.

(** [if err := f(); err != nil { errs = multierror.Append(errs, err) }] *)
Definition appendIfErr (errs : error) (err : error) : error :=
  match err with
  | None => errs
  | Some _ => multierror.Append errs err
  end.

Module strings.

(** [strings.Split(s, sep)] for a separator of one byte: [n+1] parts for
    [n] separators, so the empty string yields one empty part. *)
Fixpoint Split (s : string) (sep : ascii) : list string :=
  match s with
  | EmptyString => [EmptyString]
  | String c rest =>
      if Ascii.eqb c sep then EmptyString :: Split rest sep
      else match Split rest sep with
           | part :: parts => String c part :: parts
           | [] => [String c EmptyString]
           end
  end.

End strings.

Module regexp.

(** The fragment of RE2 syntax the validators use, over bytes. *)
Inductive re :=
| Void
| Eps
| Class (member : ascii -> bool)
| Cat (r1 r2 : re)
| Alt (r1 r2 : re)
| Star (r : re).

Definition Opt (r : re) : re := Alt r Eps.

Fixpoint nullable (r : re) : bool :=
  match r with
  | Void => false
  | Eps => true
  | Class _ => false
  | Cat r1 r2 => nullable r1 && nullable r2
  | Alt r1 r2 => nullable r1 || nullable r2
  | Star _ => true
  end.

(** Brzozowski derivative of [r] by the byte [c]. *)
Fixpoint deriv (c : ascii) (r : re) : re :=
  match r with
  | Void => Void
  | Eps => Void
  | Class member => if member c then Eps else Void
  | Cat r1 r2 =>
      if nullable r1 then Alt (Cat (deriv c r1) r2) (deriv c r2)
      else Cat (deriv c r1) r2
  | Alt r1 r2 => Alt (deriv c r1) (deriv c r2)
  | Star r1 => Cat (deriv c r1) (Star r1)
  end.

(** [MatchString] of a pattern anchored as [^r$]: the whole text matches. *)
Fixpoint MatchString (r : re) (s : string) : bool :=
  match s with
  | EmptyString => nullable r
  | String c rest => MatchString (deriv c r) rest
  end.

Definition between (lo hi c : ascii) : bool :=
  (nat_of_ascii lo <=? nat_of_ascii c)%nat && (nat_of_ascii c <=? nat_of_ascii hi)%nat.

End regexp.

Module strconv.

Definition digit (c : ascii) : option Z :=
  if regexp.between "0" "9" c then Some (Z.of_nat (nat_of_ascii c) - 48) else None.

Fixpoint digits (acc : Z) (s : string) : option Z :=
  match s with
  | EmptyString => Some acc
  | String c rest =>
      match digit c with
      | Some d => digits (10 * acc + d) rest
      | None => None
      end
  end.

Definition unsigned (s : string) : option Z :=
  match s with
  | EmptyString => None
  | _ => digits 0 s
  end.

(** [strconv.Atoi]: an optional sign and at least one decimal digit, the
    value within the 64-bit [int]; [None] is the syntax or range error. *)
Definition Atoi (s : string) : option Z :=
  let signed :=
    match s with
    | String "+" rest => unsigned rest
    | String "-" rest => option_map Z.opp (unsigned rest)
    | _ => unsigned s
    end in
  match signed with
  | Some n => if (- 2 ^ 63 <=? n) && (n <=? 2 ^ 63 - 1) then Some n else None
  | None => None
  end.

End strconv.

(** ** istio.io/api/proxy/v1/config: the rule messages

    The generated protobuf types, with the fields the validators read.  A
    [oneof] is an inductive type and its [GetX] accessors return the zero
    value for another alternative, as the generated code does.  A [float]
    field holds a primitive float: the comparisons the validators make (with
    0 and with 100) give the same answer on a float32 and on its exact
    binary64 image. *)

Module proxyconfig.

(** A [map<string,string>] in the order a [range] over it yields. *)
Definition StringMap := list (string * string).

Record L4MatchAttributes := {
  SourceSubnet : list string;
  DestinationSubnet : list string
}.

Record MatchCondition := {
  Source : string;
  SourceTags : StringMap;
  Tcp : option L4MatchAttributes;
  Udp : option L4MatchAttributes
}.

Definition GetTcp (mc : MatchCondition) := Tcp mc.
Definition GetUdp (mc : MatchCondition) := Udp mc.

Record DestinationWeight := {
  Destination : string;
  Tags : StringMap;
  Weight : Z  (* int32 *)
}.

Record SimpleTimeoutPolicy := { TimeoutSeconds : float }.

Inductive HTTPTimeout :=
| HTTPTimeout_SimpleTimeout (simple : SimpleTimeoutPolicy)
| HTTPTimeout_Custom (custom : string)
| HTTPTimeout_unset.

Definition GetSimpleTimeout (t : HTTPTimeout) : option SimpleTimeoutPolicy :=
  match t with HTTPTimeout_SimpleTimeout simple => Some simple | _ => None end.

Record SimpleRetryPolicy := { Attempts : Z  (* int32 *) }.

Inductive HTTPRetry :=
| HTTPRetry_SimpleRetry (simple : SimpleRetryPolicy)
| HTTPRetry_Custom (custom : string)
| HTTPRetry_unset.

Definition GetSimpleRetry (r : HTTPRetry) : option SimpleRetryPolicy :=
  match r with HTTPRetry_SimpleRetry simple => Some simple | _ => None end.

Inductive HttpDelayType :=
| Delay_FixedDelaySeconds (seconds : float)
| Delay_ExponentialDelaySeconds (seconds : float)
| Delay_unset.

Record HTTPFaultInjection_Delay := {
  Delay_Percent : float;  (* float32 *)
  Delay_HttpDelayType : HttpDelayType
}.

Definition GetFixedDelaySeconds (d : HTTPFaultInjection_Delay) : float :=
  match Delay_HttpDelayType d with Delay_FixedDelaySeconds s => s | _ => 0%float end.

Definition GetExponentialDelaySeconds (d : HTTPFaultInjection_Delay) : float :=
  match Delay_HttpDelayType d with Delay_ExponentialDelaySeconds s => s | _ => 0%float end.

Inductive ErrorType :=
| HTTPFaultInjection_Abort_GrpcStatus (GrpcStatus : string)
| HTTPFaultInjection_Abort_Http2Error (Http2Error : string)
| HTTPFaultInjection_Abort_HttpStatus (HttpStatus : Z)  (* int32 *)
| ErrorType_unset.

Record HTTPFaultInjection_Abort := {
  Abort_Percent : float;  (* float32 *)
  Abort_ErrorType : ErrorType
}.

Record HTTPFaultInjection := {
  Delay : option HTTPFaultInjection_Delay;
  Abort : option HTTPFaultInjection_Abort
}.

Definition GetDelay (f : HTTPFaultInjection) := Delay f.
Definition GetAbort (f : HTTPFaultInjection) := Abort f.

Inductive ThrottleAfter :=
| Throttle_ThrottleAfterSeconds (seconds : float)
| Throttle_ThrottleAfterBytes (bytes : float)
| ThrottleAfter_unset.

Record L4FaultInjection_Throttle := {
  Throttle_Percent : float;  (* float32 *)
  DownstreamLimitBps : Z;    (* int64 *)
  UpstreamLimitBps : Z;      (* int64 *)
  Throttle_ThrottleAfter : ThrottleAfter
}.

Definition GetThrottleAfterSeconds (t : L4FaultInjection_Throttle) : float :=
  match Throttle_ThrottleAfter t with Throttle_ThrottleAfterSeconds s => s | _ => 0%float end.

Definition GetThrottleAfterBytes (t : L4FaultInjection_Throttle) : float :=
  match Throttle_ThrottleAfter t with Throttle_ThrottleAfterBytes b => b | _ => 0%float end.

Record L4FaultInjection_Terminate := {
  Terminate_Percent : float  (* float32 *)
}.

Record L4FaultInjection := {
  Throttle : option L4FaultInjection_Throttle;
  Terminate : option L4FaultInjection_Terminate
}.

Definition GetThrottle (f : L4FaultInjection) := Throttle f.
Definition GetTerminate (f : L4FaultInjection) := Terminate f.

(** [Route] is a slice whose nil-ness the validator tests. *)
Record RouteRule := {
  RouteRule_Destination : string;
  Precedence : Z;  (* int32 *)
  Match : option MatchCondition;
  Route : option (list DestinationWeight);
  HttpReqTimeout : option HTTPTimeout;
  HttpReqRetries : option HTTPRetry;
  HttpFault : option HTTPFaultInjection;
  L4Fault : option L4FaultInjection
}.

(** A [google.protobuf.Duration]. *)
Record Duration := { Seconds : Z; Nanos : Z }.

(** Mesh-wide settings. *)
Record ProxyMeshConfig := {
  IstioServiceCluster : string;
  DrainDuration : Duration;
  ParentShutdownDuration : Duration
}.

End proxyconfig.

Module proto.

(** A [proto.Message]: the dynamic type and the value. *)
Inductive Message :=
| RouteRule (value : proxyconfig.RouteRule)
| Other (MessageName : string).

End proto.

(** ** model/validation.go

    The validators, from the revision of the file that checks the route
    weights ([validateWeights]) and rejects gRPC aborts.  A pointer to a
    message is the message itself: no validator is called on a nil
    pointer. *)

Module model.

Import proxyconfig.

(** *** The service model (model/service.go) *)

Record Port := {
  Name : string;
  Port_Port : Z;  (* int *)
  Protocol : string
}.

Record Service := {
  Hostname : string;
  Address : string;
  Ports : list Port
}.

Record NetworkEndpoint := {
  Endpoint_Address : string;
  Endpoint_Port : Z;  (* int *)
  ServicePort : option Port
}.

Record ServiceInstance := {
  Endpoint : NetworkEndpoint;
  Instance_Service : option Service;
  Instance_Tags : StringMap
}.

(** The registry the discovery service reads (model.ServiceDiscovery). *)
Record ServiceDiscovery := {
  Services : list Service;
  Instances : string -> list string -> StringMap -> list ServiceInstance;
  HostInstances : gset string -> list ServiceInstance
}.

Record Key := {
  Kind : string;
  Key_Name : string;
  Namespace : string
}.

Definition dns1123LabelMaxLength : nat := 63.

Definition lower_alnum (c : ascii) : bool :=
  regexp.between "a" "z" c || regexp.between "0" "9" c.

Definition dash_lower_alnum (c : ascii) : bool :=
  Ascii.eqb c "-" || lower_alnum c.

(** ["[a-z0-9]([-a-z0-9]*[a-z0-9])?"] *)
Definition dns1123LabelFmt : regexp.re :=
  regexp.Cat (regexp.Class lower_alnum)
    (regexp.Opt (regexp.Cat (regexp.Star (regexp.Class dash_lower_alnum))
                            (regexp.Class lower_alnum))).

Definition qualified_name_char (c : ascii) : bool :=
  Ascii.eqb c "-" || regexp.between "A" "Z" c || regexp.between "a" "z" c
  || regexp.between "0" "9" c || Ascii.eqb c "_" || Ascii.eqb c "." || Ascii.eqb c "/".

(** ["[-A-Za-z0-9_./]*"] *)
Definition qualifiedNameFmt : regexp.re :=
  regexp.Star (regexp.Class qualified_name_char).

(** [regexp.MustCompile("^" + fmt + "$")] *)
Definition dns1123LabelRex : regexp.re := dns1123LabelFmt.
Definition tagRegexp : regexp.re := qualifiedNameFmt.

Definition IsDNS1123Label (value : string) : bool :=
  (String.length value <=? dns1123LabelMaxLength)%nat
  && regexp.MatchString dns1123LabelRex value.

(** [func (s *Service) Validate() error] *)
Definition Service_Validate (s : Service) : error :=
  let errs : error := None in
  let errs :=
    if (String.length (Hostname s) =? 0)%nat
    then multierror.Append errs (Errorf "Invalid empty hostname" [])
    else errs in
  let parts := strings.Split (Hostname s) "." in
  let errs :=
    fold_left (fun errs part =>
      if negb (IsDNS1123Label part)
      then multierror.Append errs (Errorf "Invalid hostname part: %q" [fmt.Str part])
      else errs) parts errs in
  let errs :=
    if (length (Ports s) =? 0)%nat
    then multierror.Append errs (Errorf "Service must have at least one declared port" [])
    else errs in
  fold_left (fun errs port =>
    let errs :=
      if String.eqb (Name port) ""
      then
        if (1 <? length (Ports s))%nat
        then multierror.Append errs
               (Errorf "Empty port names are not allowed for services with multiple ports" [])
        else errs
      else if negb (IsDNS1123Label (Name port))
      then multierror.Append errs (Errorf "Invalid name: %q" [fmt.Str (Name port)])
      else errs in
    if Port_Port port <? 0
    then multierror.Append errs
           (Errorf "Invalid service port value %d for %q"
                   [fmt.Int (Port_Port port); fmt.Str (Name port)])
    else errs) (Ports s) errs.

(** [func (t Tags) Validate() error] *)
Definition Tags_Validate (t : StringMap) : error :=
  fold_left (fun errs kv =>
    let errs :=
      if negb (regexp.MatchString tagRegexp (fst kv))
      then multierror.Append errs (Errorf "Invalid tag key: %q" [fmt.Str (fst kv)])
      else errs in
    if negb (regexp.MatchString tagRegexp (snd kv))
    then multierror.Append errs (Errorf "Invalid tag value: %q" [fmt.Str (snd kv)])
    else errs) t None.

(** The first label of [labels] that is not a DNS-1123 label. *)
Fixpoint validateFQDN_labels (fqdn : string) (labels : list string) : error :=
  match labels with
  | [] => None
  | label :: labels' =>
      if negb (IsDNS1123Label label)
      then Errorf "domain name %q invalid (label %q invalid)" [fmt.Str fqdn; fmt.Str label]
      else validateFQDN_labels fqdn labels'
  end.

Definition validateFQDN (fqdn : string) : error :=
  if (255 <? String.length fqdn)%nat
  then Errorf "domain name %q too long (max 255)" [fmt.Str fqdn]
  else if (String.length fqdn =? 0)%nat
  then Errorf "empty domain name not allowed" []
  else validateFQDN_labels fqdn (strings.Split fqdn ".").

Definition validateCIDRBlock (cidr : string) : error :=
  match strconv.Atoi cidr with
  | Some bits =>
      if (bits <=? 0) || (32 <? bits)
      then Errorf "/%v is not a valid CIDR block" [fmt.Str cidr]
      else None
  | None => Errorf "/%v is not a valid CIDR block" [fmt.Str cidr]
  end.

Fixpoint validateIPv4Address_octets (addr : string) (octets : list string) : error :=
  match octets with
  | [] => None
  | octet :: octets' =>
      match strconv.Atoi octet with
      | Some n =>
          if (n <? 0) || (255 <? n)
          then Errorf "%q is not a valid IP address" [fmt.Str addr]
          else validateIPv4Address_octets addr octets'
      | None => Errorf "%q is not a valid IP address" [fmt.Str addr]
      end
  end.

Definition validateIPv4Address (addr : string) : error :=
  let octets := strings.Split addr "." in
  if negb (length octets =? 4)%nat
  then Errorf "%q is not a valid IP address" [fmt.Str addr]
  else validateIPv4Address_octets addr octets.

Definition validateIPv4Subnet (subnet : string) : error :=
  let parts := strings.Split subnet "/" in
  if (2 <? length parts)%nat
  then Errorf "%q is not valid CIDR notation" [fmt.Str subnet]
  else
    let errs : error := None in
    let errs :=
      match parts with
      | [_; bits] => appendIfErr errs (validateCIDRBlock bits)
      | _ => errs
      end in
    appendIfErr errs (validateIPv4Address (hd "" parts)).

Definition validateSubnet (subnet : string) : error := validateIPv4Subnet subnet.

Definition ValidateL4MatchAttributes (ma : L4MatchAttributes) : error :=
  let errs : error := None in
  let errs :=
    fold_left (fun errs subnet => appendIfErr errs (validateSubnet subnet))
              (SourceSubnet ma) errs in
  fold_left (fun errs subnet => appendIfErr errs (validateSubnet subnet))
            (DestinationSubnet ma) errs.

Definition ValidateMatchCondition (mc : MatchCondition) : error :=
  let errs : error := None in
  let errs :=
    if negb (String.eqb (Source mc) "")
    then appendIfErr errs (validateFQDN (Source mc))
    else errs in
  let errs := appendIfErr errs (Tags_Validate (SourceTags mc)) in
  let errs :=
    match GetTcp mc with
    | Some tcp => appendIfErr errs (ValidateL4MatchAttributes tcp)
    | None => errs
    end in
  match GetUdp mc with
  | Some udp =>
      let errs := appendIfErr errs (ValidateL4MatchAttributes udp) in
      multierror.Append errs (Errorf "Istio does not support UDP protocol yet" [])
  | None => errs
  end.

Definition validatePercent (err : error) (val : Z) (label : string) : error :=
  if (val <? 0) || (100 <? val)
  then multierror.Append err (Errorf "%v must be in range 0..100" [fmt.Str label])
  else err.

Definition validateFloatPercent (err : error) (val : float) (label : string) : error :=
  if PrimFloat.ltb val 0%float || PrimFloat.ltb 100%float val
  then multierror.Append err (Errorf "%v must be in range 0..100" [fmt.Str label])
  else err.

Definition ValidateDestinationWeight (dw : DestinationWeight) : error :=
  let errs : error := None in
  let errs :=
    if negb (String.eqb (Destination dw) "")
    then appendIfErr errs (validateFQDN (Destination dw))
    else errs in
  let errs := appendIfErr errs (Tags_Validate (Tags dw)) in
  validatePercent errs (Weight dw) "weight".

Definition ValidateHTTPTimeout (timeout : HTTPTimeout) : error :=
  match GetSimpleTimeout timeout with
  | Some simple =>
      if PrimFloat.ltb (TimeoutSeconds simple) 0%float
      then Errorf "timeout_seconds must be in range [0..]" []
      else None
  | None => None
  end.

Definition ValidateHTTPRetries (retry : HTTPRetry) : error :=
  let errs : error := None in
  match GetSimpleRetry retry with
  | Some simple =>
      if Attempts simple <? 0
      then multierror.Append errs (Errorf "attempts must be in range [0..]" [])
      else errs
  | None => errs
  end.

Definition validateDelay (delay : HTTPFaultInjection_Delay) : error :=
  let errs : error := None in
  let errs := validateFloatPercent errs (Delay_Percent delay) "delay" in
  let errs :=
    if PrimFloat.ltb (GetFixedDelaySeconds delay) 0%float
    then multierror.Append errs (Errorf "delay fixed_seconds invalid" [])
    else errs in
  if negb (PrimFloat.eqb (GetExponentialDelaySeconds delay) 0%float)
  then
    let errs :=
      if PrimFloat.ltb (GetExponentialDelaySeconds delay) 0%float
      then multierror.Append errs (Errorf "delay exponential_seconds invalid" [])
      else errs in
    multierror.Append errs (Errorf "Istio does not support exponential_seconds yet" [])
  else errs.

Definition validateAbortHTTPStatus (HttpStatus : Z) : error :=
  let errs : error := None in
  if (HttpStatus <? 0) || (600 <? HttpStatus)
  then multierror.Append errs (Errorf "invalid abort http status %v" [fmt.Int HttpStatus])
  else errs.

(** The gRPC case adds its error in this revision of the file; the earlier
    revision leaves that case empty. *)
Definition validateAbort (abort : HTTPFaultInjection_Abort) : error :=
  let errs : error := None in
  let errs := validateFloatPercent errs (Abort_Percent abort) "abort" in
  match Abort_ErrorType abort with
  | HTTPFaultInjection_Abort_GrpcStatus _ =>
      multierror.Append errs (Errorf "Istio does not support gRPC fault injection yet" [])
  | HTTPFaultInjection_Abort_Http2Error _ => errs
  | HTTPFaultInjection_Abort_HttpStatus HttpStatus =>
      appendIfErr errs (validateAbortHTTPStatus HttpStatus)
  | ErrorType_unset => errs
  end.

Definition validateTerminate (terminate : L4FaultInjection_Terminate) : error :=
  let errs : error := None in
  validateFloatPercent errs (Terminate_Percent terminate) "terminate".

Definition validateThrottle (throttle : L4FaultInjection_Throttle) : error :=
  let errs : error := None in
  let errs := validateFloatPercent errs (Throttle_Percent throttle) "throttle" in
  let errs :=
    if DownstreamLimitBps throttle <? 0
    then multierror.Append errs (Errorf "downstream_limit_bps invalid" [])
    else errs in
  let errs :=
    if UpstreamLimitBps throttle <? 0
    then multierror.Append errs (Errorf "upstream_limit_bps invalid" [])
    else errs in
  let errs :=
    if PrimFloat.ltb (GetThrottleAfterSeconds throttle) 0%float
    then multierror.Append errs (Errorf "throttle_after_seconds invalid" [])
    else errs in
  if PrimFloat.ltb (GetThrottleAfterBytes throttle) 0%float
  then multierror.Append errs (Errorf "throttle_after_bytes invalid" [])
  else errs.

Definition ValidateHTTPFault (fault : HTTPFaultInjection) : error :=
  let errs : error := None in
  let errs :=
    match GetDelay fault with
    | Some delay => appendIfErr errs (validateDelay delay)
    | None => errs
    end in
  match GetAbort fault with
  | Some abort => appendIfErr errs (validateAbort abort)
  | None => errs
  end.

Definition ValidateL4Fault (fault : L4FaultInjection) : error :=
  let errs : error := None in
  let errs :=
    match GetTerminate fault with
    | Some terminate =>
        let errs := appendIfErr errs (validateTerminate terminate) in
        multierror.Append errs (Errorf "Istio does not support the terminate fault yet" [])
    | None => errs
    end in
  match GetThrottle fault with
  | Some throttle => appendIfErr errs (validateThrottle throttle)
  | None => errs
  end.

(** The 64-bit [int] that holds [z] after overflow. *)
Definition int (z : Z) : Z := (z + 2 ^ 63) mod 2 ^ 64 - 2 ^ 63.

(** The [sum] of [validateWeights] after its loop. *)
Definition sumWeights (routes : list DestinationWeight) : Z :=
  fold_left (fun sum destWeight => int (sum + Weight destWeight)) routes 0.

(** Only this revision of the file has [validateWeights] and its call in
    [ValidateRouteRule]. *)
Definition validateWeights (routes : list DestinationWeight)
           (defaultDestination : string) : error :=
  let errs : error := None in
  let sum := sumWeights routes in
  if (length routes =? 1)%nat && (sum =? 0)
  then errs
  else if negb (sum =? 100)
  then multierror.Append errs
         (Errorf "Route weights total %v (must total 100)" [fmt.Int sum])
  else errs.

Definition ValidateRouteRule (msg : proto.Message) : error :=
  match msg with
  | proto.RouteRule value =>
      let errs : error := None in
      let errs :=
        if String.eqb (RouteRule_Destination value) ""
        then multierror.Append errs (Errorf "route rule must have a destination service" [])
        else errs in
      let errs := appendIfErr errs (validateFQDN (RouteRule_Destination value)) in
      let errs :=
        match Match value with
        | Some mc => appendIfErr errs (ValidateMatchCondition mc)
        | None => errs
        end in
      let errs :=
        match Route value with
        | Some routes =>
            let errs :=
              fold_left (fun errs destWeight =>
                           appendIfErr errs (ValidateDestinationWeight destWeight))
                        routes errs in
            appendIfErr errs (validateWeights routes (RouteRule_Destination value))
        | None => errs
        end in
      let errs :=
        match HttpReqTimeout value with
        | Some timeout => appendIfErr errs (ValidateHTTPTimeout timeout)
        | None => errs
        end in
      let errs :=
        match HttpReqRetries value with
        | Some retry => appendIfErr errs (ValidateHTTPRetries retry)
        | None => errs
        end in
      let errs :=
        match HttpFault value with
        | Some fault => appendIfErr errs (ValidateHTTPFault fault)
        | None => errs
        end in
      match L4Fault value with
      | Some fault =>
          let errs := appendIfErr errs (ValidateL4Fault fault) in
          multierror.Append errs (Errorf "L4 faults are not implemented" [])
      | None => errs
      end
  | _ => Errorf "cannot cast to routing rule" []
  end.

Definition ValidateIngressRule (msg : proto.Message) : error := ValidateRouteRule msg.

End model.

(** ** model/validation.go, the earlier revision

    The sources hold two revisions of the file.  The abort validator of the
    earlier one, for comparison: its percent check has two messages and its
    gRPC case is empty. *)

Module model_earlier.

Import proxyconfig.

Definition validateFloatPercent (err : error) (val : float) (label : string) : error :=
  let err :=
    if PrimFloat.ltb 100%float val
    then multierror.Append err (Errorf "%v must not exceed 100" [fmt.Str label])
    else err in
  if PrimFloat.ltb val 0%float
  then multierror.Append err (Errorf "%v must be in range 0..100" [fmt.Str label])
  else err.

Definition validateAbortHTTPStatus (HttpStatus : Z) : error :=
  let retVal : error := None in
  if (HttpStatus <? 0) || (600 <? HttpStatus)
  then multierror.Append retVal
         (Errorf "invalid abort http status %v" [fmt.Int HttpStatus])
  else retVal.

Definition validateAbort (abort : HTTPFaultInjection_Abort) : error :=
  let retVal : error := None in
  let retVal := validateFloatPercent retVal (Abort_Percent abort) "abort" in
  match Abort_ErrorType abort with
  | HTTPFaultInjection_Abort_GrpcStatus _ => retVal
  | HTTPFaultInjection_Abort_Http2Error _ => retVal
  | HTTPFaultInjection_Abort_HttpStatus HttpStatus =>
      appendIfErr retVal (validateAbortHTTPStatus HttpStatus)
  | ErrorType_unset => retVal
  end.

End model_earlier.

(** ** encoding/json, as far as the SDS response needs it *)

Module json.

#[local] Unset Elimination Schemes.
Inductive value :=
| Null
| Number (n : Z)
| Text (s : string)
| Array (items : list value)
| Object (fields : list (string * value)).
#[local] Set Elimination Schemes.

Definition dquote : string := String "034" EmptyString.
Definition newline : string := String "010" EmptyString.

Fixpoint repeat_string (s : string) (n : nat) : string :=
  match n with
  | O => EmptyString
  | S n' => s ++ repeat_string s n'
  end.

Fixpoint join (sep : string) (parts : list string) : string :=
  match parts with
  | [] => EmptyString
  | [part] => part
  | part :: parts' => part ++ sep ++ join sep parts'
  end.

Section Encode.
(** The string literal of a Go string, quotes included. *)
Variable literal : string -> string.
Variables prefix indent : string.

Definition line (depth : nat) : string :=
  newline ++ prefix ++ repeat_string indent depth.

(** The indented text of a value that sits at nesting [depth]. *)
Fixpoint encode (depth : nat) (v : value) : string :=
  match v with
  | Null => "null"
  | Number n => fmt.Sprint n
  | Text s => literal s
  | Array [] => "[]"
  | Array items =>
      "[" ++ line (S depth)
          ++ join ("," ++ line (S depth)) (map (encode (S depth)) items)
          ++ line depth ++ "]"
  | Object [] => "{}"
  | Object fields =>
      "{" ++ line (S depth)
          ++ join ("," ++ line (S depth))
               (map (fun kv => dquote ++ fst kv ++ dquote ++ ": " ++ encode (S depth) (snd kv))
                    fields)
          ++ line depth ++ "}"
  end.
End Encode.

(** [json.MarshalIndent(v, prefix, indent)] on a value whose encoding
    cannot fail. *)
Definition MarshalIndent (literal : string -> string) (v : value)
           (prefix indent : string) : option string * error :=
  (Some (encode literal prefix indent 0 v), None).

End json.

(** ** proxy/envoy/discovery.go *)

Module envoy.

Import proxyconfig model.

(** *** The response caches *)

Record discoveryCacheStatEntry := {
  Hit : Z;   (* uint64 *)
  Miss : Z   (* uint64 *)
}.

(** [data] is a byte slice; [None] is the nil slice of an evicted entry. *)
Record discoveryCacheEntry := {
  data : option string;
  hit : Z;   (* uint64 *)
  miss : Z   (* uint64 *)
}.

(** The map holds one entry object per key and no entry is shared between
    keys, so the entries are stored by value.  The lock [mu] serialises
    the operations; each is one step here. *)
Record discoveryCache := {
  disabled : bool;
  cache : gmap string discoveryCacheEntry
}.

(** [atomic.AddUint64(&x, 1)] *)
Definition AddUint64 (x delta : Z) : Z := (x + delta) mod 2 ^ 64.

Definition newDiscoveryCache (enabled : bool) : discoveryCache :=
  {| disabled := negb enabled; cache := ∅ |}.

Definition setCache (c : discoveryCache) (m : gmap string discoveryCacheEntry)
  : discoveryCache :=
  {| disabled := disabled c; cache := m |}.

(** Returns the cached bytes, whether the lookup hit, and the cache (a hit
    is counted in the entry). *)
Definition cachedDiscoveryResponse (c : discoveryCache) (key : string)
  : option string * bool * discoveryCache :=
  if disabled c then (None, false, c)
  else
    match cache c !! key with
    | Some entry =>
        match data entry with
        | Some bytes =>
            (Some bytes, true,
             setCache c (<[key := {| data := data entry;
                                     hit := AddUint64 (hit entry) 1;
                                     miss := miss entry |}]> (cache c)))
        | None => (None, false, c)
        end
    | None => (None, false, c)
    end.

Definition updateCachedDiscoveryResponse (c : discoveryCache) (key : string)
           (bytes : option string) : discoveryCache :=
  if disabled c then c
  else
    let entry :=
      match cache c !! key with
      | Some entry => entry
      | None => {| data := None; hit := 0; miss := 0 |}
      end in
    setCache c (<[key := {| data := bytes;
                            hit := hit entry;
                            miss := AddUint64 (miss entry) 1 |}]> (cache c)).

Definition clear (c : discoveryCache) : discoveryCache :=
  setCache c ((fun v => {| data := None; hit := hit v; miss := miss v |}) <$> cache c).

Definition resetStats (c : discoveryCache) : discoveryCache :=
  setCache c ((fun v => {| data := data v; hit := 0; miss := 0 |}) <$> cache c).

Definition stats (c : discoveryCache) : gmap string discoveryCacheStatEntry :=
  (fun v => {| Hit := hit v; Miss := miss v |}) <$> cache c.

(** *** The SDS payload *)

Record host := {
  host_Address : string;
  host_Port : Z;   (* int *)
  host_Weight : Z  (* int, omitted from the JSON when zero *)
}.

(** [Hosts] is a slice; [None] is the nil slice. *)
Record hosts := { Hosts : option (list host) }.

(** [make([]*host, 0)] and [append] *)
Definition make_hosts : option (list host) := Some [].

Definition append (s : option (list host)) (h : host) : option (list host) :=
  match s with
  | Some l => Some (l ++ [h])%list
  | None => Some [h]
  end.

(** The JSON of the structs, by their field tags: a nil slice is [null],
    any other slice an array. *)
Definition host_json (h : host) : json.value :=
  json.Object
    ([("ip_address", json.Text (host_Address h)); ("port", json.Number (host_Port h))]
     ++ (if host_Weight h =? 0 then []
         else [("load_balancing_weight", json.Number (host_Weight h))]))%list.

Definition hosts_json (h : hosts) : json.value :=
  json.Object
    [("hosts", match Hosts h with
               | None => json.Null
               | Some l => json.Array (map host_json l)
               end)].

(** *** Requests and responses *)

Definition ServiceKey := "service-key".
Definition ServiceCluster := "service-cluster".
Definition ServiceNode := "service-node".
Definition RouteConfigName := "route-config-name".

Record Request := {
  URL : string;
  PathParameters : gmap string string
}.

Definition PathParameter (r : Request) (name : string) : string :=
  default "" (PathParameters r !! name).

Inductive Body :=
| Data (bytes : option string)       (* [r.Write(data)] *)
| Message (msg : fmt.message)        (* [r.WriteErrorString(_, fmt.Sprintf(..))] *)
| ErrorText (err : error_value).     (* [r.WriteErrorString(_, err.Error())] *)

Record Response := {
  status : Z;
  body : Body
}.

Definition StatusOK := 200.
Definition StatusNotFound := 404.
Definition StatusInternalServerError := 500.

Definition errorResponse (status : Z) (msg : Body) : Response :=
  {| status := status; body := msg |}.

Definition writeResponse (bytes : option string) : Response :=
  {| status := StatusOK; body := Data bytes |}.

Record ProxyContext (IstioRegistry : Type) := {
  Discovery : ServiceDiscovery;
  Config : IstioRegistry;
  MeshConfig : ProxyMeshConfig;
  IPAddress : string
}.
Arguments Discovery {_} _.
Arguments Config {_} _.
Arguments MeshConfig {_} _.
Arguments IPAddress {_} _.

(** What the discovery service and the watcher take from files of the
    repository that are not modelled here (model/service.go,
    model/config.go, proxy/envoy/route.go, resources.go, config.go) and
    from the Go libraries. *)
Record Externals := {
  IstioRegistry : Type;
  Event : Type;
  Cluster : Type;
  HTTPRouteConfig : Type;
  EnvoyConfig : Type;
  RouteRule : string;          (* the kind [model.RouteRule] *)
  DestinationPolicy : string;  (* the kind [model.DestinationPolicy] *)
  ParseServiceKey : string -> string * list Port * StringMap;
  GetNames : list Port -> list string;
  buildOutboundHTTPRoutes :
    list ServiceInstance -> list Service -> ProxyContext IstioRegistry ->
    gmap Z HTTPRouteConfig;
  clusters : gmap Z HTTPRouteConfig -> list Cluster;
  normalize : list Cluster -> list Cluster;
  insertDestinationPolicy : IstioRegistry -> Cluster -> Cluster;
  MarshalIndent_ClusterManager : list Cluster -> string -> string -> option string * error;
  MarshalIndent_HTTPRouteConfig : HTTPRouteConfig -> string -> string -> option string * error;
  json_literal : string -> string;
  Quote : string -> string;
  convertDuration : Duration -> Z;  (* a [time.Duration], in nanoseconds *)
  V : Z -> bool;                    (* [glog.V(level)] *)
  WriteFile : EnvoyConfig -> string -> error;
  Run : string -> list string -> error;  (* [exec.Command(path, args...).Run()] *)
  Remove : string -> error               (* [os.Remove(path)] *)
}.

Section Discovery.

Variable E : Externals.

(** *** The discovery service

    [controller] and [server] are set at construction and not read by
    the handlers; the controller is threaded by [NewDiscoveryService]. *)
Record DiscoveryService := {
  services : ServiceDiscovery;
  config : IstioRegistry E;
  mesh : ProxyMeshConfig;
  sdsCache : discoveryCache;
  cdsCache : discoveryCache;
  rdsCache : discoveryCache
}.

Definition setSdsCache (ds : DiscoveryService) (c : discoveryCache) :=
  {| services := services ds; config := config ds; mesh := mesh ds;
     sdsCache := c; cdsCache := cdsCache ds; rdsCache := rdsCache ds |}.

Definition setCdsCache (ds : DiscoveryService) (c : discoveryCache) :=
  {| services := services ds; config := config ds; mesh := mesh ds;
     sdsCache := sdsCache ds; cdsCache := c; rdsCache := rdsCache ds |}.

Definition setRdsCache (ds : DiscoveryService) (c : discoveryCache) :=
  {| services := services ds; config := config ds; mesh := mesh ds;
     sdsCache := sdsCache ds; cdsCache := cdsCache ds; rdsCache := c |}.

(** [stats[k] = v] for every entry of [m] *)
Definition addStats (stats m : gmap string discoveryCacheStatEntry) :=
  m ∪ stats.

(** The entity written by [GetCacheStats]. *)
Definition GetCacheStats (ds : DiscoveryService) : gmap string discoveryCacheStatEntry :=
  let stats : gmap string discoveryCacheStatEntry := ∅ in
  let stats := addStats stats (envoy.stats (sdsCache ds)) in
  let stats := addStats stats (envoy.stats (cdsCache ds)) in
  addStats stats (envoy.stats (rdsCache ds)).

Definition ClearCacheStats (ds : DiscoveryService) : DiscoveryService :=
  let ds := setSdsCache ds (resetStats (sdsCache ds)) in
  let ds := setCdsCache ds (resetStats (cdsCache ds)) in
  setRdsCache ds (resetStats (rdsCache ds)).

Definition clearCache (ds : DiscoveryService) : DiscoveryService :=
  let ds := setSdsCache ds (clear (sdsCache ds)) in
  let ds := setCdsCache ds (clear (cdsCache ds)) in
  setRdsCache ds (clear (rdsCache ds)).

(** [ListEndpoints] responds to SDS requests. *)
Definition ListEndpoints (ds : DiscoveryService) (request : Request)
  : Response * DiscoveryService :=
  let key := URL request in
  let '(out, cached, c) := cachedDiscoveryResponse (sdsCache ds) key in
  let ds := setSdsCache ds c in
  if negb cached then
    let '(hostname, ports, tags) := ParseServiceKey E (PathParameter request ServiceKey) in
    let hostArray := make_hosts in
    let hostArray :=
      fold_left (fun hostArray ep =>
                   append hostArray
                     {| host_Address := Endpoint_Address (Endpoint ep);
                        host_Port := Endpoint_Port (Endpoint ep);
                        host_Weight := 0 |})
                (Instances (services ds) hostname (GetNames E ports) tags) hostArray in
    match json.MarshalIndent (json_literal E) (hosts_json {| Hosts := hostArray |}) " " " " with
    | (_, Some err) => (errorResponse StatusInternalServerError (ErrorText err), ds)
    | (out, None) =>
        let ds := setSdsCache ds (updateCachedDiscoveryResponse (sdsCache ds) key out) in
        (writeResponse out, ds)
    end
  else (writeResponse out, ds).

Definition proxyContext (ds : DiscoveryService) (ip : string) : ProxyContext (IstioRegistry E) :=
  {| Discovery := services ds; Config := config ds; MeshConfig := mesh ds; IPAddress := ip |}.

(** [ListClusters] responds to CDS requests for all outbound clusters. *)
Definition ListClusters (ds : DiscoveryService) (request : Request)
  : Response * DiscoveryService :=
  let key := URL request in
  let '(out, cached, c) := cachedDiscoveryResponse (cdsCache ds) key in
  let ds := setCdsCache ds c in
  if negb cached then
    let sc := PathParameter request ServiceCluster in
    if negb (String.eqb sc (IstioServiceCluster (mesh ds))) then
      (errorResponse StatusNotFound
         (Message (fmt.Sprintf "Unexpected %s %q" [fmt.Str ServiceCluster; fmt.Str sc])), ds)
    else
      let ip := PathParameter request ServiceNode in
      let instances := HostInstances (services ds) {[ ip ]} in
      let services := Services (services ds) in
      let httpRouteConfigs :=
        buildOutboundHTTPRoutes E instances services (proxyContext ds ip) in
      let clusters := normalize E (clusters E httpRouteConfigs) in
      let clusters := map (insertDestinationPolicy E (config ds)) clusters in
      match MarshalIndent_ClusterManager E clusters " " " " with
      | (_, Some err) => (errorResponse StatusInternalServerError (ErrorText err), ds)
      | (out, None) =>
          let ds := setCdsCache ds (updateCachedDiscoveryResponse (cdsCache ds) key out) in
          (writeResponse out, ds)
      end
  else (writeResponse out, ds).

(** [ListRoutes] responds to RDS requests. *)
Definition ListRoutes (ds : DiscoveryService) (request : Request)
  : Response * DiscoveryService :=
  let key := URL request in
  let '(out, cached, c) := cachedDiscoveryResponse (rdsCache ds) key in
  let ds := setRdsCache ds c in
  if negb cached then
    let sc := PathParameter request ServiceCluster in
    if negb (String.eqb sc (IstioServiceCluster (mesh ds))) then
      (errorResponse StatusNotFound
         (Message (fmt.Sprintf "Unexpected %s %q" [fmt.Str ServiceCluster; fmt.Str sc])), ds)
    else
      let ip := PathParameter request ServiceNode in
      let routeConfigName := PathParameter request RouteConfigName in
      match strconv.Atoi routeConfigName with
      | None =>
          (errorResponse StatusNotFound
             (Message (fmt.Sprintf "Unexpected %s %q"
                         [fmt.Str RouteConfigName; fmt.Str routeConfigName])), ds)
      | Some port =>
          let instances := HostInstances (services ds) {[ ip ]} in
          let services := Services (services ds) in
          let httpRouteConfigs :=
            buildOutboundHTTPRoutes E instances services (proxyContext ds ip) in
          match httpRouteConfigs !! port with
          | None =>
              (errorResponse StatusNotFound
                 (Message (fmt.Sprintf "Missing route config for port %d" [fmt.Int port])), ds)
          | Some routeConfig =>
              match MarshalIndent_HTTPRouteConfig E routeConfig " " " " with
              | (_, Some err) =>
                  (errorResponse StatusInternalServerError (ErrorText err), ds)
              | (out, None) =>
                  let ds :=
                    setRdsCache ds (updateCachedDiscoveryResponse (rdsCache ds) key out) in
                  (writeResponse out, ds)
              end
          end
      end
  else (writeResponse out, ds).

(** *** Construction and cache invalidation *)

Record DiscoveryServiceOptions := {
  Options_Services : ServiceDiscovery;
  Options_Config : IstioRegistry E;
  Options_Mesh : ProxyMeshConfig;
  Options_Port : Z;
  EnableProfiling : bool;
  EnableCaching : bool
}.

(** A handler is a closure over the service [out]; it acts on the state
    [out] points to when it is called. *)
Definition serviceHandlerT := Service -> Event E -> DiscoveryService -> DiscoveryService.
Definition instanceHandlerT :=
  ServiceInstance -> Event E -> DiscoveryService -> DiscoveryService.
Definition configHandlerT :=
  Key -> proto.Message -> Event E -> DiscoveryService -> DiscoveryService.

(** The interface [model.Controller], over the state [C] of an
    implementation. *)
Record Controller (C : Type) := {
  AppendServiceHandler : serviceHandlerT -> C -> error * C;
  AppendInstanceHandler : instanceHandlerT -> C -> error * C;
  AppendConfigHandler : string -> configHandlerT -> C -> error * C
}.
Arguments AppendServiceHandler {C} _ _ _.
Arguments AppendInstanceHandler {C} _ _ _.
Arguments AppendConfigHandler {C} _ _ _ _.

Definition serviceHandler : serviceHandlerT := fun s e out => clearCache out.
Definition instanceHandler : instanceHandlerT := fun s e out => clearCache out.
Definition configHandler : configHandlerT := fun k m e out => clearCache out.

(** [NewDiscoveryService] creates the service and registers the handlers
    that flush the caches; it returns the service, the error and the
    controller after the registrations.  The HTTP container and server it
    also sets up carry no state of the caches and are left out. *)
Definition NewDiscoveryService {C : Type} (controller : Controller C)
           (o : DiscoveryServiceOptions) (c : C)
  : option DiscoveryService * error * C :=
  let out :=
    {| services := Options_Services o;
       config := Options_Config o;
       mesh := Options_Mesh o;
       sdsCache := newDiscoveryCache (EnableCaching o);
       cdsCache := newDiscoveryCache (EnableCaching o);
       rdsCache := newDiscoveryCache (EnableCaching o) |} in
  match AppendServiceHandler controller serviceHandler c with
  | (Some err, c) => (None, Some err, c)
  | (None, c) =>
      match AppendInstanceHandler controller instanceHandler c with
      | (Some err, c) => (None, Some err, c)
      | (None, c) =>
          match AppendConfigHandler controller (RouteRule E) configHandler c with
          | (Some err, c) => (None, Some err, c)
          | (None, c) =>
              match AppendConfigHandler controller (DestinationPolicy E) configHandler c with
              | (Some err, c) => (None, Some err, c)
              | (None, c) => (Some out, None, c)
              end
          end
      end
  end.

(** *** A controller that keeps its handlers *)

Inductive Handler :=
| ServiceHandler (f : serviceHandlerT)
| InstanceHandler (f : instanceHandlerT)
| ConfigHandler (kind : string) (f : configHandlerT).

Inductive Notification :=
| ServiceEvent (s : Service) (e : Event E)
| InstanceEvent (i : ServiceInstance) (e : Event E)
| ConfigEvent (k : Key) (m : proto.Message) (e : Event E).

(** Modelled from the spec: the controller implementations (model and
    platform packages) are not among the sources.  Each [Append] adds a
    callback that the controller later invokes on change events. *)
Definition recorder : Controller (list Handler) :=
  {| AppendServiceHandler := fun f c => (None, c ++ [ServiceHandler f])%list;
     AppendInstanceHandler := fun f c => (None, c ++ [InstanceHandler f])%list;
     AppendConfigHandler := fun kind f c => (None, c ++ [ConfigHandler kind f])%list |}.

(** Modelled from the spec: the controller implementations are not among
    the sources.  A handler is invoked on the events of its family, a
    config handler on the events of its kind; [None] when the
    notification is not for this handler. *)
Definition invoke (h : Handler) (n : Notification) (ds : DiscoveryService)
  : option DiscoveryService :=
  match h, n with
  | ServiceHandler f, ServiceEvent s e => Some (f s e ds)
  | InstanceHandler f, InstanceEvent i e => Some (f i e ds)
  | ConfigHandler kind f, ConfigEvent k m e =>
      if String.eqb kind (Kind k) then Some (f k m e ds) else None
  | _, _ => None
  end.

(** Every entry of the cache is evicted. *)
Definition evicted (c : discoveryCache) : Prop :=
  forall key entry, cache c !! key = Some entry -> data entry = None.

(** *** Histories of the service *)

Inductive Op :=
| GetEndpoints (request : Request)
| GetClusters (request : Request)
| GetRoutes (request : Request)
| GetStats
| PostClearStats
| Notify.

Definition step (ds : DiscoveryService) (op : Op) : DiscoveryService :=
  match op with
  | GetEndpoints request => snd (ListEndpoints ds request)
  | GetClusters request => snd (ListClusters ds request)
  | GetRoutes request => snd (ListRoutes ds request)
  | GetStats => ds
  | PostClearStats => ClearCacheStats ds
  | Notify => clearCache ds
  end.

Definition run (ds : DiscoveryService) (ops : list Op) : DiscoveryService :=
  fold_left step ops ds.

End Discovery.

Arguments AppendServiceHandler {E C} _ _ _.
Arguments AppendInstanceHandler {E C} _ _ _.
Arguments AppendConfigHandler {E C} _ _ _ _.

(** ** proxy/envoy/watcher.go *)

Section Watcher.

Variable E : Externals.

Definition EpochFileTemplate := "%s/envoy-rev%d.json".
Definition BinaryPath := "/usr/local/bin/envoy".
Definition ConfigPath := "/etc/envoy".

Definition Second : Z := 1000000000.

Definition configFile (config : string) (epoch : Z) : string :=
  fmt.render (Quote E) EpochFileTemplate [fmt.Str config; fmt.Int epoch].

(** The [interface{}] that the agent hands to the launch function. *)
Inductive any :=
| ConfigPtr (envoyConfig : EnvoyConfig E)
| OtherValue (gosyntax : string).

(** The calls a function makes on the operating system, in order. *)
Inductive Call :=
| CallWriteFile (config : EnvoyConfig E) (fname : string)
| CallRun (path : string) (args : list string)
| CallRemove (path : string).

Definition runEnvoy (mesh : ProxyMeshConfig) (ip : string)
  : any -> Z -> list Call * error :=
  fun config epoch =>
    match config with
    | OtherValue v => ([], Errorf "Unexpected config type: %#v" [fmt.Str v])
    | ConfigPtr envoyConfig =>
        let fname := configFile ConfigPath epoch in
        match WriteFile E envoyConfig fname with
        | Some err => ([CallWriteFile envoyConfig fname], Some err)
        | None =>
            let args :=
              ["-c"; fname;
               "--restart-epoch"; fmt.Sprint epoch;
               "--drain-time-s";
               fmt.Sprint (Z.quot (convertDuration E (DrainDuration mesh)) Second);
               "--parent-shutdown-time-s";
               fmt.Sprint (Z.quot (convertDuration E (ParentShutdownDuration mesh)) Second);
               "--service-cluster"; IstioServiceCluster mesh;
               "--service-node"; ip] in
            let args :=
              if V E 4 then (args ++ ["-l"; "trace"])%list
              else if V E 3 then (args ++ ["-l"; "debug"])%list
              else args in
            ([CallWriteFile envoyConfig fname; CallRun BinaryPath args],
             Run E BinaryPath args)
        end
    end.

(** A failure of [os.Remove] is logged and dropped. *)
Definition cleanupEnvoy (mesh : ProxyMeshConfig) : Z -> list Call :=
  fun epoch =>
    let path := configFile ConfigPath epoch in
    [CallRemove path].

(** Modelled from the spec: [proxy.Agent] (proxy/agent.go) is not among
    the sources.  For one epoch the agent calls the launch function,
    which returns when the child has exited, and then the cleanup hook
    of that epoch. *)
Definition superviseEpoch (run : any -> Z -> list Call * error)
           (cleanup : Z -> list Call) (config : any) (epoch : Z)
  : list Call * error :=
  let '(calls, err) := run config epoch in
  ((calls ++ cleanup epoch)%list, err).

End Watcher.

End envoy.

(** ** Statements about services *)

Module ServiceSpec.

Import model.

Definition emptyPortName : fmt.message :=
  fmt.Sprintf "Empty port names are not allowed for services with multiple ports" [].

(** The invariants of a service as the specification lists them:
    every hostname label is a DNS-1123 label, there is at least one port,
    port names are unique, an empty port name only when there is exactly
    one port, and (from the claim) no negative port number. *)
Definition StatedInvariants (s : Service) : Prop :=
  Forall (fun part => IsDNS1123Label part = true) (strings.Split (Hostname s) ".")
  /\ (1 <= length (Ports s))%nat
  /\ NoDup (map Name (Ports s))
  /\ Forall (fun port => Name port = "" -> length (Ports s) = 1%nat) (Ports s)
  /\ Forall (fun port => 0 <= Port_Port port) (Ports s).

(** What [Service.Validate] requires of one port of a service with [n]
    ports. *)
Definition PortAccepted (n : nat) (port : Port) : Prop :=
  (if String.eqb (Name port) "" then (n <= 1)%nat else IsDNS1123Label (Name port) = true)
  /\ 0 <= Port_Port port.

(** What [Service.Validate] requires of a service; uniqueness of the port
    names is not part of it. *)
Definition Accepted (s : Service) : Prop :=
  Forall (fun part => IsDNS1123Label part = true) (strings.Split (Hostname s) ".")
  /\ (1 <= length (Ports s))%nat
  /\ Forall (PortAccepted (length (Ports s))) (Ports s).

(** The messages [Service.Validate] adds for the hostname and the number
    of ports, and for one port of a service with [n] ports. *)
Definition hostnameErrors (s : Service) : list fmt.message :=
  ((if (String.length (Hostname s) =? 0)%nat
    then [fmt.Sprintf "Invalid empty hostname" []] else [])
   ++ concat (map (fun part =>
                     if negb (IsDNS1123Label part)
                     then [fmt.Sprintf "Invalid hostname part: %q" [fmt.Str part]]
                     else [])
                  (strings.Split (Hostname s) "."))
   ++ (if (length (Ports s) =? 0)%nat
       then [fmt.Sprintf "Service must have at least one declared port" []] else []))%list.

Definition portErrors (n : nat) (port : Port) : list fmt.message :=
  ((if String.eqb (Name port) ""
    then (if (1 <? n)%nat then [emptyPortName] else [])
    else if negb (IsDNS1123Label (Name port))
         then [fmt.Sprintf "Invalid name: %q" [fmt.Str (Name port)]]
         else [])
   ++ (if Port_Port port <? 0
       then [fmt.Sprintf "Invalid service port value %d for %q"
                         [fmt.Int (Port_Port port); fmt.Str (Name port)]]
       else []))%list.

(** The number of ports without a name. *)
Definition unnamed (ports : list Port) : nat :=
  length (List.filter (fun port => String.eqb (Name port) "") ports).

Definition http (name : string) (port : Z) : Port :=
  {| Name := name; Port_Port := port; Protocol := "HTTP" |}.

(** Two ports with the same name. *)
Definition duplicateNames : Service :=
  {| Hostname := "hello.default.svc.cluster.local"; Address := "10.1.0.0";
     Ports := [http "http" 80; http "http" 81] |}.

(** A port name that is not a DNS-1123 label. *)
Definition upperCaseName : Service :=
  {| Hostname := "hello.default.svc.cluster.local"; Address := "10.1.0.0";
     Ports := [http "HTTP" 80] |}.

(** Two ports without a name. *)
Definition unnamedPorts : Service :=
  {| Hostname := "hello.default.svc.cluster.local"; Address := "10.1.0.0";
     Ports := [http "" 80; http "custom" 90; http "" 81] |}.

End ServiceSpec.

(** ** Statements about routing rules *)

Module RouteRuleSpec.

Import proxyconfig model.

Definition weightFormat : string := "Route weights total %v (must total 100)".

(** The weight-sum error for a total of [sum]. *)
Definition weightSumError (sum : Z) : fmt.message :=
  fmt.Sprintf weightFormat [fmt.Int sum].

Definition isWeightSumError (m : fmt.message) : bool :=
  String.eqb (fmt.format m) weightFormat.

(** No message of the error is a weight-sum error. *)
Definition noWeightSumError (e : error) : Prop :=
  Forall (fun m => isWeightSumError m = false) (multierror.Errors e).

Definition optErrors {A} (validate : A -> error) (field : option A) : list fmt.message :=
  match field with
  | Some x => multierror.Errors (validate x)
  | None => []
  end.

(** The messages [ValidateRouteRule] adds before it checks the weights of
    [routes], and after. *)
Definition beforeWeights (value : RouteRule) (routes : list DestinationWeight)
  : list fmt.message :=
  ((if String.eqb (RouteRule_Destination value) ""
    then [fmt.Sprintf "route rule must have a destination service" []] else [])
   ++ multierror.Errors (validateFQDN (RouteRule_Destination value))
   ++ optErrors ValidateMatchCondition (Match value)
   ++ concat (map (fun dw => multierror.Errors (ValidateDestinationWeight dw)) routes))%list.

Definition afterWeights (value : RouteRule) : list fmt.message :=
  (optErrors ValidateHTTPTimeout (HttpReqTimeout value)
   ++ optErrors ValidateHTTPRetries (HttpReqRetries value)
   ++ optErrors ValidateHTTPFault (HttpFault value)
   ++ match L4Fault value with
      | Some fault =>
          multierror.Errors (ValidateL4Fault fault)
          ++ [fmt.Sprintf "L4 faults are not implemented" []]
      | None => []
      end)%list.

Definition grpcUnsupported : fmt.message :=
  fmt.Sprintf "Istio does not support gRPC fault injection yet" [].

Definition invalidStatus (status : Z) : fmt.message :=
  fmt.Sprintf "invalid abort http status %v" [fmt.Int status].

(** The weights of the destinations add up to this. *)
Definition total (routes : list DestinationWeight) : Z :=
  fold_right Z.add 0 (map Weight routes).

(** The values of an [int32]. *)
Definition int32 (z : Z) : Prop := - 2 ^ 31 <= z < 2 ^ 31.

(** A rule as it is decoded: its weights are [int32] values and the
    route list is short enough for their sum to fit the 64-bit [int]. *)
Definition wellFormed (routes : list DestinationWeight) : Prop :=
  Forall (fun dw => int32 (Weight dw)) routes
  /\ Z.of_nat (length routes) <= 2 ^ 32.

Definition to (destination : string) (weight : Z) : DestinationWeight :=
  {| Destination := destination; Tags := []; Weight := weight |}.

Definition rule (routes : option (list DestinationWeight)) : RouteRule :=
  {| RouteRule_Destination := "world.default.svc.cluster.local";
     Precedence := 0; Match := None; Route := routes;
     HttpReqTimeout := None; HttpReqRetries := None;
     HttpFault := None; L4Fault := None |}.

End RouteRuleSpec.

(** ** Statements about the discovery service *)

Module DiscoverySpec.

Import proxyconfig model envoy.

(** A lookup of [key] in [c] misses. *)
Definition uncached (c : discoveryCache) (key : string) : Prop :=
  cachedDiscoveryResponse c key = (None, false, c).

(** The entry [v] after eviction. *)
Definition evict (v : discoveryCacheEntry) : discoveryCacheEntry :=
  {| data := None; hit := hit v; miss := miss v |}.

(** The entry [v] after a recomputed response [bytes] was stored. *)
Definition refill (bytes : option string) (v : discoveryCacheEntry) : discoveryCacheEntry :=
  {| data := bytes; hit := hit v; miss := AddUint64 (miss v) 1 |}.

(** The three caches of a service hold no live data. *)
Definition allEvicted {E} (ds : DiscoveryService E) : Prop :=
  evicted (sdsCache E ds) /\ evicted (cdsCache E ds) /\ evicted (rdsCache E ds).

(** A cache that is switched off and holds nothing. *)
Definition off (c : discoveryCache) : Prop :=
  disabled c = true /\ cache c = ∅.

(** The indented JSON of an object whose [hosts] field is the array
    [items]. *)
Definition hostsBody (E : Externals) (items : list json.value) : string :=
  json.encode (json_literal E) " " " " 0 (json.Object [("hosts", json.Array items)]).

(** Every live entry of the SDS cache is the JSON of a [hosts] array. *)
Definition sdsWellFormed {E} (ds : DiscoveryService E) : Prop :=
  forall key entry bytes,
    cache (sdsCache E ds) !! key = Some entry ->
    data entry = Some bytes ->
    exists items, bytes = hostsBody E items.

(** The hosts that [ListEndpoints] computes for a request. *)
Definition endpointHosts {E} (ds : DiscoveryService E) (request : Request) : list host :=
  let '(hostname, ports, tags) := ParseServiceKey E (PathParameter request ServiceKey) in
  map (fun ep => {| host_Address := Endpoint_Address (Endpoint ep);
                    host_Port := Endpoint_Port (Endpoint ep);
                    host_Weight := 0 |})
      (Instances (services E ds) hostname (GetNames E ports) tags).

(** The three endpoint families that [Register] routes to their handlers,
    each with its cache. *)
Inductive Family := SDS | CDS | RDS.

Definition serve {E} (family : Family) (ds : DiscoveryService E) (request : Request)
  : Response * DiscoveryService E :=
  match family with
  | SDS => ListEndpoints E ds request
  | CDS => ListClusters E ds request
  | RDS => ListRoutes E ds request
  end.

Definition withCache {E} (family : Family) (ds : DiscoveryService E) (c : discoveryCache)
  : DiscoveryService E :=
  match family with
  | SDS => setSdsCache E ds c
  | CDS => setCdsCache E ds c
  | RDS => setRdsCache E ds c
  end.

(** The diagnostic of a CDS or RDS request for another service cluster. *)
Definition unexpectedServiceCluster (sc : string) : fmt.message :=
  fmt.Sprintf "Unexpected %s %q" [fmt.Str ServiceCluster; fmt.Str sc].

Definition cacheOf {E} (family : Family) (ds : DiscoveryService E) : discoveryCache :=
  match family with
  | SDS => sdsCache E ds
  | CDS => cdsCache E ds
  | RDS => rdsCache E ds
  end.

(** Every cache of the service is switched off and empty. *)
Definition cachingOff {E} (ds : DiscoveryService E) : Prop :=
  forall family, off (cacheOf family ds).

(** The handlers that [NewDiscoveryService] hands to the controller. *)
Definition registeredHandlers (E : Externals) : list (Handler E) :=
  [ServiceHandler E (serviceHandler E);
   InstanceHandler E (instanceHandler E);
   ConfigHandler E (RouteRule E) (configHandler E);
   ConfigHandler E (DestinationPolicy E) (configHandler E)].

(** The body of an SDS response without hosts. *)
Definition emptyHostsBody : string :=
  "{" ++ json.newline ++ "  " ++ json.dquote ++ "hosts" ++ json.dquote ++ ": []"
      ++ json.newline ++ " }".

(** *** A registry and collaborators to run the handlers on

    One service with two instances, as in the package's tests. *)

Definition HelloService : Service :=
  {| Hostname := "hello.default.svc.cluster.local"; Address := "10.1.0.0";
     Ports := [{| Name := "http"; Port_Port := 80; Protocol := "HTTP" |}] |}.

Definition helloInstance (address : string) : ServiceInstance :=
  {| Endpoint := {| Endpoint_Address := address; Endpoint_Port := 80;
                    ServicePort := Some {| Name := "http"; Port_Port := 80;
                                           Protocol := "HTTP" |} |};
     Instance_Service := Some HelloService;
     Instance_Tags := [] |}.

Definition mockDiscovery : ServiceDiscovery :=
  {| Services := [HelloService];
     Instances := fun hostname _ _ =>
       if String.eqb hostname (Hostname HelloService)
       then [helloInstance "10.1.1.0"; helloInstance "10.1.1.1"] else [];
     HostInstances := fun _ => [helloInstance "10.1.1.0"] |}.

Definition quoted (s : string) : string := json.dquote ++ s ++ json.dquote.

Definition mockExternals : Externals :=
  {| IstioRegistry := unit;
     Event := unit;
     Cluster := string;
     HTTPRouteConfig := string;
     EnvoyConfig := string;
     RouteRule := "route-rule";
     DestinationPolicy := "destination-policy";
     ParseServiceKey := fun key => (key, [], []);
     GetNames := map Name;
     buildOutboundHTTPRoutes := fun _ _ _ => {[ 80 := "routes for port 80" ]};
     clusters := fun _ => ["out.hello"];
     normalize := fun cs => cs;
     insertDestinationPolicy := fun _ c => c;
     MarshalIndent_ClusterManager := fun cs _ _ => (Some (json.join "," cs), None);
     MarshalIndent_HTTPRouteConfig := fun rc _ _ => (Some rc, None);
     json_literal := quoted;
     Quote := quoted;
     convertDuration := fun d => Seconds d * 1000000000 + Nanos d;
     V := fun level => level <=? 2;
     WriteFile := fun _ _ => None;
     Run := fun _ _ => None;
     Remove := fun _ => None |}.

Definition DefaultMeshConfig : ProxyMeshConfig :=
  {| IstioServiceCluster := "istio-proxy";
     DrainDuration := {| Seconds := 5; Nanos := 0 |};
     ParentShutdownDuration := {| Seconds := 10; Nanos := 0 |} |}.

Definition mockOptions (caching : bool) : DiscoveryServiceOptions mockExternals :=
  {| Options_Services := mockDiscovery;
     Options_Config := (tt : IstioRegistry mockExternals);
     Options_Mesh := DefaultMeshConfig;
     Options_Port := 8080;
     EnableProfiling := true;
     EnableCaching := caching |}.

(** The service that [NewDiscoveryService] builds from [mockOptions]. *)
Definition mockService (caching : bool) : DiscoveryService mockExternals :=
  {| services := mockDiscovery; config := (tt : IstioRegistry mockExternals);
     mesh := DefaultMeshConfig;
     sdsCache := newDiscoveryCache caching;
     cdsCache := newDiscoveryCache caching;
     rdsCache := newDiscoveryCache caching |}.

Definition get (url : string) (params : list (string * string)) : Request :=
  {| URL := url; PathParameters := list_to_map params |}.

Definition helloEndpoints : Request :=
  get "/v1/registration/hello.default.svc.cluster.local"
      [("service-key", "hello.default.svc.cluster.local")].

Definition nonexistentEndpoints : Request :=
  get "/v1/registration/nonexistent" [("service-key", "nonexistent")].

Definition clustersOf (cluster : string) : Request :=
  get ("/v1/clusters/" ++ cluster ++ "/10.1.1.0")
      [("service-cluster", cluster); ("service-node", "10.1.1.0")].

Definition routesOf (name cluster : string) : Request :=
  get ("/v1/routes/" ++ name ++ "/" ++ cluster ++ "/10.1.1.0")
      [("route-config-name", name); ("service-cluster", cluster);
       ("service-node", "10.1.1.0")].

(** The service after one SDS request for the hello service. *)
Definition warm : DiscoveryService mockExternals :=
  run mockExternals (mockService true) [GetEndpoints helloEndpoints].

End DiscoverySpec.

(** ** Statements about the watcher *)

Module WatcherSpec.

Import proxyconfig envoy.

(** The path of the configuration file of an epoch in [config]. *)
Definition epochFile (config : string) (epoch : Z) : string :=
  config ++ "/envoy-rev" ++ fmt.Sprint epoch ++ ".json".

(** The arguments of the child before the log level. *)
Definition launchArgs (E : Externals) (mesh : ProxyMeshConfig) (ip : string)
           (fname : string) (epoch : Z) : list string :=
  ["-c"; fname;
   "--restart-epoch"; fmt.Sprint epoch;
   "--drain-time-s"; fmt.Sprint (Z.quot (convertDuration E (DrainDuration mesh)) Second);
   "--parent-shutdown-time-s";
   fmt.Sprint (Z.quot (convertDuration E (ParentShutdownDuration mesh)) Second);
   "--service-cluster"; IstioServiceCluster mesh;
   "--service-node"; ip].

(** The log level that the verbosity of the process selects. *)
Definition logLevel (E : Externals) : list string :=
  if V E 4 then ["-l"; "trace"]
  else if V E 3 then ["-l"; "debug"]
  else [].

End WatcherSpec.

(** ** What a pattern matches *)

Module RegexpSpec.

Import regexp.

(** The texts of the language of a pattern. *)
Inductive matches : re -> string -> Prop :=
| matches_Eps : matches Eps EmptyString
| matches_Class member c :
    member c = true -> matches (Class member) (String c EmptyString)
| matches_Cat r1 r2 s1 s2 :
    matches r1 s1 -> matches r2 s2 -> matches (Cat r1 r2) (s1 ++ s2)
| matches_Alt_l r1 r2 s : matches r1 s -> matches (Alt r1 r2) s
| matches_Alt_r r1 r2 s : matches r2 s -> matches (Alt r1 r2) s
| matches_Star_nil r : matches (Star r) EmptyString
| matches_Star_app r s1 s2 :
    matches r s1 -> matches (Star r) s2 -> matches (Star r) (s1 ++ s2).

(** Every byte of the text satisfies [p]. *)
Fixpoint all (p : ascii -> bool) (s : string) : bool :=
  match s with
  | EmptyString => true
  | String c rest => p c && all p rest
  end.

Definition first (s : string) : option ascii :=
  match s with
  | EmptyString => None
  | String c _ => Some c
  end.

Fixpoint last (s : string) : option ascii :=
  match s with
  | EmptyString => None
  | String c EmptyString => Some c
  | String _ rest => last rest
  end.

Definition holds (p : ascii -> bool) (c : option ascii) : bool :=
  match c with
  | Some c => p c
  | None => false
  end.

(** The syntax of a DNS-1123 label without the length bound: not empty,
    bytes among [-a-z0-9], and neither the first nor the last is a dash. *)
Definition labelSyntax (s : string) : bool :=
  holds model.lower_alnum (first s) && all model.dash_lower_alnum s
  && holds model.lower_alnum (last s).

End RegexpSpec.

(** ** Destination policies (istio.io/api/proxy/v1/config) *)

Module policyconfig.

(** A numeric field that is an [int32] or a [double] in the API; the
    validators only compare it with zero. *)
Inductive number :=
| Integer (n : Z)
| Double (x : float).

Definition negative (n : number) : bool :=
  match n with
  | Integer n => n <? 0
  | Double x => PrimFloat.ltb x 0%float
  end.

Record SimpleCircuitBreakerPolicy := {
  MaxConnections : number;
  HttpMaxPendingRequests : number;
  HttpMaxRequests : number;
  SleepWindowSeconds : number;
  HttpConsecutiveErrors : number;
  HttpDetectionIntervalSeconds : number;
  HttpMaxRequestsPerConnection : number;
  HttpMaxEjectionPercent : Z  (* int32 *)
}.

Inductive CircuitBreaker :=
| CircuitBreaker_SimpleCb (simple : SimpleCircuitBreakerPolicy)
| CircuitBreaker_Custom (custom : string)
| CircuitBreaker_unset.

Definition GetSimpleCb (cb : CircuitBreaker) : option SimpleCircuitBreakerPolicy :=
  match cb with CircuitBreaker_SimpleCb simple => Some simple | _ => None end.

Record LoadBalancing := { LbPolicy : string }.

Record DestinationPolicy := {
  Policy_Destination : string;
  Policy_Tags : proxyconfig.StringMap;
  Policy_LoadBalancing : option LoadBalancing;
  Policy_CircuitBreaker : option CircuitBreaker
}.

Definition GetLoadBalancing (p : DestinationPolicy) := Policy_LoadBalancing p.
Definition GetCircuitBreaker (p : DestinationPolicy) := Policy_CircuitBreaker p.

(** A [proto.Message] of the configuration store: a routing rule, a
    destination policy, or a message of another type. *)
Inductive Message :=
| MessageRouteRule (value : proxyconfig.RouteRule)
| MessageDestinationPolicy (value : DestinationPolicy)
| MessageOther (name : string).

(** The same message for the validators of routing rules. *)
Definition asRouteRule (msg : Message) : proto.Message :=
  match msg with
  | MessageRouteRule value => proto.RouteRule value
  | MessageDestinationPolicy _ => proto.Other "DestinationPolicy"
  | MessageOther name => proto.Other name
  end.

End policyconfig.

(** ** model/validation.go: keys, configuration objects, instances and
    destination policies *)

Module validation.

Import proxyconfig policyconfig model.

Definition Key_Validate (k : Key) : error :=
  let errs : error := None in
  let errs :=
    if negb (IsDNS1123Label (Kind k))
    then multierror.Append errs (Errorf "Invalid kind: %q" [fmt.Str (Kind k)])
    else errs in
  let errs :=
    if negb (IsDNS1123Label (Key_Name k))
    then multierror.Append errs (Errorf "Invalid name: %q" [fmt.Str (Key_Name k)])
    else errs in
  if negb (IsDNS1123Label (Namespace k))
  then multierror.Append errs (Errorf "Invalid namespace: %q" [fmt.Str (Namespace k)])
  else errs.

(** A [ProtoSchema] of model/config.go: the message type of a kind and its
    validator. *)
Record ProtoSchema := {
  Schema_MessageName : string;
  Schema_Validate : Message -> error
}.

(** A [KindMap]: the declared kinds. *)
Definition KindMap := gmap string ProtoSchema.

Definition ValidateKey (km : gmap string ProtoSchema) (k : Key) : error :=
  match Key_Validate k with
  | Some err => Some err
  | None =>
      match km !! Kind k with
      | None => Errorf "Kind %q is not defined" [fmt.Str (Kind k)]
      | Some _ => None
      end
  end.

(** An [interface{}]: nil, a proto message, or a value of another type. *)
Inductive object :=
| Nil
| ProtoMessage (v : Message)
| NotProto.

Section ValidateConfig.

(** [proto.MessageName] *)
Variable MessageName : Message -> string.

(** [k] is a pointer: [None] is nil. *)
Definition ValidateConfig (km : gmap string ProtoSchema) (k : option Key) (obj : object)
  : error :=
  match k, obj with
  | None, _ | _, Nil => Errorf "Invalid nil configuration object" []
  | Some k, obj =>
      match Key_Validate k with
      | Some err => Some err
      | None =>
          match km !! Kind k with
          | None => Errorf "Undeclared kind: %q" [fmt.Str (Kind k)]
          | Some t =>
              match obj with
              | ProtoMessage v =>
                  if negb (String.eqb (MessageName v) (Schema_MessageName t))
                  then Errorf "Mismatched message type %q and kind %q"
                              [fmt.Str (MessageName v); fmt.Str (Schema_MessageName t)]
                  else
                    match Schema_Validate t v with
                    | Some err => Some err
                    | None => None
                    end
              | _ => Errorf "Cannot cast to a proto message" []
              end
          end
      end
  end.

End ValidateConfig.

Section ServiceInstance.

(** [PortMap.Get] of model/service.go: the port of that name, if any. *)
Variable Get : list Port -> string -> option Port.

Definition ServiceInstance_Validate (instance : ServiceInstance) : error :=
  let errs : error := None in
  let errs :=
    match Instance_Service instance with
    | None => multierror.Append errs (Errorf "Missing service in the instance" [])
    | Some service => appendIfErr errs (Service_Validate service)
    end in
  let errs := appendIfErr errs (Tags_Validate (Instance_Tags instance)) in
  let errs :=
    if Endpoint_Port (Endpoint instance) <? 0
    then multierror.Append errs
           (Errorf "Negative port value: %d" [fmt.Int (Endpoint_Port (Endpoint instance))])
    else errs in
  match ServicePort (Endpoint instance) with
  | None => multierror.Append errs (Errorf "Missing service port" [])
  | Some port =>
      match Instance_Service instance with
      | Some service =>
          match Get (Ports service) (Name port) with
          | None =>
              multierror.Append errs (Errorf "Missing service port %q" [fmt.Str (Name port)])
          | Some expected =>
              let errs :=
                if negb (Port_Port expected =? Port_Port port)
                then multierror.Append errs
                       (Errorf "Unexpected service port value %d, expected %d"
                               [fmt.Int (Port_Port port); fmt.Int (Port_Port expected)])
                else errs in
              if negb (String.eqb (Protocol expected) (Protocol port))
              then multierror.Append errs
                     (Errorf "Unexpected service protocol %s, expected %s"
                             [fmt.Str (Protocol port); fmt.Str (Protocol expected)])
              else errs
          end
      | None => errs
      end
  end.

End ServiceInstance.

Definition ValidateLoadBalancing (lb : LoadBalancing) : error := None.

Definition ValidateCircuitBreaker (cb : CircuitBreaker) : error :=
  let errs : error := None in
  match GetSimpleCb cb with
  | Some simple =>
      let errs :=
        if negative (MaxConnections simple)
        then multierror.Append errs
               (Errorf "circuit_breaker max_connections must be in range [0..]" [])
        else errs in
      let errs :=
        if negative (HttpMaxPendingRequests simple)
        then multierror.Append errs
               (Errorf "circuit_breaker max_pending_requests must be in range [0..]" [])
        else errs in
      let errs :=
        if negative (HttpMaxRequests simple)
        then multierror.Append errs
               (Errorf "circuit_breaker max_requests must be in range [0..]" [])
        else errs in
      let errs :=
        if negative (SleepWindowSeconds simple)
        then multierror.Append errs
               (Errorf "circuit_breaker sleep_window_seconds must be in range [0..]" [])
        else errs in
      let errs :=
        if negative (HttpConsecutiveErrors simple)
        then multierror.Append errs
               (Errorf "circuit_breaker http_consecutive_errors must be in range [0..]" [])
        else errs in
      let errs :=
        if negative (HttpDetectionIntervalSeconds simple)
        then multierror.Append errs
               (Errorf "circuit_breaker http_detection_interval_seconds must be in range [0..]" [])
        else errs in
      let errs :=
        if negative (HttpMaxRequestsPerConnection simple)
        then multierror.Append errs
               (Errorf "circuit_breaker http_max_requests_per_connection must be in range [0..]" [])
        else errs in
      validatePercent errs (HttpMaxEjectionPercent simple)
                      "circuit_breaker http_max_ejection_percent"
  | None => errs
  end.

Definition ValidateDestinationPolicy (msg : Message) : error :=
  match msg with
  | MessageDestinationPolicy value =>
      let errs : error := None in
      let errs :=
        if String.eqb (Policy_Destination value) ""
        then multierror.Append errs
               (Errorf "destination policy should have a valid service name in its destination field" [])
        else appendIfErr errs (validateFQDN (Policy_Destination value)) in
      let errs := appendIfErr errs (Tags_Validate (Policy_Tags value)) in
      let errs :=
        match GetLoadBalancing value with
        | Some lb => appendIfErr errs (ValidateLoadBalancing lb)
        | None => errs
        end in
      match GetCircuitBreaker value with
      | Some cb => appendIfErr errs (ValidateCircuitBreaker cb)
      | None => errs
      end
  | _ => Errorf "Cannot cast to destination policy" []
  end.

End validation.

(** ** Statements about the validators *)

Module ValidationSpec.

Import proxyconfig model RegexpSpec.

(** An error without messages is the nil error. *)
Definition proper (e : error) : Prop := multierror.Errors e = [] -> e = None.

(** The syntax of a tag key or value: bytes among [-A-Za-z0-9_./]. *)
Definition tagSyntax (s : string) : bool := all qualified_name_char s.

Definition tagsOk (t : StringMap) : bool :=
  forallb (fun kv => tagSyntax (fst kv) && tagSyntax (snd kv)) t.

(** A domain name of 1 to 255 bytes whose dot-separated labels are DNS-1123
    labels. *)
Definition fqdnOk (fqdn : string) : bool :=
  (1 <=? String.length fqdn)%nat && (String.length fqdn <=? 255)%nat
  && forallb IsDNS1123Label (strings.Split fqdn ".").

(** An octet that [strconv.Atoi] reads as a number from 0 to 255. *)
Definition octetOk (octet : string) : bool :=
  match strconv.Atoi octet with
  | Some n => (0 <=? n) && (n <=? 255)
  | None => false
  end.

(** A prefix length that [strconv.Atoi] reads as a number from 1 to 32. *)
Definition cidrOk (bits : string) : bool :=
  match strconv.Atoi bits with
  | Some n => (1 <=? n) && (n <=? 32)
  | None => false
  end.

Definition addressOk (addr : string) : bool :=
  (length (strings.Split addr ".") =? 4)%nat && forallb octetOk (strings.Split addr ".").

Definition subnetOk (subnet : string) : bool :=
  match strings.Split subnet "/" with
  | [addr] => addressOk addr
  | [addr; bits] => cidrOk bits && addressOk addr
  | _ => false
  end.

End ValidationSpec.

(** ** Statements about the counters of the caches *)

Module CacheSpec.

Import envoy.

(** The hit and miss counters kept for [key]; zero when the cache has no
    entry for it. *)
Definition counters (c : discoveryCache) (key : string) : Z * Z :=
  match cache c !! key with
  | Some entry => (hit entry, miss entry)
  | None => (0, 0)
  end.

(** The bytes stored for [key] that have not been evicted. *)
Definition live (c : discoveryCache) (key : string) : option string :=
  match cache c !! key with
  | Some entry => data entry
  | None => None
  end.

End CacheSpec.

(** * Properties *)

(** ** Errors as lists of messages *)

Section ErrorLemmas.

Import multierror.

Lemma Errors_Errorf format args :
  Errors (Errorf format args) = [fmt.Sprintf format args].
Proof. reflexivity. Qed.

Lemma Errors_Append errs e :
  Errors (Append errs e) = (Errors errs ++ Errors e)%list.
Proof. reflexivity. Qed.

Lemma Errors_appendIfErr errs e :
  Errors (appendIfErr errs e) = (Errors errs ++ Errors e)%list.
Proof.
  destruct e as [v|]; simpl.
  - reflexivity.
  - now rewrite app_nil_r.
Qed.

(** A loop whose body only appends: the messages of the result are those
    of the start followed by what each element contributes. *)
Lemma Errors_fold_left {A} (body : error -> A -> error) (added : A -> list fmt.message) :
  (forall errs x, Errors (body errs x) = (Errors errs ++ added x)%list) ->
  forall l errs,
    Errors (fold_left body l errs) = (Errors errs ++ concat (map added l))%list.
Proof.
  intros Hbody l. induction l as [|x l IH]; intros errs; simpl.
  - now rewrite app_nil_r.
  - rewrite IH, Hbody. now rewrite <- app_assoc.
Qed.

(** A loop whose body leaves the error alone on every element. *)
Lemma fold_left_unchanged {A} (body : error -> A -> error) l :
  Forall (fun x => forall errs, body errs x = errs) l ->
  forall errs, fold_left body l errs = errs.
Proof.
  induction 1 as [|x l Hx _ IH]; intros errs; simpl.
  - reflexivity.
  - now rewrite Hx.
Qed.

End ErrorLemmas.

(** ** Service.Validate *)

Section ServiceValidate.

Import multierror model ServiceSpec.

(** The messages of [Service.Validate], in the order it adds them. *)
Lemma Service_Validate_Errors (s : Service) :
  Errors (Service_Validate s)
  = (hostnameErrors s ++ concat (map (portErrors (length (Ports s))) (Ports s)))%list.
Proof.
  unfold Service_Validate, hostnameErrors.
  rewrite (Errors_fold_left _ (portErrors (length (Ports s)))).
  - f_equal.
    destruct (length (Ports s) =? 0)%nat.
    + rewrite Errors_Append.
      rewrite (Errors_fold_left _
                 (fun part => if negb (IsDNS1123Label part)
                              then [fmt.Sprintf "Invalid hostname part: %q" [fmt.Str part]]
                              else [])).
      * destruct (String.length (Hostname s) =? 0)%nat; simpl;
          now rewrite <- ?app_assoc.
      * intros errs part. destruct (negb (IsDNS1123Label part)); simpl.
        -- reflexivity.
        -- now rewrite app_nil_r.
    + rewrite (Errors_fold_left _
                 (fun part => if negb (IsDNS1123Label part)
                              then [fmt.Sprintf "Invalid hostname part: %q" [fmt.Str part]]
                              else [])).
      * destruct (String.length (Hostname s) =? 0)%nat; simpl;
          now rewrite ?app_nil_r.
      * intros errs part. destruct (negb (IsDNS1123Label part)); simpl.
        -- reflexivity.
        -- now rewrite app_nil_r.
  - intros errs port. unfold portErrors, emptyPortName.
    destruct (String.eqb (Name port) ""); [destruct (1 <? length (Ports s))%nat|
      destruct (negb (IsDNS1123Label (Name port)))];
      destruct (Port_Port port <? 0); simpl; rewrite ?app_nil_r, <- ?app_assoc; reflexivity.
Qed.

Lemma Accepted_hostname_nonempty (s : Service) :
  Forall (fun part => IsDNS1123Label part = true) (strings.Split (Hostname s) ".") ->
  (String.length (Hostname s) =? 0)%nat = false.
Proof.
  intros Hparts. destruct (Hostname s) as [|c rest]; [|reflexivity].
  simpl in Hparts. inversion Hparts as [|? ? Hlabel _]. discriminate Hlabel.
Qed.

(** A service that meets what the validator checks gets the nil error. *)
Lemma Service_Validate_Accepted (s : Service) :
  Accepted s -> Service_Validate s = None.
Proof.
  intros (Hparts & Hports & Hport). unfold Service_Validate.
  rewrite (Accepted_hostname_nonempty s Hparts).
  rewrite (fold_left_unchanged _ (strings.Split (Hostname s) ".")).
  2:{ eapply Forall_impl; [exact Hparts|]. intros part Hlabel errs. simpl in Hlabel.
      now rewrite Hlabel. }
  destruct (length (Ports s)) as [|n] eqn:Hlen; [lia|]. simpl.
  apply fold_left_unchanged.
  eapply Forall_impl; [exact Hport|].
  intros port [Hname Hnum] errs. simpl in *.
  destruct (String.eqb (Name port) "").
  - assert (n = 0%nat) as -> by lia. simpl.
    destruct (Port_Port port <? 0) eqn:Hneg; [lia|reflexivity].
  - rewrite Hname. simpl.
    destruct (Port_Port port <? 0) eqn:Hneg; [lia|reflexivity].
Qed.

Lemma hostnameErrors_nil (s : Service) :
  Forall (fun part => IsDNS1123Label part = true) (strings.Split (Hostname s) ".") ->
  (1 <= length (Ports s))%nat ->
  hostnameErrors s = [].
Proof.
  intros Hparts Hports. unfold hostnameErrors.
  rewrite (Accepted_hostname_nonempty s Hparts).
  destruct (length (Ports s)) as [|n]; [lia|]. simpl. rewrite app_nil_r.
  induction Hparts as [|part parts Hlabel _ IH]; simpl.
  - reflexivity.
  - now rewrite Hlabel.
Qed.

Lemma portErrors_only_unnamed n ports :
  (1 < n)%nat ->
  Forall (fun port => (Name port <> "" -> IsDNS1123Label (Name port) = true)
                      /\ 0 <= Port_Port port) ports ->
  concat (map (portErrors n) ports) = List.repeat emptyPortName (unnamed ports).
Proof.
  intros Hn. induction 1 as [|port ports [Hname Hnum] _ IH]; simpl.
  - reflexivity.
  - unfold unnamed in *. simpl. rewrite IH. unfold portErrors.
    destruct (Port_Port port <? 0) eqn:Hneg; [lia|].
    destruct (String.eqb (Name port) "") eqn:Hempty.
    + apply Nat.ltb_lt in Hn. rewrite Hn. reflexivity.
    + apply String.eqb_neq in Hempty. rewrite (Hname Hempty). reflexivity.
Qed.

(** C2, as the code has it.  [Service.Validate] reports an empty port name
    of a service with several ports; when that is the only defect the
    error consists of that message once per unnamed port; and a service
    whose hostname labels are DNS-1123 labels, with at least one port,
    whose port names are DNS-1123 labels (or empty, for a single port) and
    whose port numbers are not negative gets no error.  Uniqueness of the
    port names is not checked. *)
Theorem Service_Validate_reports (s : Service) :
  ((1 < length (Ports s))%nat ->
   (exists port, In port (Ports s) /\ Name port = "") ->
   Service_Validate s <> None /\ In emptyPortName (Errors (Service_Validate s)))
  /\ ((1 < length (Ports s))%nat ->
      Forall (fun part => IsDNS1123Label part = true) (strings.Split (Hostname s) ".") ->
      Forall (fun port => (Name port <> "" -> IsDNS1123Label (Name port) = true)
                          /\ 0 <= Port_Port port) (Ports s) ->
      Errors (Service_Validate s) = List.repeat emptyPortName (unnamed (Ports s)))
  /\ (Accepted s -> Service_Validate s = None).
Proof.
  split; [|split].
  - intros Hn (port & Hin & Hname).
    assert (In emptyPortName (Errors (Service_Validate s))) as Hmsg.
    { rewrite Service_Validate_Errors. apply in_or_app. right.
      apply in_concat. exists (portErrors (length (Ports s)) port). split.
      - now apply in_map.
      - unfold portErrors. rewrite Hname. simpl.
        apply Nat.ltb_lt in Hn. rewrite Hn. now left. }
    split; [|exact Hmsg].
    intros Hnil. rewrite Hnil in Hmsg. exact Hmsg.
  - intros Hn Hparts Hports.
    rewrite Service_Validate_Errors, hostnameErrors_nil by (assumption || lia).
    now apply portErrors_only_unnamed.
  - apply Service_Validate_Accepted.
Qed.

Lemma Service_Validate_reports_witness :
  In emptyPortName (Errors (Service_Validate unnamedPorts))
  /\ Errors (Service_Validate unnamedPorts) = [emptyPortName; emptyPortName]
  /\ Service_Validate {| Hostname := "world.default.svc.cluster.local"; Address := "10.2.0.0";
                         Ports := [http "http" 80; http "custom" 90] |} = None.
Proof.
  split; [|split].
  - apply (proj1 (Service_Validate_reports unnamedPorts)).
    + simpl. lia.
    + exists (http "" 80). simpl. auto.
  - apply (proj1 (proj2 (Service_Validate_reports unnamedPorts))).
    + simpl. lia.
    + vm_compute. repeat constructor.
    + simpl.
      repeat (constructor;
              [split; [first [intros _; reflexivity
                             |intros Hname; exfalso; apply Hname; reflexivity]
                      |simpl; lia]|]).
      constructor.
  - apply (proj2 (proj2 (Service_Validate_reports _))).
    split; [|split].
    + vm_compute. repeat constructor.
    + simpl. lia.
    + repeat constructor; simpl; lia.
Defined.

(** C2 fails as stated: a service with two ports of the same name passes
    [Service.Validate], and a service that meets every stated invariant
    is rejected for a port name that is not a DNS-1123 label. *)
Lemma Service_Validate_counterexample :
  (Name (http "http" 80) = Name (http "http" 81)
   /\ Service_Validate duplicateNames = None)
  /\ (StatedInvariants upperCaseName
      /\ Service_Validate upperCaseName
         = Some (Multi [fmt.Sprintf "Invalid name: %q" [fmt.Str "HTTP"]])).
Proof.
  split; split.
  - reflexivity.
  - vm_compute. reflexivity.
  - unfold StatedInvariants. split; [|split; [|split; [|split]]].
    + vm_compute. repeat constructor.
    + simpl. lia.
    + simpl. apply NoDup_singleton.
    + simpl. constructor; [discriminate|constructor].
    + simpl. constructor; [simpl; lia|constructor].
  - vm_compute. reflexivity.
Qed.

End ServiceValidate.

(** ** Abort validation *)

Section ValidateAbort.

Import multierror proxyconfig model RouteRuleSpec.

Lemma In_Errors_not_nil m (e : error) : In m (Errors e) -> e <> None.
Proof. intros Hin ->. exact Hin. Qed.

(** C3.  An abort whose error type is a gRPC status gets the error that
    gRPC fault injection is not supported, whatever its other fields; an
    abort whose HTTP status is below 0 or above 600 gets the
    invalid-status error. *)
Theorem validateAbort_rejects (abort : HTTPFaultInjection_Abort) :
  (forall status,
      Abort_ErrorType abort = HTTPFaultInjection_Abort_GrpcStatus status ->
      validateAbort abort <> None
      /\ In grpcUnsupported (Errors (validateAbort abort)))
  /\ (forall status,
         Abort_ErrorType abort = HTTPFaultInjection_Abort_HttpStatus status ->
         status < 0 \/ 600 < status ->
         validateAbort abort <> None
         /\ In (invalidStatus status) (Errors (validateAbort abort))).
Proof.
  split.
  - intros status Htype.
    assert (In grpcUnsupported (Errors (validateAbort abort))) as Hin.
    { unfold validateAbort. rewrite Htype, Errors_Append.
      apply in_or_app. right. now left. }
    split; [exact (In_Errors_not_nil _ _ Hin)|exact Hin].
  - intros status Htype Hrange.
    assert (In (invalidStatus status) (Errors (validateAbort abort))) as Hin.
    { unfold validateAbort. rewrite Htype, Errors_appendIfErr.
      apply in_or_app. right. unfold validateAbortHTTPStatus.
      replace ((status <? 0) || (600 <? status)) with true.
      - now left.
      - symmetry. apply orb_true_iff. rewrite !Z.ltb_lt. exact Hrange. }
    split; [exact (In_Errors_not_nil _ _ Hin)|exact Hin].
Qed.

Lemma validateAbort_rejects_witness :
  In grpcUnsupported
     (Errors (validateAbort {| Abort_Percent := 50%float;
                               Abort_ErrorType := HTTPFaultInjection_Abort_GrpcStatus "UNAVAILABLE" |}))
  /\ In (invalidStatus 601)
        (Errors (validateAbort {| Abort_Percent := 50%float;
                                  Abort_ErrorType := HTTPFaultInjection_Abort_HttpStatus 601 |})).
Proof.
  split.
  - apply (proj1 (validateAbort_rejects _) "UNAVAILABLE"). reflexivity.
  - apply (proj2 (validateAbort_rejects _) 601); [reflexivity|lia].
Defined.

(** The earlier revision of the file accepts a gRPC abort, and rejects an
    HTTP status out of range like the later one. *)
Lemma validateAbort_earlier :
  model_earlier.validateAbort
    {| Abort_Percent := 50%float;
       Abort_ErrorType := HTTPFaultInjection_Abort_GrpcStatus "UNAVAILABLE" |} = None
  /\ model_earlier.validateAbort
       {| Abort_Percent := 50%float;
          Abort_ErrorType := HTTPFaultInjection_Abort_HttpStatus 601 |}
     = Some (Multi [invalidStatus 601]).
Proof. split; reflexivity. Qed.

End ValidateAbort.

(** ** Route weights *)

Section ValidateWeights.

Import multierror proxyconfig model RouteRuleSpec.

Lemma int_small z : - 2 ^ 63 <= z < 2 ^ 63 -> int z = z.
Proof.
  intros Hz. unfold int. rewrite Z.mod_small; lia.
Qed.

(** The loop of [validateWeights] from an accumulator that the first [k]
    weights can have produced. *)
Lemma sumWeights_from (routes : list DestinationWeight) :
  Forall (fun dw => int32 (Weight dw)) routes ->
  forall k acc,
    0 <= k ->
    k + Z.of_nat (length routes) <= 2 ^ 32 ->
    - (k * 2 ^ 31) <= acc <= k * 2 ^ 31 ->
    fold_left (fun sum destWeight => int (sum + Weight destWeight)) routes acc
    = acc + total routes.
Proof.
  induction 1 as [|dw routes Hdw _ IH]; intros k acc Hk Hlen Hacc.
  - unfold total. simpl. lia.
  - unfold int32 in Hdw. cbn [fold_left]. cbn [length] in Hlen.
    rewrite int_small by nia.
    rewrite (IH (k + 1)) by (try nia; lia).
    unfold total. simpl. lia.
Qed.

(** Without overflow the accumulated sum is the sum of the weights. *)
Lemma sumWeights_total (routes : list DestinationWeight) :
  wellFormed routes -> sumWeights routes = total routes.
Proof.
  intros [Hweights Hlen]. unfold sumWeights.
  rewrite (sumWeights_from routes Hweights 0); lia.
Qed.

Lemma noWeightSumError_None : noWeightSumError None.
Proof. constructor. Qed.

Lemma noWeightSumError_Errorf format args :
  String.eqb format weightFormat = false -> noWeightSumError (Errorf format args).
Proof. intros Hformat. constructor; [exact Hformat|constructor]. Qed.

Lemma noWeightSumError_Append errs e :
  noWeightSumError errs -> noWeightSumError e -> noWeightSumError (Append errs e).
Proof.
  unfold noWeightSumError. rewrite Errors_Append. intros. now apply Forall_app.
Qed.

Lemma noWeightSumError_appendIfErr errs e :
  noWeightSumError errs -> noWeightSumError e -> noWeightSumError (appendIfErr errs e).
Proof.
  unfold noWeightSumError. rewrite Errors_appendIfErr. intros. now apply Forall_app.
Qed.

Lemma noWeightSumError_fold_left {A} (body : error -> A -> error) l :
  (forall errs x, noWeightSumError errs -> noWeightSumError (body errs x)) ->
  forall errs, noWeightSumError errs -> noWeightSumError (fold_left body l errs).
Proof.
  intros Hbody. induction l as [|x l IH]; intros errs Herrs; simpl; auto.
Qed.

Create HintDb noweight.
#[local] Hint Resolve noWeightSumError_None : noweight.

Ltac no_weight :=
  cbv zeta;
  repeat first
    [ solve [eauto with noweight]
    | apply noWeightSumError_Errorf; reflexivity
    | apply noWeightSumError_Append
    | apply noWeightSumError_appendIfErr
    | apply noWeightSumError_fold_left; [intros|]
    | match goal with
      | |- noWeightSumError (if ?c then _ else _) => destruct c
      | |- noWeightSumError (match ?x with _ => _ end) => destruct x
      end ].

Lemma noWeightSumError_Tags t : noWeightSumError (Tags_Validate t).
Proof. unfold Tags_Validate. no_weight. Qed.

Lemma noWeightSumError_FQDN_labels fqdn labels :
  noWeightSumError (validateFQDN_labels fqdn labels).
Proof. induction labels; simpl; no_weight. Qed.

#[local] Hint Resolve noWeightSumError_Tags noWeightSumError_FQDN_labels : noweight.

Lemma noWeightSumError_FQDN fqdn : noWeightSumError (validateFQDN fqdn).
Proof. unfold validateFQDN. no_weight. Qed.

Lemma noWeightSumError_octets addr octets :
  noWeightSumError (validateIPv4Address_octets addr octets).
Proof. induction octets; simpl; no_weight. Qed.

#[local] Hint Resolve noWeightSumError_FQDN noWeightSumError_octets : noweight.

Lemma noWeightSumError_subnet subnet : noWeightSumError (validateSubnet subnet).
Proof.
  unfold validateSubnet, validateIPv4Subnet, validateCIDRBlock, validateIPv4Address.
  no_weight.
Qed.

#[local] Hint Resolve noWeightSumError_subnet : noweight.

Lemma noWeightSumError_MatchCondition mc : noWeightSumError (ValidateMatchCondition mc).
Proof.
  unfold ValidateMatchCondition, ValidateL4MatchAttributes, GetTcp, GetUdp. no_weight.
Qed.

Lemma noWeightSumError_DestinationWeight dw :
  noWeightSumError (ValidateDestinationWeight dw).
Proof. unfold ValidateDestinationWeight, validatePercent. no_weight. Qed.

Lemma noWeightSumError_HTTPTimeout timeout : noWeightSumError (ValidateHTTPTimeout timeout).
Proof. unfold ValidateHTTPTimeout. no_weight. Qed.

Lemma noWeightSumError_HTTPRetries retry : noWeightSumError (ValidateHTTPRetries retry).
Proof. unfold ValidateHTTPRetries. no_weight. Qed.

Lemma noWeightSumError_HTTPFault fault : noWeightSumError (ValidateHTTPFault fault).
Proof.
  unfold ValidateHTTPFault, validateDelay, validateAbort, validateAbortHTTPStatus,
    validateFloatPercent, GetDelay, GetAbort.
  no_weight.
Qed.

Lemma noWeightSumError_L4Fault fault : noWeightSumError (ValidateL4Fault fault).
Proof.
  unfold ValidateL4Fault, validateTerminate, validateThrottle, validateFloatPercent,
    GetTerminate, GetThrottle.
  no_weight.
Qed.

Lemma Forall_optErrors {A} (validate : A -> error) field :
  (forall x, noWeightSumError (validate x)) ->
  Forall (fun m => isWeightSumError m = false) (optErrors validate field).
Proof.
  intros Hvalidate. destruct field as [x|]; simpl.
  - apply Hvalidate.
  - constructor.
Qed.

Lemma beforeWeights_clean value routes :
  Forall (fun m => isWeightSumError m = false) (beforeWeights value routes).
Proof.
  unfold beforeWeights. repeat apply Forall_app_2.
  - destruct (String.eqb (RouteRule_Destination value) ""); repeat constructor.
  - apply noWeightSumError_FQDN.
  - apply Forall_optErrors, noWeightSumError_MatchCondition.
  - induction routes as [|dw routes IH]; simpl.
    + constructor.
    + apply Forall_app_2; [apply noWeightSumError_DestinationWeight|exact IH].
Qed.

Lemma afterWeights_clean value :
  Forall (fun m => isWeightSumError m = false) (afterWeights value).
Proof.
  unfold afterWeights. repeat apply Forall_app_2.
  - apply Forall_optErrors, noWeightSumError_HTTPTimeout.
  - apply Forall_optErrors, noWeightSumError_HTTPRetries.
  - apply Forall_optErrors, noWeightSumError_HTTPFault.
  - destruct (L4Fault value) as [fault|]; [|constructor].
    apply Forall_app_2; [apply noWeightSumError_L4Fault|repeat constructor].
Qed.

(** The messages of [ValidateRouteRule] on a rule with a route list: the
    weight check sits between the two groups of other messages. *)
Lemma ValidateRouteRule_Errors (value : RouteRule) routes :
  Route value = Some routes ->
  Errors (ValidateRouteRule (proto.RouteRule value))
  = (beforeWeights value routes
     ++ Errors (validateWeights routes (RouteRule_Destination value))
     ++ afterWeights value)%list.
Proof.
  intros Hroute. unfold ValidateRouteRule, beforeWeights, afterWeights, optErrors.
  rewrite Hroute. cbv zeta.
  destruct (L4Fault value) as [l4|];
    [rewrite Errors_Append, Errors_Errorf, Errors_appendIfErr|];
    (destruct (HttpFault value) as [fault|]; [rewrite Errors_appendIfErr|]);
    (destruct (HttpReqRetries value) as [retry|]; [rewrite Errors_appendIfErr|]);
    (destruct (HttpReqTimeout value) as [timeout|]; [rewrite Errors_appendIfErr|]);
    rewrite Errors_appendIfErr;
    rewrite (Errors_fold_left _ (fun dw => Errors (ValidateDestinationWeight dw)))
      by (intros; apply Errors_appendIfErr);
    (destruct (Match value) as [mc|]; [rewrite Errors_appendIfErr|]);
    rewrite Errors_appendIfErr;
    (destruct (String.eqb (RouteRule_Destination value) ""); [rewrite Errors_Append|]);
    simpl; rewrite <- ?app_assoc, ?app_nil_r; reflexivity.
Qed.

Lemma weightSumError_text (Quote : string -> string) (sum : Z) :
  fmt.text Quote (weightSumError sum)
  = "Route weights total " ++ fmt.Sprint sum ++ " (must total 100)".
Proof. reflexivity. Qed.

(** C1.  On a rule with several destinations whose weights do not add up to
    100, [ValidateRouteRule] returns an error that holds the weight-sum
    message with the total; on a rule with one destination of weight 0 no
    message of the error is a weight-sum message. *)
Theorem ValidateRouteRule_weights (value : RouteRule) (routes : list DestinationWeight) :
  Route value = Some routes ->
  wellFormed routes ->
  ((1 < length routes)%nat ->
   total routes <> 100 ->
   ValidateRouteRule (proto.RouteRule value) <> None
   /\ In (weightSumError (total routes))
         (Errors (ValidateRouteRule (proto.RouteRule value))))
  /\ (forall dw,
         routes = [dw] ->
         Weight dw = 0 ->
         noWeightSumError (ValidateRouteRule (proto.RouteRule value))).
Proof.
  intros Hroute Hwf. split.
  - intros Hlen Htotal.
    assert (In (weightSumError (total routes))
               (Errors (ValidateRouteRule (proto.RouteRule value)))) as Hin.
    { rewrite (ValidateRouteRule_Errors value routes Hroute).
      apply in_or_app. right. apply in_or_app. left.
      unfold validateWeights. rewrite (sumWeights_total routes Hwf).
      replace (length routes =? 1)%nat with false
        by (symmetry; apply Nat.eqb_neq; lia).
      replace (total routes =? 100) with false
        by (symmetry; apply Z.eqb_neq; exact Htotal).
      simpl. now left. }
    split; [exact (In_Errors_not_nil _ _ Hin)|exact Hin].
  - intros dw -> Hweight. unfold noWeightSumError.
    rewrite (ValidateRouteRule_Errors value [dw] Hroute).
    apply Forall_app_2; [apply beforeWeights_clean|].
    apply Forall_app_2; [|apply afterWeights_clean].
    unfold validateWeights, sumWeights. simpl. rewrite Hweight. constructor.
Qed.

Lemma ValidateRouteRule_weights_witness :
  In (weightSumError 99)
     (Errors (ValidateRouteRule (proto.RouteRule (rule (Some [to "v1" 50; to "v2" 49])))))
  /\ noWeightSumError (ValidateRouteRule (proto.RouteRule (rule (Some [to "v1" 0])))).
Proof.
  assert (forall routes,
             forallb (fun dw => (- 2 ^ 31 <=? Weight dw) && (Weight dw <? 2 ^ 31)) routes = true ->
             (length routes <= 8)%nat ->
             wellFormed routes) as Hwf.
  { intros routes Hweights Hlen. split.
    - apply List.Forall_forall. intros dw Hin.
      rewrite forallb_forall in Hweights. specialize (Hweights dw Hin).
      apply andb_true_iff in Hweights. unfold int32. lia.
    - lia. }
  split.
  - apply (proj1 (ValidateRouteRule_weights (rule (Some [to "v1" 50; to "v2" 49]))
                    [to "v1" 50; to "v2" 49] eq_refl
                    (Hwf [to "v1" 50; to "v2" 49] eq_refl ltac:(simpl; lia)))).
    + simpl. lia.
    + unfold total. simpl. lia.
  - apply (proj2 (ValidateRouteRule_weights (rule (Some [to "v1" 0])) [to "v1" 0] eq_refl
                    (Hwf [to "v1" 0] eq_refl ltac:(simpl; lia))) (to "v1" 0)); reflexivity.
Defined.

End ValidateWeights.

(** ** The discovery caches *)

Section Cache.

Import envoy DiscoverySpec.

Lemma setCache_cache (c : discoveryCache) : setCache c (cache c) = c.
Proof. now destruct c. Qed.

(** A lookup that does not hit returns nothing and leaves the cache as it
    was. *)
Lemma cachedDiscoveryResponse_miss c key out c' :
  cachedDiscoveryResponse c key = (out, false, c') -> out = None /\ c' = c.
Proof.
  unfold cachedDiscoveryResponse.
  destruct (disabled c); [intros [= <- <-]; auto|].
  destruct (cache c !! key) as [entry|]; [|intros [= <- <-]; auto].
  destruct (data entry); [discriminate|intros [= <- <-]; auto].
Qed.

(** A lookup that hits returns the live data of the entry and counts the
    hit. *)
Lemma cachedDiscoveryResponse_hit c key out c' :
  cachedDiscoveryResponse c key = (out, true, c') ->
  exists entry bytes,
    cache c !! key = Some entry /\ data entry = Some bytes /\ out = Some bytes
    /\ c' = setCache c (<[key := {| data := Some bytes;
                                    hit := AddUint64 (hit entry) 1;
                                    miss := miss entry |}]> (cache c)).
Proof.
  unfold cachedDiscoveryResponse.
  destruct (disabled c); [discriminate|].
  destruct (cache c !! key) as [entry|] eqn:Hentry; [|discriminate].
  destruct (data entry) as [bytes|] eqn:Hdata; [|discriminate].
  intros [= <- <-]. exists entry, bytes. auto.
Qed.

Lemma lookup_clear c key : cache (clear c) !! key = evict <$> cache c !! key.
Proof. unfold clear. simpl. apply lookup_fmap. Qed.

Lemma evicted_clear c : evicted (clear c).
Proof.
  intros key entry. rewrite lookup_clear.
  destruct (cache c !! key) as [v|]; simpl; [|discriminate].
  now intros [= <-].
Qed.

Lemma uncached_evicted c key : evicted c -> uncached c key.
Proof.
  intros Hc. unfold uncached, cachedDiscoveryResponse.
  destruct (disabled c); [reflexivity|].
  destruct (cache c !! key) as [entry|] eqn:Hentry; [|reflexivity].
  now rewrite (Hc key entry Hentry).
Qed.

Lemma lookup_update c key bytes :
  disabled c = false ->
  cache (updateCachedDiscoveryResponse c key bytes) !! key
  = Some (refill bytes (default {| data := None; hit := 0; miss := 0 |} (cache c !! key))).
Proof.
  intros Hc. unfold updateCachedDiscoveryResponse. rewrite Hc. simpl.
  rewrite lookup_insert_eq. now destruct (cache c !! key).
Qed.

(** Lookups and updates on a cache that is switched off. *)
Lemma off_lookup c key : off c -> uncached c key.
Proof. intros [Hc _]. unfold uncached, cachedDiscoveryResponse. now rewrite Hc. Qed.

Lemma off_update c key bytes : off c -> updateCachedDiscoveryResponse c key bytes = c.
Proof. intros [Hc _]. unfold updateCachedDiscoveryResponse. now rewrite Hc. Qed.

Lemma off_clear c : off c -> clear c = c.
Proof.
  intros [_ Hc]. unfold clear. rewrite Hc, fmap_empty, <- Hc. apply setCache_cache.
Qed.

Lemma off_resetStats c : off c -> resetStats c = c.
Proof.
  intros [_ Hc]. unfold resetStats. rewrite Hc, fmap_empty, <- Hc. apply setCache_cache.
Qed.

Lemma off_stats c : off c -> stats c = ∅.
Proof. intros [_ Hc]. unfold stats. now rewrite Hc, fmap_empty. Qed.

Lemma off_newDiscoveryCache : off (newDiscoveryCache false).
Proof. split; reflexivity. Qed.

End Cache.

(** ** The discovery handlers *)

Section Handlers.

Import proxyconfig model envoy DiscoverySpec.

Variable E : Externals.

#[local] Abbreviation DS := (DiscoveryService E).

Lemma setSdsCache_same (ds : DS) : setSdsCache E ds (sdsCache E ds) = ds.
Proof. now destruct ds. Qed.

Lemma setCdsCache_same (ds : DS) : setCdsCache E ds (cdsCache E ds) = ds.
Proof. now destruct ds. Qed.

Lemma setRdsCache_same (ds : DS) : setRdsCache E ds (rdsCache E ds) = ds.
Proof. now destruct ds. Qed.

(** [append] in a loop from a slice that is not nil. *)
Lemma fold_left_append {A} (f : A -> host) l acc :
  fold_left (fun hostArray ep => append hostArray (f ep)) l (Some acc)
  = Some (acc ++ map f l)%list.
Proof.
  revert acc. induction l as [|x l IH]; intros acc; simpl.
  - now rewrite app_nil_r.
  - rewrite IH. now rewrite <- app_assoc.
Qed.

(** An SDS request that misses the cache: the response is the JSON of the
    computed hosts, and it is stored under the URL. *)
Lemma ListEndpoints_miss (ds : DS) request :
  uncached (sdsCache E ds) (URL request) ->
  ListEndpoints E ds request
  = (writeResponse (Some (hostsBody E (map host_json (endpointHosts ds request)))),
     setSdsCache E ds
       (updateCachedDiscoveryResponse (sdsCache E ds) (URL request)
          (Some (hostsBody E (map host_json (endpointHosts ds request)))))).
Proof.
  intros Hmiss. unfold ListEndpoints, endpointHosts. rewrite Hmiss. simpl.
  destruct (ParseServiceKey E (PathParameter request ServiceKey)) as [[hostname ports] tags].
  unfold make_hosts. rewrite fold_left_append. simpl.
  rewrite setSdsCache_same. reflexivity.
Qed.

(** An SDS request that hits the cache is answered with the cached bytes. *)
Lemma ListEndpoints_hit (ds : DS) request out c :
  cachedDiscoveryResponse (sdsCache E ds) (URL request) = (out, true, c) ->
  ListEndpoints E ds request = (writeResponse out, setSdsCache E ds c).
Proof. intros Hhit. unfold ListEndpoints. now rewrite Hhit. Qed.

(** The same case analysis for the three handlers: a request either hits,
    or misses and is answered from the registry. *)
Ltac lookup_cases cacheOf ds request :=
  let out := fresh "out" in
  let cached := fresh "cached" in
  let c := fresh "c" in
  let Hlookup := fresh "Hlookup" in
  destruct (cachedDiscoveryResponse (cacheOf E ds) (URL request))
    as [[out cached] c] eqn:Hlookup;
  destruct cached;
  [ | apply cachedDiscoveryResponse_miss in Hlookup; destruct Hlookup as [-> ->] ].

(** The SDS handler never answers with an error. *)
Lemma ListEndpoints_status (ds : DS) request :
  status (fst (ListEndpoints E ds request)) = StatusOK.
Proof.
  unfold ListEndpoints. lookup_cases sdsCache ds request; simpl.
  - reflexivity.
  - now destruct (ParseServiceKey E _) as [[hostname ports] tags].
Qed.

(** C9.  A request that ends in an error response, which is a 404 or a 500,
    leaves the service as it was: no cache gains an entry and no entry
    changes its data or its counters. *)
Theorem error_response_keeps_caches (family : Family) (ds : DS) (request : Request) :
  status (fst (serve family ds request)) <> StatusOK ->
  (status (fst (serve family ds request)) = StatusNotFound
   \/ status (fst (serve family ds request)) = StatusInternalServerError)
  /\ snd (serve family ds request) = ds
  /\ cacheOf family (snd (serve family ds request)) = cacheOf family ds.
Proof.
  intros Hstatus.
  assert ((status (fst (serve family ds request)) = StatusNotFound
           \/ status (fst (serve family ds request)) = StatusInternalServerError)
          /\ snd (serve family ds request) = ds) as [Hcode Hsame].
  { revert Hstatus. destruct family; simpl.
    - intros Hstatus. now rewrite ListEndpoints_status in Hstatus.
    - unfold ListClusters. lookup_cases cdsCache ds request; simpl.
      + intros Hstatus. now contradiction Hstatus.
      + rewrite setCdsCache_same.
        destruct (negb (String.eqb _ _)); simpl; [auto|].
        destruct (MarshalIndent_ClusterManager E _ _ _) as [out [err|]]; simpl.
        * auto.
        * intros Hstatus. now contradiction Hstatus.
    - unfold ListRoutes. lookup_cases rdsCache ds request; simpl.
      + intros Hstatus. now contradiction Hstatus.
      + rewrite setRdsCache_same.
        destruct (negb (String.eqb _ _)); simpl; [auto|].
        destruct (strconv.Atoi _) as [port|]; simpl; [|auto].
        destruct (_ !! port) as [routeConfig|]; simpl; [|auto].
        destruct (MarshalIndent_HTTPRouteConfig E _ _ _) as [out [err|]]; simpl.
        * auto.
        * intros Hstatus. now contradiction Hstatus. }
  split; [exact Hcode|]. split; [exact Hsame|]. now rewrite Hsame.
Qed.

Lemma append_nil_r (s : string) : (s ++ "")%string = s.
Proof.
  induction s as [|c s IH]; [reflexivity|].
  change (String c (s ++ "")%string = String c s). now rewrite IH.
Qed.

Lemma unexpectedServiceCluster_text (Quote : string -> string) (sc : string) :
  fmt.text Quote (unexpectedServiceCluster sc)
  = ("Unexpected service-cluster " ++ Quote sc)%string.
Proof.
  unfold fmt.text, unexpectedServiceCluster.
  cbn -[String.append]. now rewrite append_nil_r.
Qed.

Lemma withCache_same family (ds : DS) : withCache family ds (cacheOf family ds) = ds.
Proof. destruct family, ds; reflexivity. Qed.

Lemma cacheOf_withCache family (ds : DS) c : cacheOf family (withCache family ds c) = c.
Proof. destruct family; reflexivity. Qed.

(** A request that misses the cache either fails and changes nothing, or
    is answered with computed bytes that are stored under its URL. *)
Lemma serve_miss family (ds : DS) request r ds' :
  uncached (cacheOf family ds) (URL request) ->
  serve family ds request = (r, ds') ->
  (status r <> StatusOK /\ ds' = ds)
  \/ exists bytes,
      r = writeResponse bytes
      /\ ds' = withCache family ds
                 (updateCachedDiscoveryResponse (cacheOf family ds) (URL request) bytes).
Proof.
  intros Hmiss Hserve. destruct family; simpl in *.
  - rewrite ListEndpoints_miss in Hserve by assumption.
    injection Hserve as <- <-. right. eauto.
  - unfold ListClusters in Hserve. rewrite Hmiss in Hserve. simpl in Hserve.
    rewrite setCdsCache_same in Hserve.
    destruct (negb (String.eqb _ _));
      [injection Hserve as <- <-; left; split; [discriminate|reflexivity]|].
    destruct (MarshalIndent_ClusterManager E _ _ _) as [out [err|]];
      injection Hserve as <- <-.
    + left. split; [discriminate|reflexivity].
    + right. eauto.
  - unfold ListRoutes in Hserve. rewrite Hmiss in Hserve. simpl in Hserve.
    rewrite setRdsCache_same in Hserve.
    destruct (negb (String.eqb _ _));
      [injection Hserve as <- <-; left; split; [discriminate|reflexivity]|].
    destruct (strconv.Atoi _) as [port|];
      [|injection Hserve as <- <-; left; split; [discriminate|reflexivity]].
    destruct (_ !! port) as [routeConfig|];
      [|injection Hserve as <- <-; left; split; [discriminate|reflexivity]].
    destruct (MarshalIndent_HTTPRouteConfig E _ _ _) as [out [err|]];
      injection Hserve as <- <-.
    + left. split; [discriminate|reflexivity].
    + right. eauto.
Qed.

(** A request that hits the cache is answered with the cached bytes. *)
Lemma serve_hit family (ds : DS) request out c :
  cachedDiscoveryResponse (cacheOf family ds) (URL request) = (out, true, c) ->
  serve family ds request = (writeResponse out, withCache family ds c).
Proof.
  intros Hhit. destruct family; simpl in *.
  - unfold ListEndpoints. now rewrite Hhit.
  - unfold ListClusters. now rewrite Hhit.
  - unfold ListRoutes. now rewrite Hhit.
Qed.

(** C6.  An uncached CDS or RDS request whose service-cluster parameter is
    not the mesh's cluster name is answered 404 with the diagnostic
    [Unexpected service-cluster] followed by the quoted value. *)
Theorem unexpected_service_cluster (family : Family) (ds : DS) (request : Request) :
  family <> SDS ->
  uncached (cacheOf family ds) (URL request) ->
  PathParameter request ServiceCluster <> IstioServiceCluster (mesh E ds) ->
  serve family ds request
  = ({| status := StatusNotFound;
        body := Message (unexpectedServiceCluster (PathParameter request ServiceCluster)) |},
     ds)
  /\ fmt.text (Quote E) (unexpectedServiceCluster (PathParameter request ServiceCluster))
     = ("Unexpected service-cluster " ++ Quote E (PathParameter request ServiceCluster))%string.
Proof.
  intros Hfamily Hmiss Hcluster. split.
  - apply String.eqb_neq in Hcluster.
    destruct family; [contradiction|simpl in *; unfold ListClusters|simpl in *; unfold ListRoutes];
      rewrite Hmiss; simpl; rewrite Hcluster; simpl;
      rewrite ?setCdsCache_same, ?setRdsCache_same; reflexivity.
  - apply unexpectedServiceCluster_text.
Qed.

Lemma cacheOf_clearCache family (ds : DS) :
  cacheOf family (clearCache E ds) = clear (cacheOf family ds).
Proof. destruct family; reflexivity. Qed.

(** C5.  [clear] evicts the data of every entry and keeps the keys and the
    hit and miss counters; a lookup of any key then misses and changes
    nothing, so the entry stays evicted until a request for it is served:
    that request stores the bytes it computed and counts one more miss. *)
Theorem clear_is_lazy (family : Family) (ds : DS) :
  dom (cache (clear (cacheOf family ds))) = dom (cache (cacheOf family ds))
  /\ (forall key,
         cache (clear (cacheOf family ds)) !! key
         = evict <$> cache (cacheOf family ds) !! key)
  /\ (forall key, uncached (clear (cacheOf family ds)) key)
  /\ cacheOf family (clearCache E ds) = clear (cacheOf family ds)
  /\ (forall request entry,
         disabled (cacheOf family ds) = false ->
         cache (cacheOf family ds) !! URL request = Some entry ->
         status (fst (serve family (clearCache E ds) request)) = StatusOK ->
         exists bytes,
           fst (serve family (clearCache E ds) request) = writeResponse bytes
           /\ cache (cacheOf family (snd (serve family (clearCache E ds) request)))
                !! URL request
              = Some {| data := bytes; hit := hit entry;
                        miss := AddUint64 (miss entry) 1 |}).
Proof.
  split; [|split; [|split; [|split]]].
  - unfold clear. simpl. apply dom_fmap_L.
  - intros key. apply lookup_clear.
  - intros key. apply uncached_evicted, evicted_clear.
  - apply cacheOf_clearCache.
  - intros request entry Henabled Hentry Hstatus.
    destruct (serve family (clearCache E ds) request) as [r ds'] eqn:Hserve.
    simpl in *.
    destruct (serve_miss family (clearCache E ds) request r ds')
      as [[Herr _]|(bytes & -> & ->)]; [|exact Hserve|contradiction|].
    + rewrite cacheOf_clearCache. apply uncached_evicted, evicted_clear.
    + exists bytes. split; [reflexivity|].
      rewrite cacheOf_withCache, cacheOf_clearCache.
      rewrite lookup_update by exact Henabled.
      rewrite lookup_clear, Hentry. reflexivity.
Qed.

(** *** Construction *)

Lemma NewDiscoveryService_value {C} (controller : Controller E C) o c out err c' :
  NewDiscoveryService E controller o c = (Some out, err, c') ->
  err = None
  /\ out = {| services := Options_Services E o;
              config := Options_Config E o;
              mesh := Options_Mesh E o;
              sdsCache := newDiscoveryCache (EnableCaching E o);
              cdsCache := newDiscoveryCache (EnableCaching E o);
              rdsCache := newDiscoveryCache (EnableCaching E o) |}.
Proof.
  unfold NewDiscoveryService.
  destruct (AppendServiceHandler controller _ c) as [[e1|] c1]; [discriminate|].
  destruct (AppendInstanceHandler controller _ c1) as [[e2|] c2]; [discriminate|].
  destruct (AppendConfigHandler controller (RouteRule E) _ c2) as [[e3|] c3]; [discriminate|].
  destruct (AppendConfigHandler controller (DestinationPolicy E) _ c3) as [[e4|] c4];
    [discriminate|].
  intros [= <- <- <-]. auto.
Qed.

(** *** Invalidation *)

Lemma allEvicted_clearCache (ds : DS) : allEvicted (clearCache E ds).
Proof. repeat split; apply evicted_clear. Qed.

(** C4.  [NewDiscoveryService] registers a service handler, an instance
    handler and a config handler for the kinds RouteRule and
    DestinationPolicy; whenever one of them is invoked on a change
    notification, every entry of the SDS, CDS and RDS caches is evicted when
    it returns. *)
Theorem handlers_clear_all_caches (o : DiscoveryServiceOptions E)
        (out : DS) (handlers : list (Handler E)) :
  NewDiscoveryService E (recorder E) o [] = (Some out, None, handlers) ->
  handlers = registeredHandlers E
  /\ forall h n ds ds',
      In h handlers -> invoke E h n ds = Some ds' -> allEvicted ds'.
Proof.
  intros Hnew. injection Hnew as _ <-. split; [reflexivity|].
  intros h n ds ds' Hin Hinvoke.
  assert (ds' = clearCache E ds) as ->; [|apply allEvicted_clearCache].
  simpl in Hin.
  destruct Hin as [<-|[<-|[<-|[<-|[]]]]]; destruct n; simpl in Hinvoke;
    try discriminate; try (now injection Hinvoke as <-).
  - destruct (String.eqb _ _); [now injection Hinvoke as <-|discriminate].
  - destruct (String.eqb _ _); [now injection Hinvoke as <-|discriminate].
Qed.

(** *** Caching switched off *)

Lemma cachingOff_new {C} (controller : Controller E C) o c ds c' :
  EnableCaching E o = false ->
  NewDiscoveryService E controller o c = (Some ds, None, c') ->
  cachingOff ds.
Proof.
  intros Hoff Hnew. apply NewDiscoveryService_value in Hnew as [_ ->].
  rewrite Hoff. intros []; apply off_newDiscoveryCache.
Qed.

Lemma serve_off family (ds : DS) request :
  cachingOff ds -> snd (serve family ds request) = ds.
Proof.
  intros Hoff. destruct (serve family ds request) as [r ds'] eqn:Hserve. simpl.
  destruct (serve_miss family ds request r ds') as [[_ ->]|(bytes & _ & ->)]; auto.
  - apply off_lookup, Hoff.
  - rewrite off_update by apply Hoff. apply withCache_same.
Qed.

Lemma step_off (ds : DS) op : cachingOff ds -> step E ds op = ds.
Proof.
  intros Hoff. destruct op; simpl.
  - apply (serve_off SDS ds request Hoff).
  - apply (serve_off CDS ds request Hoff).
  - apply (serve_off RDS ds request Hoff).
  - reflexivity.
  - unfold ClearCacheStats. cbv zeta.
    rewrite (off_resetStats (sdsCache E ds)) by apply (Hoff SDS).
    rewrite setSdsCache_same.
    rewrite (off_resetStats (cdsCache E ds)) by apply (Hoff CDS).
    rewrite setCdsCache_same.
    rewrite (off_resetStats (rdsCache E ds)) by apply (Hoff RDS).
    apply setRdsCache_same.
  - unfold clearCache. cbv zeta.
    rewrite (off_clear (sdsCache E ds)) by apply (Hoff SDS).
    rewrite setSdsCache_same.
    rewrite (off_clear (cdsCache E ds)) by apply (Hoff CDS).
    rewrite setCdsCache_same.
    rewrite (off_clear (rdsCache E ds)) by apply (Hoff RDS).
    apply setRdsCache_same.
Qed.

Lemma run_off (ds : DS) ops : cachingOff ds -> run E ds ops = ds.
Proof.
  intros Hoff. unfold run. induction ops as [|op ops IH]; simpl.
  - reflexivity.
  - now rewrite step_off.
Qed.

(** C10.  A service built with [EnableCaching] false stays as built whatever
    requests and notifications it handles: every lookup misses, every
    update leaves the cache as it was, every request is answered from the
    registry without a change to the service, and the cache statistics are
    the empty map. *)
Theorem caching_disabled {C} (controller : Controller E C)
        (o : DiscoveryServiceOptions E) (c c' : C) (ds0 : DS) (ops : list Op) :
  EnableCaching E o = false ->
  NewDiscoveryService E controller o c = (Some ds0, None, c') ->
  run E ds0 ops = ds0
  /\ (forall family key, uncached (cacheOf family (run E ds0 ops)) key)
  /\ (forall family key bytes,
         updateCachedDiscoveryResponse (cacheOf family (run E ds0 ops)) key bytes
         = cacheOf family (run E ds0 ops))
  /\ (forall family request,
         snd (serve family (run E ds0 ops) request) = run E ds0 ops)
  /\ GetCacheStats E (run E ds0 ops) = ∅.
Proof.
  intros Hdisabled Hnew.
  pose proof (cachingOff_new controller o c ds0 c' Hdisabled Hnew) as Hoff.
  rewrite (run_off ds0 ops Hoff).
  split; [reflexivity|]. split; [|split; [|split]].
  - intros family key. apply off_lookup, Hoff.
  - intros family key bytes. apply off_update, Hoff.
  - intros family request. now apply serve_off.
  - unfold GetCacheStats, addStats.
    rewrite (off_stats (sdsCache E ds0) (Hoff SDS)), (off_stats (cdsCache E ds0) (Hoff CDS)),
      (off_stats (rdsCache E ds0) (Hoff RDS)).
    now rewrite !map_empty_union.
Qed.

(** *** The shape of SDS responses *)

(** A handler writes to the cache of its own family only. *)
Lemma serve_frame family (ds : DS) request :
  exists c, snd (serve family ds request) = withCache family ds c.
Proof.
  destruct (cachedDiscoveryResponse (cacheOf family ds) (URL request))
    as [[out cached] c] eqn:Hlookup.
  destruct cached.
  - exists c. now rewrite (serve_hit family ds request out c Hlookup).
  - destruct (cachedDiscoveryResponse_miss _ _ _ _ Hlookup) as [-> ->].
    destruct (serve family ds request) as [r ds'] eqn:Hserve. simpl.
    destruct (serve_miss family ds request r ds' Hlookup Hserve)
      as [[_ ->]|(bytes & _ & ->)].
    + exists (cacheOf family ds). symmetry. apply withCache_same.
    + eauto.
Qed.

Lemma sdsWellFormed_new {C} (controller : Controller E C) o c ds c' :
  NewDiscoveryService E controller o c = (Some ds, None, c') -> sdsWellFormed ds.
Proof.
  intros Hnew. apply NewDiscoveryService_value in Hnew as [_ ->].
  intros key entry bytes Hentry. simpl in Hentry. now rewrite lookup_empty in Hentry.
Qed.

Lemma sdsWellFormed_ListEndpoints (ds : DS) request :
  sdsWellFormed ds -> sdsWellFormed (snd (ListEndpoints E ds request)).
Proof.
  intros Hwf key entry bytes.
  destruct (cachedDiscoveryResponse (sdsCache E ds) (URL request))
    as [[out cached] c] eqn:Hlookup.
  destruct cached.
  - rewrite (ListEndpoints_hit ds request out c Hlookup). simpl.
    apply cachedDiscoveryResponse_hit in Hlookup
      as (old & live & Hold & Hlive & -> & ->). simpl.
    destruct (decide (URL request = key)) as [<-|Hne].
    + rewrite lookup_insert_eq. intros [= <-]. simpl. intros [= <-].
      exact (Hwf _ _ _ Hold Hlive).
    + rewrite lookup_insert_ne by exact Hne. apply Hwf.
  - destruct (cachedDiscoveryResponse_miss _ _ _ _ Hlookup) as [-> ->].
    rewrite (ListEndpoints_miss ds request Hlookup). simpl.
    unfold updateCachedDiscoveryResponse.
    destruct (disabled (sdsCache E ds)); [apply Hwf|]. simpl.
    destruct (decide (URL request = key)) as [<-|Hne].
    + rewrite lookup_insert_eq. intros [= <-]. simpl. intros [= <-]. eauto.
    + rewrite lookup_insert_ne by exact Hne. apply Hwf.
Qed.

Lemma sdsWellFormed_step (ds : DS) op : sdsWellFormed ds -> sdsWellFormed (step E ds op).
Proof.
  intros Hwf. destruct op; simpl.
  - now apply sdsWellFormed_ListEndpoints.
  - destruct (serve_frame CDS ds request) as [c Hc]. simpl in Hc. rewrite Hc. exact Hwf.
  - destruct (serve_frame RDS ds request) as [c Hc]. simpl in Hc. rewrite Hc. exact Hwf.
  - exact Hwf.
  - intros key entry bytes. simpl. rewrite lookup_fmap.
    destruct (cache (sdsCache E ds) !! key) as [old|] eqn:Hold; simpl; [|discriminate].
    intros [= <-]. simpl. apply (Hwf key old bytes Hold).
  - intros key entry bytes. simpl. rewrite lookup_fmap.
    destruct (cache (sdsCache E ds) !! key) as [old|]; simpl; [|discriminate].
    intros [= <-]. discriminate.
Qed.

Lemma sdsWellFormed_run (ds : DS) ops : sdsWellFormed ds -> sdsWellFormed (run E ds ops).
Proof.
  unfold run. revert ds. induction ops as [|op ops IH]; intros ds Hwf; simpl.
  - exact Hwf.
  - apply IH. now apply sdsWellFormed_step.
Qed.

(** C7.  Whatever the service has handled since it was built, an SDS
    request is answered 200 with the JSON of an object whose [hosts] field
    is an array; for an uncached request that matches no instance the body
    is the object with the empty array. *)
Theorem sds_hosts_is_array {C} (controller : Controller E C)
        (o : DiscoveryServiceOptions E) (c c' : C) (ds0 : DS) :
  NewDiscoveryService E controller o c = (Some ds0, None, c') ->
  (forall ops request,
      exists items,
        fst (ListEndpoints E (run E ds0 ops) request)
        = {| status := StatusOK; body := Data (Some (hostsBody E items)) |})
  /\ (forall ops request,
         uncached (sdsCache E (run E ds0 ops)) (URL request) ->
         endpointHosts (run E ds0 ops) request = [] ->
         hosts_json {| Hosts := Some (endpointHosts (run E ds0 ops) request) |}
         = json.Object [("hosts", json.Array [])]
         /\ fst (ListEndpoints E (run E ds0 ops) request)
            = {| status := StatusOK; body := Data (Some emptyHostsBody) |}).
Proof.
  intros Hnew. split.
  - intros ops request.
    pose proof (sdsWellFormed_run ds0 ops (sdsWellFormed_new controller o c ds0 c' Hnew))
      as Hwf.
    destruct (cachedDiscoveryResponse (sdsCache E (run E ds0 ops)) (URL request))
      as [[out cached] c1] eqn:Hlookup.
    destruct cached.
    + rewrite (ListEndpoints_hit _ request out c1 Hlookup). simpl.
      apply cachedDiscoveryResponse_hit in Hlookup
        as (old & live & Hold & Hlive & -> & _).
      destruct (Hwf _ _ _ Hold Hlive) as [items ->]. now exists items.
    + destruct (cachedDiscoveryResponse_miss _ _ _ _ Hlookup) as [-> ->].
      rewrite (ListEndpoints_miss _ request Hlookup). simpl. eauto.
  - intros ops request Hmiss Hnone.
    rewrite (ListEndpoints_miss _ request Hmiss), Hnone. split; reflexivity.
Qed.

End Handlers.

(** ** The theorems on the mock registry *)

Section MockRegistry.

Import proxyconfig model envoy DiscoverySpec.

Lemma NewDiscoveryService_mock caching :
  NewDiscoveryService mockExternals (recorder mockExternals) (mockOptions caching) []
  = (Some (mockService caching), None, registeredHandlers mockExternals).
Proof. reflexivity. Qed.

Lemma handlers_clear_all_caches_witness :
  In (ConfigHandler mockExternals "route-rule" (configHandler mockExternals))
     (registeredHandlers mockExternals)
  /\ allEvicted (clearCache mockExternals warm).
Proof.
  split.
  - simpl. auto.
  - apply (proj2 (handlers_clear_all_caches mockExternals (mockOptions true)
                    (mockService true) (registeredHandlers mockExternals)
                    (NewDiscoveryService_mock true))
                 (ConfigHandler mockExternals "route-rule" (configHandler mockExternals))
                 (ConfigEvent mockExternals
                    {| Kind := "route-rule"; Key_Name := "reviews"; Namespace := "default" |}
                    (proto.Other "istio.proxy.v1alpha.config.RouteRule") tt)
                 warm).
    + simpl. auto.
    + reflexivity.
Defined.

Lemma clear_is_lazy_witness :
  cache (sdsCache mockExternals warm) !! URL helloEndpoints
  = Some {| data := Some (hostsBody mockExternals
                            (map host_json (endpointHosts warm helloEndpoints)));
            hit := 0; miss := 1 |}
  /\ exists bytes,
      fst (serve SDS (clearCache mockExternals warm) helloEndpoints) = writeResponse bytes
      /\ cache (cacheOf SDS (snd (serve SDS (clearCache mockExternals warm) helloEndpoints)))
           !! URL helloEndpoints
         = Some {| data := bytes; hit := 0; miss := AddUint64 1 1 |}.
Proof.
  assert (cache (sdsCache mockExternals warm) !! URL helloEndpoints
          = Some {| data := Some (hostsBody mockExternals
                                    (map host_json (endpointHosts warm helloEndpoints)));
                    hit := 0; miss := 1 |}) as Hentry by (vm_compute; reflexivity).
  split; [exact Hentry|].
  apply (proj2 (proj2 (proj2 (proj2 (clear_is_lazy mockExternals SDS warm))))
           helloEndpoints _ eq_refl Hentry).
  vm_compute. reflexivity.
Defined.

Lemma unexpected_service_cluster_witness :
  PathParameter (clustersOf "other") ServiceCluster = "other"
  /\ fst (serve CDS (mockService true) (clustersOf "other"))
     = {| status := 404; body := Message (unexpectedServiceCluster "other") |}.
Proof.
  split; [vm_compute; reflexivity|].
  pose proof (proj1 (unexpected_service_cluster mockExternals CDS (mockService true)
                       (clustersOf "other")
                       ltac:(discriminate) ltac:(vm_compute; reflexivity)
                       ltac:(vm_compute; discriminate))) as Hserve.
  rewrite Hserve. vm_compute. reflexivity.
Defined.

Lemma error_response_keeps_caches_witness :
  status (fst (serve RDS warm (routesOf "notanumber" "istio-proxy"))) = StatusNotFound
  /\ snd (serve RDS warm (routesOf "notanumber" "istio-proxy")) = warm.
Proof.
  split; [vm_compute; reflexivity|].
  apply (error_response_keeps_caches mockExternals RDS warm
           (routesOf "notanumber" "istio-proxy")).
  vm_compute. discriminate.
Defined.

Lemma caching_disabled_witness :
  GetCacheStats mockExternals
    (run mockExternals (mockService false)
         [GetEndpoints helloEndpoints; GetClusters (clustersOf "istio-proxy");
          GetRoutes (routesOf "80" "istio-proxy"); Notify; GetEndpoints helloEndpoints])
  = ∅.
Proof.
  apply (caching_disabled mockExternals (recorder mockExternals) (mockOptions false)
           [] (registeredHandlers mockExternals) (mockService false) _
           eq_refl (NewDiscoveryService_mock false)).
Defined.

Lemma sds_hosts_is_array_witness :
  fst (ListEndpoints mockExternals (mockService true) nonexistentEndpoints)
  = {| status := StatusOK; body := Data (Some emptyHostsBody) |}.
Proof.
  apply (proj2 (sds_hosts_is_array mockExternals (recorder mockExternals) (mockOptions true)
                  [] (registeredHandlers mockExternals) (mockService true)
                  (NewDiscoveryService_mock true))
               [] nonexistentEndpoints).
  - vm_compute. reflexivity.
  - vm_compute. reflexivity.
Defined.

End MockRegistry.

(** ** Launching and cleaning up an epoch *)

Section Watcher.

Import proxyconfig envoy DiscoverySpec WatcherSpec.

Variable E : Externals.

Lemma configFile_epochFile (config : string) (epoch : Z) :
  configFile E config epoch = epochFile config epoch.
Proof.
  unfold configFile, epochFile, EpochFileTemplate.
  cbn -[String.append fmt.Sprint]. reflexivity.
Qed.

(** C8.  The file of an epoch in a directory is
    [<directory>/envoy-rev<epoch>.json].  The launch function first writes
    the configuration to that file in [ConfigPath]; when the write
    succeeds it runs the proxy binary with [-c <file>],
    [--restart-epoch <epoch>], the drain and parent-shutdown times, the
    service cluster of the mesh and the proxy address as service node,
    then the optional log level, and nothing else.  The cleanup hook
    removes the same file, and under the agent it does so after the launch
    function has returned. *)
Theorem runEnvoy_launches_epoch (mesh : ProxyMeshConfig) (ip : string)
        (envoyConfig : EnvoyConfig E) (config : string) (epoch : Z) :
  configFile E config epoch = epochFile config epoch
  /\ runEnvoy E mesh ip (ConfigPtr E envoyConfig) epoch
     = match WriteFile E envoyConfig (epochFile ConfigPath epoch) with
       | Some err => ([CallWriteFile E envoyConfig (epochFile ConfigPath epoch)], Some err)
       | None =>
           ([CallWriteFile E envoyConfig (epochFile ConfigPath epoch);
             CallRun E BinaryPath
               (launchArgs E mesh ip (epochFile ConfigPath epoch) epoch ++ logLevel E)%list],
            Run E BinaryPath
              (launchArgs E mesh ip (epochFile ConfigPath epoch) epoch ++ logLevel E)%list)
       end
  /\ (logLevel E = [] \/ logLevel E = ["-l"; "trace"] \/ logLevel E = ["-l"; "debug"])
  /\ cleanupEnvoy E mesh epoch = [CallRemove E (epochFile ConfigPath epoch)]
  /\ fst (superviseEpoch E (runEnvoy E mesh ip) (cleanupEnvoy E mesh)
            (ConfigPtr E envoyConfig) epoch)
     = (fst (runEnvoy E mesh ip (ConfigPtr E envoyConfig) epoch)
        ++ [CallRemove E (epochFile ConfigPath epoch)])%list.
Proof.
  split; [apply configFile_epochFile|]. split; [|split; [|split]].
  - unfold runEnvoy. rewrite configFile_epochFile.
    destruct (WriteFile E envoyConfig _) as [err|]; [reflexivity|].
    unfold launchArgs, logLevel.
    destruct (V E 4); [reflexivity|]. destruct (V E 3); reflexivity.
  - unfold logLevel. destruct (V E 4); [auto|]. destruct (V E 3); auto.
  - unfold cleanupEnvoy. now rewrite configFile_epochFile.
  - unfold superviseEpoch.
    destruct (runEnvoy E mesh ip (ConfigPtr E envoyConfig) epoch) as [calls err]. simpl.
    unfold cleanupEnvoy. now rewrite configFile_epochFile.
Qed.

End Watcher.

(** The third epoch of the proxy at 10.1.1.0 under the default mesh
    settings. *)
Example runEnvoy_third_epoch :
  envoy.superviseEpoch DiscoverySpec.mockExternals
    (envoy.runEnvoy DiscoverySpec.mockExternals DiscoverySpec.DefaultMeshConfig "10.1.1.0")
    (envoy.cleanupEnvoy DiscoverySpec.mockExternals DiscoverySpec.DefaultMeshConfig)
    (envoy.ConfigPtr DiscoverySpec.mockExternals "{}") 3
  = ([envoy.CallWriteFile DiscoverySpec.mockExternals "{}" "/etc/envoy/envoy-rev3.json";
      envoy.CallRun DiscoverySpec.mockExternals "/usr/local/bin/envoy"
        ["-c"; "/etc/envoy/envoy-rev3.json"; "--restart-epoch"; "3";
         "--drain-time-s"; "5"; "--parent-shutdown-time-s"; "10";
         "--service-cluster"; "istio-proxy"; "--service-node"; "10.1.1.0"];
      envoy.CallRemove DiscoverySpec.mockExternals "/etc/envoy/envoy-rev3.json"],
     None).
Proof. vm_compute. reflexivity. Qed.

(** ** Patterns *)

Section Regexp.

Import regexp RegexpSpec.

Lemma append_assoc (s1 s2 s3 : string) : ((s1 ++ s2) ++ s3 = s1 ++ (s2 ++ s3))%string.
Proof.
  induction s1 as [|c s1 IH]; [reflexivity|].
  change (String c ((s1 ++ s2) ++ s3) = String c (s1 ++ (s2 ++ s3)))%string.
  now rewrite IH.
Qed.

Lemma append_cons c (s1 s2 : string) : (String c s1 ++ s2 = String c (s1 ++ s2))%string.
Proof. reflexivity. Qed.

Lemma append_empty (s1 s2 : string) :
  (s1 ++ s2)%string = EmptyString -> s1 = EmptyString /\ s2 = EmptyString.
Proof. destruct s1; [auto|discriminate]. Qed.

Lemma nullable_matches r : nullable r = true <-> matches r EmptyString.
Proof.
  split.
  - induction r; simpl; intros Hnull; try discriminate.
    + constructor.
    + apply andb_true_iff in Hnull as [H1 H2].
      change EmptyString with (EmptyString ++ EmptyString)%string. constructor; auto.
    + apply orb_true_iff in Hnull as [H|H]; [apply matches_Alt_l|apply matches_Alt_r]; auto.
    + constructor.
  - intros Hm. remember EmptyString as s eqn:Hs.
    induction Hm; simpl; try discriminate; auto.
    + apply append_empty in Hs as [-> ->]. rewrite IHHm1, IHHm2; auto.
    + rewrite IHHm; auto.
    + rewrite IHHm; auto. apply orb_true_r.
Qed.

Lemma matches_Cat_inv r1 r2 s :
  matches (Cat r1 r2) s ->
  exists s1 s2, s = (s1 ++ s2)%string /\ matches r1 s1 /\ matches r2 s2.
Proof. inversion 1; subst; eauto. Qed.

(** A text of [Star r] that starts with [c] starts with a text of [r] that
    starts with [c]. *)
Lemma matches_Star_cons r c s :
  matches (Star r) (String c s) ->
  exists s1 s2, s = (s1 ++ s2)%string /\ matches r (String c s1) /\ matches (Star r) s2.
Proof.
  intros Hm. remember (Star r) as r' eqn:Hr. remember (String c s) as t eqn:Ht.
  revert c s Ht.
  induction Hm; try discriminate; intros c s Ht.
  injection Hr as ->. destruct s1 as [|c1 s1].
  - simpl in Ht. now apply IHHm2.
  - rewrite append_cons in Ht. injection Ht as <- <-. eauto.
Qed.

Lemma deriv_matches c r s : matches (deriv c r) s <-> matches r (String c s).
Proof.
  revert s. induction r; intros s; simpl.
  - split; inversion 1.
  - split; inversion 1.
  - destruct (member c) eqn:Hc; split; intros Hm.
    + inversion Hm; subst. now constructor.
    + inversion Hm; subst. constructor.
    + inversion Hm.
    + inversion Hm; subst. congruence.
  - assert (matches (Cat (deriv c r1) r2) s
            <-> exists s1 s2, s = (s1 ++ s2)%string
                              /\ matches r1 (String c s1) /\ matches r2 s2) as Hcat.
    { split.
      - inversion 1; subst. eexists _, _. split; [reflexivity|]. split; [now apply IHr1|auto].
      - intros (s1 & s2 & -> & H1 & H2). constructor; [now apply IHr1|auto]. }
    assert (matches (Cat r1 r2) (String c s)
            <-> (exists s1 s2, s = (s1 ++ s2)%string
                               /\ matches r1 (String c s1) /\ matches r2 s2)
                \/ (matches r1 EmptyString /\ matches r2 (String c s))) as Hfull.
    { split.
      - intros Hm. apply matches_Cat_inv in Hm as (t1 & t2 & Heq & H1 & H2).
        destruct t1 as [|c1 t1].
        + change (String c s = t2) in Heq. subst. auto.
        + rewrite append_cons in Heq. injection Heq as -> ->. left. eauto.
      - intros [(s1 & s2 & -> & H1 & H2)|[H1 H2]].
        + rewrite <- append_cons. now constructor.
        + change (String c s) with (EmptyString ++ String c s)%string. now constructor. }
    rewrite Hfull. destruct (nullable r1) eqn:Hnull.
    + split.
      * inversion 1; subst; [left; now apply Hcat|right].
        split; [now apply nullable_matches|now apply IHr2].
      * intros [H|[_ H]]; [apply matches_Alt_l; now apply Hcat|].
        apply matches_Alt_r. now apply IHr2.
    + rewrite Hcat. split; [auto|]. intros [H|[H _]]; [auto|].
      apply nullable_matches in H. congruence.
  - split.
    + inversion 1; subst; [apply matches_Alt_l; now apply IHr1|apply matches_Alt_r; now apply IHr2].
    + inversion 1; subst; [apply matches_Alt_l; now apply IHr1|apply matches_Alt_r; now apply IHr2].
  - split.
    + inversion 1; subst. rewrite <- append_cons. constructor; [now apply IHr|auto].
    + intros Hm. apply matches_Star_cons in Hm as (s1 & s2 & -> & H1 & H2).
      constructor; [now apply IHr|auto].
Qed.

(** The derivative matcher decides the language of the pattern. *)
Lemma MatchString_matches r s : MatchString r s = true <-> matches r s.
Proof.
  revert r. induction s as [|c s IH]; intros r; simpl.
  - apply nullable_matches.
  - rewrite IH. apply deriv_matches.
Qed.

End Regexp.

(** ** The syntax of labels and tags *)

Section LabelSyntax.

Import regexp RegexpSpec model.

Lemma all_app p (s1 s2 : string) : all p (s1 ++ s2) = all p s1 && all p s2.
Proof.
  induction s1 as [|c s1 IH]; [reflexivity|].
  rewrite append_cons. simpl. now rewrite IH, andb_assoc.
Qed.

Lemma matches_Class_inv p s :
  matches (Class p) s -> exists c, s = String c EmptyString /\ p c = true.
Proof. inversion 1; subst; eauto. Qed.

(** The texts of [[p]*] are the texts whose bytes all satisfy [p]. *)
Lemma matches_Star_Class p s : matches (Star (Class p)) s <-> all p s = true.
Proof.
  split.
  - intros Hm. remember (Star (Class p)) as r eqn:Hr.
    induction Hm; try discriminate; [reflexivity|].
    injection Hr as ->. apply matches_Class_inv in Hm1 as (c & -> & Hc).
    rewrite append_cons. simpl. rewrite Hc. now apply IHHm2.
  - induction s as [|c s IH]; simpl; intros Hall.
    + constructor.
    + apply andb_true_iff in Hall as [Hc Hs].
      change (String c s) with (String c EmptyString ++ s)%string.
      constructor; [now constructor|auto].
Qed.

Lemma MatchString_tagRegexp s :
  MatchString tagRegexp s = all qualified_name_char s.
Proof.
  apply Bool.eq_iff_eq_true. rewrite MatchString_matches. apply matches_Star_Class.
Qed.

Lemma last_snoc (s : string) c : last (s ++ String c EmptyString) = Some c.
Proof.
  induction s as [|d s IH]; [reflexivity|].
  rewrite append_cons. simpl. rewrite IH.
  destruct s; reflexivity.
Qed.

(** A text that is not empty ends with its last byte. *)
Lemma snoc_last (s : string) c :
  last s = Some c -> exists mid, s = (mid ++ String c EmptyString)%string.
Proof.
  induction s as [|d s IH]; [discriminate|].
  destruct s as [|e s].
  - intros [= ->]. now exists EmptyString.
  - intros Hlast. destruct (IH Hlast) as [mid ->].
    now exists (String d mid).
Qed.

Lemma lower_alnum_dash c : lower_alnum c = true -> dash_lower_alnum c = true.
Proof. unfold dash_lower_alnum. intros ->. apply orb_true_r. Qed.

Lemma matches_dns1123Label s : matches dns1123LabelRex s <-> labelSyntax s = true.
Proof.
  unfold dns1123LabelRex, dns1123LabelFmt, Opt, labelSyntax. split.
  - intros Hm. apply matches_Cat_inv in Hm as (s1 & s2 & -> & H1 & H2).
    apply matches_Class_inv in H1 as (c & -> & Hc).
    change (String c EmptyString ++ s2)%string with (String c s2).
    rewrite !andb_true_iff. cbn [first holds all].
    rewrite (lower_alnum_dash c Hc), Hc.
    inversion H2 as [| | |? ? ? Hcat| ? ? ? Heps | |]; subst.
    + apply matches_Cat_inv in Hcat as (mid & t & -> & Hmid & Ht).
      apply matches_Class_inv in Ht as (z & -> & Hz).
      apply matches_Star_Class in Hmid.
      rewrite all_app, Hmid. cbn [all]. rewrite (lower_alnum_dash z Hz).
      change (String c (mid ++ String z EmptyString))
        with (String c mid ++ String z EmptyString)%string.
      rewrite last_snoc. simpl. auto.
    + inversion Heps; subst. simpl. auto.
  - destruct s as [|c s]; [discriminate|]. simpl.
    intros Hsyntax. apply andb_true_iff in Hsyntax as [Hsyntax Hlast].
    apply andb_true_iff in Hsyntax as [Hc Hall].
    apply andb_true_iff in Hall as [_ Hall].
    change (String c s) with (String c EmptyString ++ s)%string.
    constructor; [now constructor|].
    destruct s as [|d s]; [apply matches_Alt_r; constructor|].
    apply matches_Alt_l.
    destruct (last (String d s)) as [z|] eqn:Hz; [|destruct s; discriminate].
    assert (lower_alnum z = true) as Hzl by (destruct s; exact Hlast).
    destruct (snoc_last _ _ Hz) as [mid Hmid]. rewrite Hmid in *.
    rewrite all_app in Hall. apply andb_true_iff in Hall as [Hall _].
    constructor; [now apply matches_Star_Class|now constructor].
Qed.

(** X1.  [IsDNS1123Label] accepts exactly the texts of at most 63 bytes that
    are not empty, consist of lower-case letters, digits and dashes, and
    neither start nor end with a dash. *)
Theorem IsDNS1123Label_syntax (value : string) :
  IsDNS1123Label value
  = (String.length value <=? dns1123LabelMaxLength)%nat && labelSyntax value.
Proof.
  unfold IsDNS1123Label. f_equal.
  apply Bool.eq_iff_eq_true. rewrite MatchString_matches. apply matches_dns1123Label.
Qed.

End LabelSyntax.

(** ** Validators return nil exactly when they find nothing *)

Section Validators.

Import multierror proxyconfig model RegexpSpec ValidationSpec.

Lemma proper_iff e : proper e -> (e = None <-> Errors e = []).
Proof. intros Hproper. split; [now intros ->|exact Hproper]. Qed.

Lemma proper_None : proper None.
Proof. now intros _. Qed.

Lemma proper_Errorf format args : proper (Errorf format args).
Proof. discriminate. Qed.

Lemma proper_Append_Errorf errs format args :
  proper (Append errs (Errorf format args)).
Proof.
  intros Hnil. rewrite Errors_Append in Hnil.
  apply app_eq_nil in Hnil as [_ Hnil]. discriminate.
Qed.

Lemma proper_appendIfErr errs e : proper errs -> proper e -> proper (appendIfErr errs e).
Proof.
  intros Herrs He. destruct e as [v|]; [|exact Herrs].
  intros Hnil. simpl in Hnil. apply app_eq_nil in Hnil as [_ Hnil].
  discriminate (He Hnil).
Qed.

Lemma proper_fold_left {A} (body : error -> A -> error) l :
  (forall errs x, proper errs -> proper (body errs x)) ->
  forall errs, proper errs -> proper (fold_left body l errs).
Proof.
  intros Hbody. induction l as [|x l IH]; intros errs Herrs; simpl; auto.
Qed.

Create HintDb proper.
#[local] Hint Resolve proper_None proper_Errorf proper_Append_Errorf : proper.

Ltac proper_tac :=
  cbv zeta;
  repeat first
    [ solve [eauto with proper]
    | apply proper_appendIfErr
    | apply proper_fold_left; [intros|]
    | match goal with
      | |- proper (if ?c then _ else _) => destruct c
      | |- proper (match ?x with _ => _ end) => destruct x
      end ].

Lemma proper_Tags t : proper (Tags_Validate t).
Proof. unfold Tags_Validate. proper_tac. Qed.

Lemma proper_FQDN_labels fqdn labels : proper (validateFQDN_labels fqdn labels).
Proof. induction labels; simpl; proper_tac. Qed.

#[local] Hint Resolve proper_Tags proper_FQDN_labels : proper.

Lemma proper_FQDN fqdn : proper (validateFQDN fqdn).
Proof. unfold validateFQDN. proper_tac. Qed.

Lemma proper_octets addr octets : proper (validateIPv4Address_octets addr octets).
Proof. induction octets; simpl; proper_tac. Qed.

#[local] Hint Resolve proper_FQDN proper_octets : proper.

Lemma proper_subnet subnet : proper (validateSubnet subnet).
Proof.
  unfold validateSubnet, validateIPv4Subnet, validateCIDRBlock, validateIPv4Address.
  proper_tac.
Qed.

#[local] Hint Resolve proper_subnet : proper.

Lemma proper_L4MatchAttributes ma : proper (ValidateL4MatchAttributes ma).
Proof. unfold ValidateL4MatchAttributes. proper_tac. Qed.

#[local] Hint Resolve proper_L4MatchAttributes : proper.

Lemma proper_MatchCondition mc : proper (ValidateMatchCondition mc).
Proof. unfold ValidateMatchCondition, GetTcp, GetUdp. proper_tac. Qed.

Lemma proper_DestinationWeight dw : proper (ValidateDestinationWeight dw).
Proof. unfold ValidateDestinationWeight, validatePercent. proper_tac. Qed.

Lemma proper_HTTPTimeout timeout : proper (ValidateHTTPTimeout timeout).
Proof. unfold ValidateHTTPTimeout. proper_tac. Qed.

Lemma proper_HTTPRetries retry : proper (ValidateHTTPRetries retry).
Proof. unfold ValidateHTTPRetries. proper_tac. Qed.

Lemma proper_Delay delay : proper (validateDelay delay).
Proof. unfold validateDelay, validateFloatPercent. proper_tac. Qed.

Lemma proper_Abort abort : proper (validateAbort abort).
Proof. unfold validateAbort, validateAbortHTTPStatus, validateFloatPercent. proper_tac. Qed.

#[local] Hint Resolve proper_Delay proper_Abort : proper.

Lemma proper_HTTPFault fault : proper (ValidateHTTPFault fault).
Proof. unfold ValidateHTTPFault, GetDelay, GetAbort. proper_tac. Qed.

Lemma proper_L4Fault fault : proper (ValidateL4Fault fault).
Proof.
  unfold ValidateL4Fault, validateTerminate, validateThrottle, validateFloatPercent,
    GetTerminate, GetThrottle.
  proper_tac.
Qed.

Lemma proper_Weights routes destination : proper (validateWeights routes destination).
Proof. unfold validateWeights. proper_tac. Qed.

#[local] Hint Resolve proper_MatchCondition proper_DestinationWeight proper_HTTPTimeout
  proper_HTTPRetries proper_HTTPFault proper_L4Fault proper_Weights : proper.

Lemma proper_Service s : proper (Service_Validate s).
Proof. unfold Service_Validate. proper_tac. Qed.

(** No validator of a routing rule returns an error without messages. *)
Lemma proper_RouteRule (msg : proto.Message) : proper (ValidateRouteRule msg).
Proof. unfold ValidateRouteRule. destruct msg as [value|name]; proper_tac. Qed.

Lemma appendIfErr_None_iff errs e : appendIfErr errs e = None <-> errs = None /\ e = None.
Proof.
  destruct e as [v|]; simpl.
  - split; [discriminate|intros [_ H]; discriminate H].
  - tauto.
Qed.

Lemma fold_appendIfErr_None {A} (validate : A -> error) l errs :
  fold_left (fun errs x => appendIfErr errs (validate x)) l errs = None
  <-> errs = None /\ Forall (fun x => validate x = None) l.
Proof.
  revert errs. induction l as [|x l IH]; intros errs; simpl.
  - split; [intros ->; split; [reflexivity|constructor]|tauto].
  - rewrite IH, appendIfErr_None_iff. split.
    + intros [[H1 H2] H3]. split; [exact H1|now constructor].
    + intros [H1 H2]. inversion H2; subst. auto.
Qed.

Lemma concat_nil {A} (l : list (list A)) : concat l = [] <-> Forall (fun x => x = []) l.
Proof.
  induction l as [|x l IH]; simpl.
  - split; [constructor|reflexivity].
  - split.
    + intros H. apply app_eq_nil in H as [-> H]. constructor; [reflexivity|now apply IH].
    + inversion 1; subst. now apply IH.
Qed.

(** X2.  [Tags.Validate] returns nil exactly when every key and every value
    consists of letters, digits and the bytes [-_./]; the empty text is
    allowed for both. *)
Theorem Tags_Validate_accepts (t : StringMap) :
  Tags_Validate t = None <-> tagsOk t = true.
Proof.
  rewrite (proper_iff _ (proper_Tags t)). unfold Tags_Validate.
  pose (added := fun kv : string * string =>
                   ((if negb (tagSyntax (fst kv))
                     then [fmt.Sprintf "Invalid tag key: %q" [fmt.Str (fst kv)]]
                     else [])
                    ++ (if negb (tagSyntax (snd kv))
                        then [fmt.Sprintf "Invalid tag value: %q" [fmt.Str (snd kv)]]
                        else []))%list).
  rewrite (Errors_fold_left _ added).
  - simpl. rewrite concat_nil. unfold tagsOk. rewrite forallb_forall, List.Forall_forall.
    split.
    + intros Hall kv Hin. specialize (Hall (added kv) (in_map added _ _ Hin)).
      unfold added in Hall.
      destruct (tagSyntax (fst kv)), (tagSyntax (snd kv)); simpl in *; congruence.
    + intros Hall messages Hin. apply in_map_iff in Hin as (kv & <- & Hin).
      specialize (Hall kv Hin). apply andb_true_iff in Hall as [Hkey Hvalue].
      unfold added. now rewrite Hkey, Hvalue.
  - intros errs kv. unfold added, tagSyntax. rewrite !MatchString_tagRegexp.
    destruct (negb (all qualified_name_char (fst kv)));
      destruct (negb (all qualified_name_char (snd kv)));
      rewrite ?Errors_Append; simpl; rewrite <- ?app_assoc, ?app_nil_r; reflexivity.
Qed.

Lemma validateFQDN_labels_None fqdn labels :
  validateFQDN_labels fqdn labels = None <-> forallb IsDNS1123Label labels = true.
Proof.
  induction labels as [|label labels IH]; simpl.
  - tauto.
  - destruct (IsDNS1123Label label); simpl; [exact IH|].
    split; discriminate.
Qed.

Lemma Split_nonempty s sep : strings.Split s sep <> [].
Proof.
  destruct s as [|c s]; simpl; [discriminate|].
  destruct (Ascii.eqb c sep); [discriminate|].
  destruct (strings.Split s sep); discriminate.
Qed.

(** A text that ends with the separator has an empty last part. *)
Lemma Split_snoc s sep :
  strings.Split (s ++ String sep EmptyString) sep
  = (strings.Split s sep ++ [EmptyString])%list.
Proof.
  induction s as [|c s IH].
  - change (EmptyString ++ String sep EmptyString)%string with (String sep EmptyString).
    simpl. now rewrite Ascii.eqb_refl.
  - rewrite append_cons. simpl. rewrite IH.
    destruct (Ascii.eqb c sep); [reflexivity|].
    destruct (strings.Split s sep) as [|part parts] eqn:Hsplit; [|reflexivity].
    now apply Split_nonempty in Hsplit.
Qed.

(** X3.  [validateFQDN] returns nil exactly for a name of 1 to 255 bytes
    whose dot-separated labels are all DNS-1123 labels; a name with a
    trailing dot has an empty last label and is rejected. *)
Theorem validateFQDN_accepts (fqdn : string) :
  (validateFQDN fqdn = None <-> fqdnOk fqdn = true)
  /\ validateFQDN (fqdn ++ ".") <> None.
Proof.
  assert (forall name, validateFQDN name = None <-> fqdnOk name = true) as Hiff.
  { intros name. unfold validateFQDN, fqdnOk.
    destruct (255 <? String.length name)%nat eqn:Hlong.
    - apply Nat.ltb_lt in Hlong.
      replace (String.length name <=? 255)%nat with false
        by (symmetry; apply Nat.leb_gt; lia).
      rewrite andb_false_r. simpl. split; discriminate.
    - apply Nat.ltb_ge in Hlong.
      replace (String.length name <=? 255)%nat with true
        by (symmetry; apply Nat.leb_le; lia).
      destruct (String.length name) as [|n]; simpl; [split; discriminate|].
      apply validateFQDN_labels_None. }
  split; [apply Hiff|].
  rewrite Hiff. unfold fqdnOk. rewrite Split_snoc, forallb_app. simpl.
  rewrite !andb_false_r. discriminate.
Qed.

Lemma validateCIDRBlock_None bits : validateCIDRBlock bits = None <-> cidrOk bits = true.
Proof.
  unfold validateCIDRBlock, cidrOk. destruct (strconv.Atoi bits) as [n|]; [|split; discriminate].
  destruct (n <=? 0) eqn:H0, (32 <? n) eqn:H32; simpl;
    rewrite andb_true_iff, !Z.leb_le; split; (discriminate || lia || auto).
Qed.

Lemma validateIPv4Address_octets_None addr octets :
  validateIPv4Address_octets addr octets = None <-> forallb octetOk octets = true.
Proof.
  induction octets as [|octet octets IH]; simpl; [tauto|].
  unfold octetOk at 1. destruct (strconv.Atoi octet) as [n|]; [|split; discriminate].
  destruct (n <? 0) eqn:H0, (255 <? n) eqn:H255; simpl;
    try (split; [discriminate|]);
    try (replace ((0 <=? n) && (n <=? 255)) with false by (symmetry; apply andb_false_iff; lia);
         discriminate).
  replace ((0 <=? n) && (n <=? 255)) with true by (symmetry; apply andb_true_iff; lia).
  exact IH.
Qed.

Lemma validateIPv4Address_None addr : validateIPv4Address addr = None <-> addressOk addr = true.
Proof.
  unfold validateIPv4Address, addressOk.
  destruct (length (strings.Split addr ".") =? 4)%nat; simpl; [|split; discriminate].
  apply validateIPv4Address_octets_None.
Qed.

(** X4.  [validateSubnet] returns nil exactly for four dot-separated octets
    that [strconv.Atoi] reads as 0 to 255, optionally followed by a slash
    and a prefix length that it reads as 1 to 32.  As [Atoi] takes a sign
    and leading zeros, so does the validator. *)
Theorem validateSubnet_accepts (subnet : string) :
  validateSubnet subnet = None <-> subnetOk subnet = true.
Proof.
  unfold validateSubnet, validateIPv4Subnet, subnetOk.
  destruct (strings.Split subnet "/") as [|addr [|bits [|extra parts]]] eqn:Hsplit.
  - now apply Split_nonempty in Hsplit.
  - simpl. rewrite appendIfErr_None_iff, validateIPv4Address_None. tauto.
  - simpl. rewrite !appendIfErr_None_iff, validateIPv4Address_None, validateCIDRBlock_None.
    rewrite andb_true_iff. tauto.
  - simpl. split; discriminate.
Qed.

Example validateSubnet_signed_octets :
  validateSubnet "+10.01.-0.255/+8" = None /\ validateSubnet "10.1.0.256" <> None
  /\ validateSubnet "10.1.0.0/0" <> None /\ validateSubnet "10.1.0/24" <> None.
Proof. repeat split; vm_compute; discriminate || reflexivity. Qed.

(** X5.  [validateDelay] rejects every exponential delay other than zero
    as unsupported; an exponential delay of zero seconds passes like an
    unset delay, and a fixed delay passes when it is not negative and the
    percentage is in range. *)
Theorem validateDelay_exponential (delay : HTTPFaultInjection_Delay) :
  (forall seconds,
      Delay_HttpDelayType delay = Delay_ExponentialDelaySeconds seconds ->
      PrimFloat.eqb seconds 0 = false ->
      validateDelay delay <> None
      /\ In (fmt.Sprintf "Istio does not support exponential_seconds yet" [])
            (Errors (validateDelay delay)))
  /\ (forall seconds,
         Delay_HttpDelayType delay = Delay_ExponentialDelaySeconds seconds ->
         PrimFloat.eqb seconds 0 = true ->
         (validateDelay delay = None
          <-> PrimFloat.ltb (Delay_Percent delay) 0 || PrimFloat.ltb 100 (Delay_Percent delay)
              = false))
  /\ (forall seconds,
         Delay_HttpDelayType delay = Delay_FixedDelaySeconds seconds ->
         (validateDelay delay = None
          <-> PrimFloat.ltb (Delay_Percent delay) 0 || PrimFloat.ltb 100 (Delay_Percent delay)
              = false
              /\ PrimFloat.ltb seconds 0 = false)).
Proof.
  unfold validateDelay, validateFloatPercent, GetFixedDelaySeconds, GetExponentialDelaySeconds.
  split; [|split]; intros seconds Htype; rewrite Htype.
  - intros Hnonzero. rewrite Hnonzero. cbv zeta. cbn [negb].
    match goal with |- ?e <> None /\ _ =>
      assert (In (fmt.Sprintf "Istio does not support exponential_seconds yet" []) (Errors e))
        as Hin by (rewrite Errors_Append; apply in_or_app; right; now left)
    end.
    split; [exact (In_Errors_not_nil _ _ Hin)|exact Hin].
  - intros Hzero. rewrite Hzero. cbv zeta. cbn [negb].
    change (PrimFloat.ltb 0 0) with false.
    destruct (PrimFloat.ltb (Delay_Percent delay) 0 || PrimFloat.ltb 100 (Delay_Percent delay));
      split; (reflexivity || discriminate).
  - cbv zeta. change (PrimFloat.eqb 0 0) with true. cbn [negb].
    destruct (PrimFloat.ltb (Delay_Percent delay) 0 || PrimFloat.ltb 100 (Delay_Percent delay));
      destruct (PrimFloat.ltb seconds 0);
      split; try discriminate; try tauto; intros [? ?]; discriminate.
Qed.

Lemma validateDelay_exponential_witness :
  In (fmt.Sprintf "Istio does not support exponential_seconds yet" [])
     (Errors (validateDelay {| Delay_Percent := 10%float;
                               Delay_HttpDelayType := Delay_ExponentialDelaySeconds 5%float |}))
  /\ validateDelay {| Delay_Percent := 10%float;
                      Delay_HttpDelayType := Delay_ExponentialDelaySeconds 0%float |} = None
  /\ validateDelay {| Delay_Percent := 10%float;
                      Delay_HttpDelayType := Delay_FixedDelaySeconds 5%float |} = None.
Proof.
  split; [|split].
  - apply (proj1 (validateDelay_exponential
                    {| Delay_Percent := 10%float;
                       Delay_HttpDelayType := Delay_ExponentialDelaySeconds 5%float |})
                 5%float eq_refl).
    reflexivity.
  - apply (proj1 (proj2 (validateDelay_exponential
                           {| Delay_Percent := 10%float;
                              Delay_HttpDelayType := Delay_ExponentialDelaySeconds 0%float |}))
                 0%float eq_refl); reflexivity.
  - apply (proj2 (proj2 (validateDelay_exponential
                           {| Delay_Percent := 10%float;
                              Delay_HttpDelayType := Delay_FixedDelaySeconds 5%float |}))
                 5%float eq_refl).
    split; reflexivity.
Defined.

(** The messages of [ValidateRouteRule] on a rule without a route list. *)
Lemma ValidateRouteRule_Errors_no_route (value : RouteRule) :
  Route value = None ->
  Errors (ValidateRouteRule (proto.RouteRule value))
  = (RouteRuleSpec.beforeWeights value [] ++ RouteRuleSpec.afterWeights value)%list.
Proof.
  intros Hroute.
  unfold ValidateRouteRule, RouteRuleSpec.beforeWeights, RouteRuleSpec.afterWeights,
    RouteRuleSpec.optErrors.
  rewrite Hroute. cbv zeta.
  destruct (L4Fault value) as [l4|];
    [rewrite Errors_Append, Errors_Errorf, Errors_appendIfErr|];
    (destruct (HttpFault value) as [fault|]; [rewrite Errors_appendIfErr|]);
    (destruct (HttpReqRetries value) as [retry|]; [rewrite Errors_appendIfErr|]);
    (destruct (HttpReqTimeout value) as [timeout|]; [rewrite Errors_appendIfErr|]);
    (destruct (Match value) as [mc|]; [rewrite Errors_appendIfErr|]);
    rewrite Errors_appendIfErr;
    (destruct (String.eqb (RouteRule_Destination value) ""); [rewrite Errors_Append|]);
    simpl; rewrite <- ?app_assoc, ?app_nil_r; reflexivity.
Qed.

(** The messages of a rule hold those of its match condition and those
    added after the weights. *)
Lemma ValidateRouteRule_Errors_parts (value : RouteRule) m :
  In m (RouteRuleSpec.optErrors ValidateMatchCondition (Match value))
  \/ In m (RouteRuleSpec.afterWeights value) ->
  In m (Errors (ValidateRouteRule (proto.RouteRule value))).
Proof.
  intros Hin.
  assert (forall routes,
             In m (RouteRuleSpec.beforeWeights value routes)
             \/ In m (RouteRuleSpec.afterWeights value)) as Hparts.
  { intros routes. destruct Hin as [Hin|Hin]; [left|now right].
    unfold RouteRuleSpec.beforeWeights. rewrite !in_app_iff. auto. }
  destruct (Route value) as [routes|] eqn:Hroute.
  - rewrite (ValidateRouteRule_Errors value routes Hroute). rewrite !in_app_iff.
    destruct (Hparts routes); auto.
  - rewrite (ValidateRouteRule_Errors_no_route value Hroute). rewrite in_app_iff.
    apply Hparts.
Qed.

(** X6.  Features the proxy does not implement make a rule invalid whatever
    else it holds: a UDP match condition, a terminate fault and any L4
    fault each add their own message to the error of [ValidateRouteRule]. *)
Theorem ValidateRouteRule_unsupported (value : RouteRule) :
  (forall mc udp,
      Match value = Some mc -> Udp mc = Some udp ->
      In (fmt.Sprintf "Istio does not support UDP protocol yet" [])
         (Errors (ValidateRouteRule (proto.RouteRule value))))
  /\ (forall fault,
         L4Fault value = Some fault ->
         In (fmt.Sprintf "L4 faults are not implemented" [])
            (Errors (ValidateRouteRule (proto.RouteRule value)))
         /\ forall terminate,
             Terminate fault = Some terminate ->
             In (fmt.Sprintf "Istio does not support the terminate fault yet" [])
                (Errors (ValidateRouteRule (proto.RouteRule value)))).
Proof.
  split.
  - intros mc udp Hmatch Hudp. apply ValidateRouteRule_Errors_parts. left.
    rewrite Hmatch. simpl. unfold ValidateMatchCondition, GetUdp. rewrite Hudp.
    cbv zeta. rewrite Errors_Append. apply in_or_app. right. now left.
  - intros fault Hfault. split.
    + apply ValidateRouteRule_Errors_parts. right.
      unfold RouteRuleSpec.afterWeights. rewrite Hfault, !in_app_iff. simpl.
      do 4 right. now left.
    + intros terminate Hterminate. apply ValidateRouteRule_Errors_parts. right.
      unfold RouteRuleSpec.afterWeights. rewrite Hfault, !in_app_iff.
      right. right. right. left.
      unfold ValidateL4Fault, GetTerminate, GetThrottle. rewrite Hterminate. cbv zeta.
      destruct (Throttle fault) as [throttle|];
        rewrite ?Errors_appendIfErr, Errors_Append, ?in_app_iff; simpl; auto.
Qed.

Lemma ValidateRouteRule_unsupported_witness :
  In (fmt.Sprintf "L4 faults are not implemented" [])
     (Errors (ValidateRouteRule
                (proto.RouteRule
                   {| RouteRule_Destination := "world.default.svc.cluster.local";
                      Precedence := 0; Match := None; Route := None;
                      HttpReqTimeout := None; HttpReqRetries := None; HttpFault := None;
                      L4Fault := Some {| Throttle := None; Terminate := None |} |}))).
Proof.
  exact (proj1 (proj2 (ValidateRouteRule_unsupported
                         {| RouteRule_Destination := "world.default.svc.cluster.local";
                            Precedence := 0; Match := None; Route := None;
                            HttpReqTimeout := None; HttpReqRetries := None;
                            HttpFault := None;
                            L4Fault := Some {| Throttle := None; Terminate := None |} |})
                      {| Throttle := None; Terminate := None |} eq_refl)).
Defined.

Lemma app_nil_iff {A} (l1 l2 : list A) : (l1 ++ l2)%list = [] <-> l1 = [] /\ l2 = [].
Proof. split; [apply app_eq_nil|now intros [-> ->]]. Qed.

Lemma optErrors_nil {A} (validate : A -> error) field :
  (forall x, proper (validate x)) ->
  RouteRuleSpec.optErrors validate field = []
  <-> forall x, field = Some x -> validate x = None.
Proof.
  intros Hproper. destruct field as [x|]; simpl.
  - rewrite <- (proper_iff _ (Hproper x)). split; [now intros ? ? [= <-]|auto].
  - split; [discriminate|reflexivity].
Qed.

(** X7.  [ValidateRouteRule] returns nil exactly when the destination is a
    valid domain name, each part that is present passes its own validator,
    the weights of a route list pass [validateWeights], and there is no L4
    fault. *)
Theorem ValidateRouteRule_accepts (value : RouteRule) :
  ValidateRouteRule (proto.RouteRule value) = None
  <-> validateFQDN (RouteRule_Destination value) = None
      /\ (forall mc, Match value = Some mc -> ValidateMatchCondition mc = None)
      /\ (forall routes,
             Route value = Some routes ->
             Forall (fun dw => ValidateDestinationWeight dw = None) routes
             /\ validateWeights routes (RouteRule_Destination value) = None)
      /\ (forall timeout, HttpReqTimeout value = Some timeout ->
                          ValidateHTTPTimeout timeout = None)
      /\ (forall retry, HttpReqRetries value = Some retry ->
                        ValidateHTTPRetries retry = None)
      /\ (forall fault, HttpFault value = Some fault -> ValidateHTTPFault fault = None)
      /\ L4Fault value = None.
Proof.
  rewrite (proper_iff _ (proper_RouteRule (proto.RouteRule value))).
  assert (RouteRuleSpec.afterWeights value = []
          <-> (forall timeout, HttpReqTimeout value = Some timeout ->
                               ValidateHTTPTimeout timeout = None)
              /\ (forall retry, HttpReqRetries value = Some retry ->
                                ValidateHTTPRetries retry = None)
              /\ (forall fault, HttpFault value = Some fault -> ValidateHTTPFault fault = None)
              /\ L4Fault value = None) as Hafter.
  { unfold RouteRuleSpec.afterWeights.
    rewrite !app_nil_iff, !optErrors_nil by auto with proper.
    destruct (L4Fault value) as [l4|].
    - rewrite app_nil_iff. split; [intros (_ & _ & _ & _ & H)|intros (_ & _ & _ & H)];
        discriminate H.
    - tauto. }
  assert (forall routes,
             RouteRuleSpec.beforeWeights value routes = []
             <-> validateFQDN (RouteRule_Destination value) = None
                 /\ (forall mc, Match value = Some mc -> ValidateMatchCondition mc = None)
                 /\ Forall (fun dw => ValidateDestinationWeight dw = None) routes) as Hbefore.
  { intros routes. unfold RouteRuleSpec.beforeWeights.
    rewrite !app_nil_iff, optErrors_nil, concat_nil by auto with proper.
    rewrite <- (proper_iff _ (proper_FQDN (RouteRule_Destination value))).
    rewrite List.Forall_map.
    assert (Forall (fun dw => Errors (ValidateDestinationWeight dw) = []) routes
            <-> Forall (fun dw => ValidateDestinationWeight dw = None) routes) as ->.
    { apply Forall_iff. intros dw. symmetry. apply proper_iff, proper_DestinationWeight. }
    destruct (String.eqb (RouteRule_Destination value) "") eqn:Hempty; [|tauto].
    apply String.eqb_eq in Hempty. rewrite Hempty.
    split; [intros [H _]; discriminate H|intros [H _]; discriminate H]. }
  destruct (Route value) as [routes|] eqn:Hroute.
  - rewrite (ValidateRouteRule_Errors value routes Hroute).
    rewrite !app_nil_iff, Hbefore, Hafter.
    rewrite <- (proper_iff _ (proper_Weights routes (RouteRule_Destination value))).
    split.
    + intros ((H1 & H2 & H3) & H4 & H5).
      split; [exact H1|]. split; [exact H2|]. split; [|exact H5].
      intros ? [= <-]. now split.
    + intros (H1 & H2 & H3 & H4). destruct (H3 routes eq_refl). tauto.
  - rewrite (ValidateRouteRule_Errors_no_route value Hroute).
    rewrite app_nil_iff, Hbefore, Hafter. split.
    + intros ((H1 & H2 & _) & H4).
      split; [exact H1|]. split; [exact H2|]. split; [discriminate|exact H4].
    + intros (H1 & H2 & _ & H4). split; [|exact H4].
      split; [exact H1|]. split; [exact H2|constructor].
Qed.

(** X8.  On a decoded route list [validateWeights] returns nil exactly when
    the weights add up to 100, or there is a single destination of weight
    0; an empty route list is rejected. *)
Theorem validateWeights_accepts (routes : list DestinationWeight) (destination : string) :
  RouteRuleSpec.wellFormed routes ->
  (validateWeights routes destination = None
   <-> RouteRuleSpec.total routes = 100
       \/ (length routes = 1%nat /\ RouteRuleSpec.total routes = 0))
  /\ validateWeights [] destination <> None.
Proof.
  intros Hwf. split; [|discriminate].
  unfold validateWeights. rewrite (sumWeights_total routes Hwf). cbv zeta.
  destruct (length routes =? 1)%nat eqn:Hlen;
    destruct (RouteRuleSpec.total routes =? 0) eqn:Hzero;
    destruct (RouteRuleSpec.total routes =? 100) eqn:Hhundred; simpl;
    rewrite ?Nat.eqb_eq, ?Nat.eqb_neq in Hlen;
    rewrite ?Z.eqb_eq, ?Z.eqb_neq in Hzero;
    rewrite ?Z.eqb_eq, ?Z.eqb_neq in Hhundred;
    split; try discriminate; try tauto; intros [H|[H1 H2]]; lia.
Qed.

Lemma validateWeights_accepts_witness :
  validateWeights [RouteRuleSpec.to "v1" 25; RouteRuleSpec.to "v2" 75] "" = None.
Proof.
  assert (RouteRuleSpec.wellFormed [RouteRuleSpec.to "v1" 25; RouteRuleSpec.to "v2" 75])
    as Hwf.
  { split.
    - apply List.Forall_forall. intros dw [<-|[<-|[]]]; unfold RouteRuleSpec.int32; simpl; lia.
    - simpl. lia. }
  apply (proj1 (validateWeights_accepts
                  [RouteRuleSpec.to "v1" 25; RouteRuleSpec.to "v2" 75] "" Hwf)).
  left. reflexivity.
Defined.

Lemma ifAppend_None (c : bool) errs e :
  (if c then multierror.Append errs e else errs) = None <-> c = false /\ errs = None.
Proof. destruct c; [split; [discriminate|intros [H _]; discriminate H]|tauto]. Qed.

Import policyconfig validation.

Lemma Key_Validate_None k :
  Key_Validate k = None
  <-> IsDNS1123Label (Kind k) && IsDNS1123Label (Key_Name k) && IsDNS1123Label (Namespace k)
      = true.
Proof.
  unfold Key_Validate. cbv zeta. rewrite !ifAppend_None, !negb_false_iff, !andb_true_iff.
  tauto.
Qed.

(** X9.  [ValidateConfig] returns nil exactly for a key and a proto message
    that are not nil, where the three names of the key are DNS-1123 labels,
    the kind is declared, the message has the type declared for the kind and
    the validator of the kind accepts it; such a key passes [ValidateKey]
    too. *)
Theorem ValidateConfig_accepts (MessageName : Message -> string)
        (km : gmap string ProtoSchema) (k : option Key) (obj : object) :
  (ValidateConfig MessageName km k obj = None
   <-> exists key v t,
       k = Some key /\ obj = ProtoMessage v
       /\ Key_Validate key = None
       /\ km !! Kind key = Some t
       /\ MessageName v = Schema_MessageName t
       /\ Schema_Validate t v = None)
  /\ (forall key, k = Some key -> ValidateConfig MessageName km k obj = None ->
                  ValidateKey km key = None).
Proof.
  assert (ValidateConfig MessageName km k obj = None
          <-> exists key v t,
              k = Some key /\ obj = ProtoMessage v
              /\ Key_Validate key = None
              /\ km !! Kind key = Some t
              /\ MessageName v = Schema_MessageName t
              /\ Schema_Validate t v = None) as Hiff.
  { unfold ValidateConfig. split.
    - destruct k as [key|]; [|destruct obj; discriminate].
      destruct obj as [|v|]; try discriminate.
      + destruct (Key_Validate key) eqn:Hkey; [discriminate|].
        destruct (km !! Kind key) as [t|] eqn:Hkind; [|discriminate].
        destruct (String.eqb (MessageName v) (Schema_MessageName t)) eqn:Hname;
          [|discriminate].
        simpl. destruct (Schema_Validate t v) eqn:Hvalid; [discriminate|]. intros _.
        apply String.eqb_eq in Hname. exists key, v, t. repeat split; assumption.
      + destruct (Key_Validate key); [discriminate|].
        destruct (km !! Kind key); discriminate.
    - intros (key & v & t & -> & -> & Hkey & Hkind & Hname & Hvalid).
      rewrite Hkey, Hkind, Hname, String.eqb_refl, Hvalid. reflexivity. }
  split; [exact Hiff|].
  intros key -> Hnone. apply Hiff in Hnone as (key' & v & t & [= <-] & _ & Hkey & Hkind & _).
  unfold ValidateKey. now rewrite Hkey, Hkind.
Qed.

Section ServiceInstanceValidate.

Variable Get : list Port -> string -> option Port.

(** X10.  [ServiceInstance.Validate] returns nil exactly when the instance
    has a service that passes [Service.Validate], well-formed tags, an
    endpoint port that is not negative, and a service port that the service
    declares under its name with the same number and protocol. *)
Theorem ServiceInstance_Validate_accepts (instance : ServiceInstance) :
  ServiceInstance_Validate Get instance = None
  <-> exists service port expected,
      Instance_Service instance = Some service
      /\ Service_Validate service = None
      /\ Tags_Validate (Instance_Tags instance) = None
      /\ 0 <= Endpoint_Port (Endpoint instance)
      /\ ServicePort (Endpoint instance) = Some port
      /\ Get (Ports service) (Name port) = Some expected
      /\ Port_Port expected = Port_Port port
      /\ Protocol expected = Protocol port.
Proof.
  unfold ServiceInstance_Validate. cbv zeta. split.
  - destruct (Instance_Service instance) as [service|];
      destruct (ServicePort (Endpoint instance)) as [port|]; try discriminate.
    + destruct (Get (Ports service) (Name port)) as [expected|] eqn:Hget; [|discriminate].
      rewrite !ifAppend_None, !appendIfErr_None_iff, !negb_false_iff.
      rewrite Z.eqb_eq, String.eqb_eq, Z.ltb_ge.
      intros (Hprotocol & Hnumber & Hport & (_ & Hservice) & Htags).
      exists service, port, expected. repeat split; assumption || reflexivity.
    + rewrite ifAppend_None, appendIfErr_None_iff. intros (_ & H & _). discriminate H.
  - intros (service & port & expected & -> & Hservice & Htags & Hport & -> & -> & Hn & Hp).
    rewrite !ifAppend_None, !appendIfErr_None_iff, !negb_false_iff.
    rewrite Z.eqb_eq, String.eqb_eq, Z.ltb_ge. auto 10.
Qed.

End ServiceInstanceValidate.

Lemma ValidateCircuitBreaker_None cb :
  ValidateCircuitBreaker cb = None
  <-> forall simple,
      GetSimpleCb cb = Some simple ->
      negative (MaxConnections simple) = false
      /\ negative (HttpMaxPendingRequests simple) = false
      /\ negative (HttpMaxRequests simple) = false
      /\ negative (SleepWindowSeconds simple) = false
      /\ negative (HttpConsecutiveErrors simple) = false
      /\ negative (HttpDetectionIntervalSeconds simple) = false
      /\ negative (HttpMaxRequestsPerConnection simple) = false
      /\ 0 <= HttpMaxEjectionPercent simple <= 100.
Proof.
  unfold ValidateCircuitBreaker. cbv zeta. destruct (GetSimpleCb cb) as [simple|].
  - unfold validatePercent. rewrite !ifAppend_None, orb_false_iff, !Z.ltb_ge. split.
    + intros H ? [= <-]. tauto.
    + intros H. specialize (H simple eq_refl). tauto.
  - split; [discriminate|reflexivity].
Qed.

Lemma ValidateDestinationPolicy_None (msg : Message) :
  ValidateDestinationPolicy msg = None
  <-> exists value,
      msg = MessageDestinationPolicy value
      /\ validateFQDN (Policy_Destination value) = None
      /\ Tags_Validate (Policy_Tags value) = None
      /\ forall cb, Policy_CircuitBreaker value = Some cb -> ValidateCircuitBreaker cb = None.
Proof.
  unfold ValidateDestinationPolicy. cbv zeta. split.
  - destruct msg as [rule|value|name]; try discriminate.
    unfold GetLoadBalancing, GetCircuitBreaker, ValidateLoadBalancing.
    intros Hnone. exists value. split; [reflexivity|].
    assert (match Policy_LoadBalancing value with
            | Some _ =>
                appendIfErr
                  (appendIfErr
                     (if String.eqb (Policy_Destination value) ""
                      then multierror.Append None
                             (Errorf "destination policy should have a valid service name in its destination field" [])
                      else appendIfErr None (validateFQDN (Policy_Destination value)))
                     (Tags_Validate (Policy_Tags value))) None
            | None =>
                appendIfErr
                  (if String.eqb (Policy_Destination value) ""
                   then multierror.Append None
                          (Errorf "destination policy should have a valid service name in its destination field" [])
                   else appendIfErr None (validateFQDN (Policy_Destination value)))
                  (Tags_Validate (Policy_Tags value))
            end = None
            /\ forall cb, Policy_CircuitBreaker value = Some cb ->
                          ValidateCircuitBreaker cb = None) as [Hhead Hcb].
    { destruct (Policy_CircuitBreaker value) as [cb|].
      - apply appendIfErr_None_iff in Hnone as [H1 H2]. split; [exact H1|].
        now intros ? [= <-].
      - split; [exact Hnone|discriminate]. }
    assert (appendIfErr
              (if String.eqb (Policy_Destination value) ""
               then multierror.Append None
                      (Errorf "destination policy should have a valid service name in its destination field" [])
               else appendIfErr None (validateFQDN (Policy_Destination value)))
              (Tags_Validate (Policy_Tags value)) = None) as Htail.
    { destruct (Policy_LoadBalancing value); [|exact Hhead].
      now apply appendIfErr_None_iff in Hhead as [H _]. }
    apply appendIfErr_None_iff in Htail as [Hdest Htags].
    destruct (String.eqb (Policy_Destination value) ""); [discriminate|].
    apply appendIfErr_None_iff in Hdest as [_ Hdest]. auto.
  - intros (value & -> & Hdest & Htags & Hcb).
    unfold GetLoadBalancing, GetCircuitBreaker, ValidateLoadBalancing.
    destruct (String.eqb (Policy_Destination value) "") eqn:Hempty.
    { apply String.eqb_eq in Hempty. rewrite Hempty in Hdest. discriminate Hdest. }
    rewrite Hdest, Htags. simpl.
    destruct (Policy_LoadBalancing value); simpl;
      (destruct (Policy_CircuitBreaker value) as [cb|]; [|reflexivity]);
      now rewrite (Hcb cb eq_refl).
Qed.

(** X11.  [ValidateDestinationPolicy] returns nil exactly for a destination
    policy whose destination is a valid domain name, whose tags are
    well-formed and whose simple circuit breaker, if any, has no negative
    setting and an ejection percentage from 0 to 100; the load-balancing
    policy and a custom circuit breaker are not looked at. *)
Theorem ValidateDestinationPolicy_accepts (msg : Message) :
  ValidateDestinationPolicy msg = None
  <-> exists value,
      msg = MessageDestinationPolicy value
      /\ validateFQDN (Policy_Destination value) = None
      /\ Tags_Validate (Policy_Tags value) = None
      /\ forall simple,
          Policy_CircuitBreaker value = Some (CircuitBreaker_SimpleCb simple) ->
          negative (MaxConnections simple) = false
          /\ negative (HttpMaxPendingRequests simple) = false
          /\ negative (HttpMaxRequests simple) = false
          /\ negative (SleepWindowSeconds simple) = false
          /\ negative (HttpConsecutiveErrors simple) = false
          /\ negative (HttpDetectionIntervalSeconds simple) = false
          /\ negative (HttpMaxRequestsPerConnection simple) = false
          /\ 0 <= HttpMaxEjectionPercent simple <= 100.
Proof.
  rewrite ValidateDestinationPolicy_None. split.
  - intros (value & -> & Hdest & Htags & Hcb). exists value.
    split; [reflexivity|]. split; [exact Hdest|]. split; [exact Htags|].
    intros simple Hsimple.
    exact (proj1 (ValidateCircuitBreaker_None _) (Hcb _ Hsimple) simple eq_refl).
  - intros (value & -> & Hdest & Htags & Hcb). exists value.
    split; [reflexivity|]. split; [exact Hdest|]. split; [exact Htags|].
    intros cb Hsome. apply ValidateCircuitBreaker_None. intros simple Hsimple.
    destruct cb; try discriminate Hsimple. injection Hsimple as ->. exact (Hcb _ Hsome).
Qed.

End Validators.

(** ** The counters and the contents of the caches *)

Section Counters.

Import proxyconfig model envoy DiscoverySpec CacheSpec.

Variable E : Externals.

#[local] Abbreviation DS := (DiscoveryService E).

(** What a lookup returns is decided by the switch and the live bytes. *)
Lemma lookup_live c key :
  fst (cachedDiscoveryResponse c key)
  = if disabled c then (None, false)
    else match live c key with
         | Some bytes => (Some bytes, true)
         | None => (None, false)
         end.
Proof.
  unfold cachedDiscoveryResponse, live. destruct (disabled c); [reflexivity|].
  destruct (cache c !! key) as [entry|]; [|reflexivity].
  now destruct (data entry).
Qed.

Lemma uncached_live c key : disabled c = false -> uncached c key -> live c key = None.
Proof.
  intros Hc Hmiss. pose proof (lookup_live c key) as H.
  rewrite Hmiss, Hc in H. simpl in H. now destruct (live c key).
Qed.

Lemma cacheOf_withCache_ne family family' (ds : DS) c :
  family <> family' -> cacheOf family' (withCache family ds c) = cacheOf family' ds.
Proof. destruct family, family'; intros H; try reflexivity; now destruct H. Qed.

Lemma lookup_update_ne c key key' bytes :
  key' <> key ->
  cache (updateCachedDiscoveryResponse c key bytes) !! key' = cache c !! key'.
Proof.
  intros Hne. unfold updateCachedDiscoveryResponse. destruct (disabled c); [reflexivity|].
  simpl. now rewrite lookup_insert_ne.
Qed.

(** X12.  With caching switched on, every request answered 200 is counted
    once under its URL: as a hit when live bytes were stored, which are
    the body of the response, and as a miss otherwise, when the computed
    body is stored.  The entries of the other URLs are not touched. *)
Theorem serve_counts (family : Family) (ds ds' : DS) (request : Request) (r : Response) :
  disabled (cacheOf family ds) = false ->
  serve family ds request = (r, ds') ->
  status r = StatusOK ->
  (forall key, key <> URL request ->
               cache (cacheOf family ds') !! key = cache (cacheOf family ds) !! key)
  /\ ((exists bytes,
          live (cacheOf family ds) (URL request) = Some bytes
          /\ r = writeResponse (Some bytes)
          /\ cache (cacheOf family ds') !! URL request
             = Some {| data := Some bytes;
                       hit := AddUint64 (fst (counters (cacheOf family ds) (URL request))) 1;
                       miss := snd (counters (cacheOf family ds) (URL request)) |})
      \/ (exists bytes,
             live (cacheOf family ds) (URL request) = None
             /\ r = writeResponse bytes
             /\ cache (cacheOf family ds') !! URL request
                = Some {| data := bytes;
                          hit := fst (counters (cacheOf family ds) (URL request));
                          miss := AddUint64 (snd (counters (cacheOf family ds) (URL request)))
                                            1 |})).
Proof.
  intros Hon Hserve Hok.
  destruct (cachedDiscoveryResponse (cacheOf family ds) (URL request))
    as [[out cached] c] eqn:Hlookup.
  destruct cached.
  - rewrite (serve_hit E family ds request out c Hlookup) in Hserve.
    injection Hserve as <- <-.
    destruct (cachedDiscoveryResponse_hit _ _ _ _ Hlookup)
      as (entry & bytes & Hentry & Hdata & -> & ->).
    rewrite cacheOf_withCache. simpl. split.
    + intros key Hne. now rewrite lookup_insert_ne.
    + left. exists bytes. unfold live, counters. rewrite Hentry, lookup_insert_eq. auto.
  - destruct (cachedDiscoveryResponse_miss _ _ _ _ Hlookup) as [-> ->].
    destruct (serve_miss E family ds request r ds' Hlookup Hserve)
      as [[Herr _]|(bytes & -> & ->)]; [contradiction|].
    rewrite cacheOf_withCache. split.
    + intros key Hne. now apply lookup_update_ne.
    + right. exists bytes. rewrite (uncached_live _ _ Hon Hlookup).
      rewrite (lookup_update _ _ _ Hon). unfold counters, refill.
      destruct (cache (cacheOf family ds) !! URL request); auto.
Qed.

(** The response to a request is decided by the registry, the mesh and
    what the lookup of the URL in the cache of the family returns. *)
Lemma serve_ext family (ds1 ds2 : DS) request :
  services E ds1 = services E ds2 ->
  config E ds1 = config E ds2 ->
  mesh E ds1 = mesh E ds2 ->
  fst (cachedDiscoveryResponse (cacheOf family ds1) (URL request))
  = fst (cachedDiscoveryResponse (cacheOf family ds2) (URL request)) ->
  fst (serve family ds1 request) = fst (serve family ds2 request).
Proof.
  intros Hservices Hconfig Hmesh H2.
  destruct (cachedDiscoveryResponse (cacheOf family ds1) (URL request))
    as [[out1 cached1] c1] eqn:Hlookup1.
  destruct (cachedDiscoveryResponse (cacheOf family ds2) (URL request))
    as [[out2 cached2] c2] eqn:Hlookup2.
  simpl in H2. injection H2 as <- <-.
  destruct cached1.
  - rewrite (serve_hit E family ds1 request out1 c1 Hlookup1).
    now rewrite (serve_hit E family ds2 request out1 c2 Hlookup2).
  - destruct (cachedDiscoveryResponse_miss _ _ _ _ Hlookup1) as [-> ->].
    destruct (cachedDiscoveryResponse_miss _ _ _ _ Hlookup2) as [_ ->].
    destruct family; simpl in *.
    + rewrite !(ListEndpoints_miss E) by assumption. simpl.
      unfold endpointHosts. now rewrite Hservices.
    + unfold ListClusters. rewrite Hlookup1, Hlookup2. simpl.
      rewrite !setCdsCache_same. unfold proxyContext.
      rewrite Hservices, Hconfig, Hmesh.
      destruct (negb (String.eqb _ _)); [reflexivity|].
      destruct (MarshalIndent_ClusterManager E _ _ _) as [out [err|]]; reflexivity.
    + unfold ListRoutes. rewrite Hlookup1, Hlookup2. simpl.
      rewrite !setRdsCache_same. unfold proxyContext.
      rewrite Hservices, Hconfig, Hmesh.
      destruct (negb (String.eqb _ _)); [reflexivity|].
      destruct (strconv.Atoi _) as [port|]; [|reflexivity].
      destruct (_ !! port) as [routeConfig|]; [|reflexivity].
      destruct (MarshalIndent_HTTPRouteConfig E _ _ _) as [out [err|]]; reflexivity.
Qed.

Lemma withCache_frame family (ds : DS) c :
  services E (withCache family ds c) = services E ds
  /\ config E (withCache family ds c) = config E ds
  /\ mesh E (withCache family ds c) = mesh E ds.
Proof. destruct family; auto. Qed.

(** X13.  A request repeated at once gets the response of the first one,
    whether or not caching is on; with caching on, a 200 response with a
    body leaves that body live under the URL, so that the repeat is a
    hit. *)
Theorem repeated_request (family : Family) (ds : DS) (request : Request) :
  fst (serve family (snd (serve family ds request)) request)
  = fst (serve family ds request)
  /\ forall bytes,
      disabled (cacheOf family ds) = false ->
      fst (serve family ds request) = writeResponse (Some bytes) ->
      live (cacheOf family (snd (serve family ds request))) (URL request) = Some bytes.
Proof.
  destruct (cachedDiscoveryResponse (cacheOf family ds) (URL request))
    as [[out cached] c] eqn:Hlookup.
  destruct cached.
  - rewrite (serve_hit E family ds request out c Hlookup). simpl.
    destruct (cachedDiscoveryResponse_hit _ _ _ _ Hlookup)
      as (entry & bytes & Hentry & Hdata & -> & ->).
    assert (live (cacheOf family
                    (withCache family ds
                       (setCache (cacheOf family ds)
                          (<[URL request := {| data := Some bytes;
                                               hit := AddUint64 (hit entry) 1;
                                               miss := miss entry |}]>
                             (cache (cacheOf family ds))))))
                 (URL request) = Some bytes) as Hlive.
    { rewrite cacheOf_withCache. unfold live. simpl. now rewrite lookup_insert_eq. }
    split.
    + match goal with |- fst (serve family ?ds' request) = _ =>
        pose proof (lookup_live (cacheOf family ds') (URL request)) as Hagain;
        destruct (cachedDiscoveryResponse (cacheOf family ds') (URL request))
          as [[out' cached'] c'] eqn:Hlookup'
      end.
      rewrite Hlive, cacheOf_withCache in Hagain. simpl in Hagain.
      assert (disabled (cacheOf family ds) = false) as Hon.
      { unfold cachedDiscoveryResponse in Hlookup.
        destruct (disabled (cacheOf family ds)); [discriminate|reflexivity]. }
      rewrite Hon in Hagain. injection Hagain as -> ->.
      now rewrite (serve_hit E family _ request _ _ Hlookup').
    + intros bytes' _ [= <-]. exact Hlive.
  - destruct (cachedDiscoveryResponse_miss _ _ _ _ Hlookup) as [-> ->].
    destruct (serve family ds request) as [r ds'] eqn:Hserve. simpl.
    destruct (serve_miss E family ds request r ds' Hlookup Hserve)
      as [[Herr ->]|(bytes & -> & ->)].
    + split; [now rewrite Hserve|].
      intros bytes _ ->. now destruct Herr.
    + assert (forall b, disabled (cacheOf family ds) = false -> bytes = Some b ->
                        live (cacheOf family
                                (withCache family ds
                                   (updateCachedDiscoveryResponse (cacheOf family ds)
                                      (URL request) bytes)))
                             (URL request) = Some b) as Hlive.
      { intros b Hon ->. rewrite cacheOf_withCache. unfold live.
        now rewrite (lookup_update _ _ _ Hon). }
      split; [|intros b Hon [= ->]; now apply Hlive].
      match goal with |- fst (serve family ?ds' request) = _ =>
        pose proof (lookup_live (cacheOf family ds') (URL request)) as Hagain;
        destruct (cachedDiscoveryResponse (cacheOf family ds') (URL request))
          as [[out' cached'] c'] eqn:Hlookup'
      end.
      destruct cached'.
      * rewrite (serve_hit E family _ request _ _ Hlookup'). simpl in Hagain.
        rewrite cacheOf_withCache in Hagain.
        destruct (disabled (updateCachedDiscoveryResponse (cacheOf family ds) (URL request)
                              bytes)) eqn:Hoff; [discriminate|].
        assert (disabled (cacheOf family ds) = false) as Hon.
        { unfold updateCachedDiscoveryResponse in Hoff.
          destruct (disabled (cacheOf family ds)) eqn:Hd; [now rewrite Hd in Hoff|reflexivity]. }
        rewrite <- cacheOf_withCache with (family := family) (ds := ds) in Hagain at 1.
        unfold live in Hagain. rewrite cacheOf_withCache, (lookup_update _ _ _ Hon) in Hagain.
        simpl in Hagain. destruct bytes as [b|]; [|discriminate].
        now injection Hagain as <-.
      * destruct (withCache_frame family ds
                    (updateCachedDiscoveryResponse (cacheOf family ds) (URL request) bytes))
          as (Hservices & Hconfig & Hmesh).
        rewrite (serve_ext family _ ds request Hservices Hconfig Hmesh).
        -- now rewrite Hserve.
        -- rewrite Hlookup', Hlookup.
           now destruct (cachedDiscoveryResponse_miss _ _ _ _ Hlookup') as [-> _].
Qed.

Lemma stats_clear c : stats (clear c) = stats c.
Proof.
  unfold stats, clear. simpl. rewrite <- map_fmap_compose.
  apply map_fmap_ext. reflexivity.
Qed.

Lemma lookup_stats c key :
  stats c !! key = (fun v => {| Hit := hit v; Miss := miss v |}) <$> cache c !! key.
Proof. unfold stats. apply lookup_fmap. Qed.

Lemma lookup_GetCacheStats (ds : DS) key :
  GetCacheStats E ds !! key
  = match stats (rdsCache E ds) !! key with
    | Some e => Some e
    | None =>
        match stats (cdsCache E ds) !! key with
        | Some e => Some e
        | None => stats (sdsCache E ds) !! key
        end
    end.
Proof.
  unfold GetCacheStats, addStats. rewrite !lookup_union, lookup_empty.
  destruct (stats (rdsCache E ds) !! key), (stats (cdsCache E ds) !! key),
    (stats (sdsCache E ds) !! key); reflexivity.
Qed.

Lemma cacheOf_ClearCacheStats family (ds : DS) :
  cacheOf family (ClearCacheStats E ds) = resetStats (cacheOf family ds).
Proof. now destruct family. Qed.

Lemma live_resetStats c key : live (resetStats c) key = live c key.
Proof.
  unfold live, resetStats. simpl. rewrite lookup_fmap.
  now destruct (cache c !! key).
Qed.

(** X14.  The statistics list every URL that any of the three caches has
    an entry for; where caches share a key the counters of the RDS cache
    are reported before those of the CDS cache, and these before those of
    the SDS cache.  Flushing the caches changes nothing in the
    statistics. *)
Theorem GetCacheStats_merges (ds : DS) :
  dom (GetCacheStats E ds)
  = dom (cache (sdsCache E ds)) ∪ dom (cache (cdsCache E ds)) ∪ dom (cache (rdsCache E ds))
  /\ (forall key,
         GetCacheStats E ds !! key
         = match stats (rdsCache E ds) !! key with
           | Some e => Some e
           | None =>
               match stats (cdsCache E ds) !! key with
               | Some e => Some e
               | None => stats (sdsCache E ds) !! key
               end
           end)
  /\ GetCacheStats E (clearCache E ds) = GetCacheStats E ds.
Proof.
  split; [|split].
  - unfold GetCacheStats, addStats, stats.
    rewrite !dom_union_L, !dom_fmap_L, dom_empty_L, (right_id_L ∅ (∪)).
    rewrite (comm_L (∪) (dom (cache (rdsCache E ds)))).
    now rewrite (comm_L (∪) (dom (cache (cdsCache E ds)))).
  - apply lookup_GetCacheStats.
  - unfold GetCacheStats, clearCache. simpl. now rewrite !stats_clear.
Qed.

(** X15.  Resetting the statistics sets every counter to zero and keeps the
    keys and the stored bytes: the statistics list the same URLs with zero
    hits and misses, and every request is answered as it would have been
    without the reset. *)
Theorem ClearCacheStats_resets (ds : DS) :
  dom (GetCacheStats E (ClearCacheStats E ds)) = dom (GetCacheStats E ds)
  /\ (forall key e,
         GetCacheStats E (ClearCacheStats E ds) !! key = Some e -> Hit e = 0 /\ Miss e = 0)
  /\ (forall family key,
         live (cacheOf family (ClearCacheStats E ds)) key = live (cacheOf family ds) key)
  /\ (forall family request,
         fst (serve family (ClearCacheStats E ds) request) = fst (serve family ds request)).
Proof.
  assert (forall c key e, stats (resetStats c) !! key = Some e -> Hit e = 0 /\ Miss e = 0)
    as Hzero.
  { intros c key e. rewrite lookup_stats. unfold resetStats. simpl. rewrite lookup_fmap.
    destruct (cache c !! key); simpl; [|discriminate]. now intros [= <-]. }
  split; [|split; [|split]].
  - unfold GetCacheStats, ClearCacheStats, addStats, stats, resetStats. simpl.
    now rewrite !dom_union_L, !dom_fmap_L.
  - intros key e. rewrite lookup_GetCacheStats.
    change (rdsCache E (ClearCacheStats E ds)) with (resetStats (rdsCache E ds)).
    change (cdsCache E (ClearCacheStats E ds)) with (resetStats (cdsCache E ds)).
    change (sdsCache E (ClearCacheStats E ds)) with (resetStats (sdsCache E ds)).
    destruct (stats (resetStats (rdsCache E ds)) !! key) as [e1|] eqn:H1;
      [intros [= <-]; eapply Hzero, H1|].
    destruct (stats (resetStats (cdsCache E ds)) !! key) as [e2|] eqn:H2;
      [intros [= <-]; eapply Hzero, H2|].
    apply Hzero.
  - intros family key. rewrite cacheOf_ClearCacheStats. apply live_resetStats.
  - intros family request. apply serve_ext; try reflexivity.
    rewrite !lookup_live, cacheOf_ClearCacheStats, live_resetStats. reflexivity.
Qed.

Lemma dom_update c key bytes :
  dom (cache c) ⊆ dom (cache (updateCachedDiscoveryResponse c key bytes)).
Proof.
  unfold updateCachedDiscoveryResponse. destruct (disabled c); [reflexivity|].
  simpl. rewrite dom_insert_L. set_solver.
Qed.

Lemma disabled_update c key bytes :
  disabled (updateCachedDiscoveryResponse c key bytes) = disabled c.
Proof.
  unfold updateCachedDiscoveryResponse. now destruct (disabled c) eqn:H.
Qed.

(** What a request leaves of the service: the registry, the mesh and the
    switches as they were, the caches with at least the keys they had,
    and the caches of the other families untouched. *)
Lemma serve_keeps family (ds : DS) request :
  services E (snd (serve family ds request)) = services E ds
  /\ config E (snd (serve family ds request)) = config E ds
  /\ mesh E (snd (serve family ds request)) = mesh E ds
  /\ (forall family',
         disabled (cacheOf family' (snd (serve family ds request)))
         = disabled (cacheOf family' ds)
         /\ dom (cache (cacheOf family' ds))
            ⊆ dom (cache (cacheOf family' (snd (serve family ds request)))))
  /\ (forall family', family <> family' ->
         cacheOf family' (snd (serve family ds request)) = cacheOf family' ds).
Proof.
  assert (exists c, snd (serve family ds request) = withCache family ds c
                    /\ disabled c = disabled (cacheOf family ds)
                    /\ dom (cache (cacheOf family ds)) ⊆ dom (cache c)) as (c & -> & Hd & Hdom).
  { destruct (cachedDiscoveryResponse (cacheOf family ds) (URL request))
      as [[out cached] c] eqn:Hlookup.
    destruct cached.
    - exists c. rewrite (serve_hit E family ds request out c Hlookup).
      destruct (cachedDiscoveryResponse_hit _ _ _ _ Hlookup)
        as (entry & bytes & Hentry & Hdata & -> & ->).
      simpl. split; [reflexivity|]. split; [reflexivity|].
      rewrite dom_insert_L. set_solver.
    - destruct (cachedDiscoveryResponse_miss _ _ _ _ Hlookup) as [-> ->].
      destruct (serve family ds request) as [r ds'] eqn:Hserve. simpl.
      destruct (serve_miss E family ds request r ds' Hlookup Hserve)
        as [[_ ->]|(bytes & _ & ->)].
      + exists (cacheOf family ds). rewrite withCache_same. auto.
      + eexists. split; [reflexivity|]. split; [apply disabled_update|apply dom_update]. }
  destruct (withCache_frame family ds c) as (Hs & Hc & Hm).
  split; [exact Hs|]. split; [exact Hc|]. split; [exact Hm|]. split.
  - intros family'. destruct family, family'; simpl in *; auto.
  - intros family' Hne. now apply cacheOf_withCache_ne.
Qed.

Lemma step_keeps (ds : DS) op :
  services E (step E ds op) = services E ds
  /\ config E (step E ds op) = config E ds
  /\ mesh E (step E ds op) = mesh E ds
  /\ forall family,
      disabled (cacheOf family (step E ds op)) = disabled (cacheOf family ds)
      /\ dom (cache (cacheOf family ds)) ⊆ dom (cache (cacheOf family (step E ds op))).
Proof.
  destruct op as [request|request|request| | |]; simpl.
  - destruct (serve_keeps SDS ds request) as (H1 & H2 & H3 & H4 & _). auto.
  - destruct (serve_keeps CDS ds request) as (H1 & H2 & H3 & H4 & _). auto.
  - destruct (serve_keeps RDS ds request) as (H1 & H2 & H3 & H4 & _). auto.
  - repeat split; reflexivity.
  - repeat split; try reflexivity.
    + now destruct family.
    + rewrite cacheOf_ClearCacheStats. unfold resetStats. simpl. now rewrite dom_fmap_L.
  - repeat split; try reflexivity.
    + now destruct family.
    + rewrite cacheOf_clearCache. unfold clear. simpl. now rewrite dom_fmap_L.
Qed.

(** X16.  Nothing the service does removes a cache entry: over every
    history of requests, statistics resets and change notifications each
    cache keeps all the keys it had, so that the caches only grow, while
    the registry, the configuration, the mesh and the caching switches
    stay as they were.  A request touches the cache of its own family
    only. *)
Theorem run_keeps (ds : DS) (ops : list Op) :
  services E (run E ds ops) = services E ds
  /\ config E (run E ds ops) = config E ds
  /\ mesh E (run E ds ops) = mesh E ds
  /\ (forall family,
         disabled (cacheOf family (run E ds ops)) = disabled (cacheOf family ds)
         /\ dom (cache (cacheOf family ds)) ⊆ dom (cache (cacheOf family (run E ds ops))))
  /\ (forall family family' request,
         family <> family' ->
         cacheOf family' (snd (serve family (run E ds ops) request))
         = cacheOf family' (run E ds ops)).
Proof.
  assert (services E (run E ds ops) = services E ds
          /\ config E (run E ds ops) = config E ds
          /\ mesh E (run E ds ops) = mesh E ds
          /\ forall family,
              disabled (cacheOf family (run E ds ops)) = disabled (cacheOf family ds)
              /\ dom (cache (cacheOf family ds))
                 ⊆ dom (cache (cacheOf family (run E ds ops)))) as (H1 & H2 & H3 & H4).
  { revert ds. induction ops as [|op ops IH]; intros ds.
    - repeat split; reflexivity.
    - change (run E ds (op :: ops)) with (run E (step E ds op) ops).
      destruct (IH (step E ds op)) as (I1 & I2 & I3 & I4).
      destruct (step_keeps ds op) as (S1 & S2 & S3 & S4).
      rewrite I1, I2, I3. split; [exact S1|]. split; [exact S2|]. split; [exact S3|].
      intros family. destruct (I4 family) as [I5 I6]. destruct (S4 family) as [S5 S6].
      split; [now rewrite I5|]. now transitivity (dom (cache (cacheOf family (step E ds op)))). }
  split; [exact H1|]. split; [exact H2|]. split; [exact H3|]. split; [exact H4|].
  intros family family' request Hne.
  now apply (proj2 (proj2 (proj2 (proj2 (serve_keeps family (run E ds ops) request))))).
Qed.

(** X17.  An uncached RDS request for the cluster of the mesh is answered
    404 and changes nothing when its route-config-name is not a number
    that [strconv.Atoi] reads, with the diagnostic that quotes the name,
    and when no route configuration is built for that port, with the
    diagnostic that names the port. *)
Theorem ListRoutes_not_found (ds : DS) (request : Request) :
  uncached (rdsCache E ds) (URL request) ->
  PathParameter request ServiceCluster = IstioServiceCluster (mesh E ds) ->
  (strconv.Atoi (PathParameter request RouteConfigName) = None ->
   ListRoutes E ds request
   = ({| status := StatusNotFound;
         body := Message (fmt.Sprintf "Unexpected %s %q"
                            [fmt.Str "route-config-name";
                             fmt.Str (PathParameter request RouteConfigName)]) |}, ds))
  /\ (forall port,
         strconv.Atoi (PathParameter request RouteConfigName) = Some port ->
         buildOutboundHTTPRoutes E
           (HostInstances (services E ds) {[ PathParameter request ServiceNode ]})
           (Services (services E ds))
           (proxyContext E ds (PathParameter request ServiceNode)) !! port = None ->
         ListRoutes E ds request
         = ({| status := StatusNotFound;
               body := Message (fmt.Sprintf "Missing route config for port %d"
                                  [fmt.Int port]) |}, ds)).
Proof.
  intros Hmiss Hcluster. split.
  - intros Hname. unfold ListRoutes. rewrite Hmiss. cbn -[proxyContext].
    rewrite setRdsCache_same, Hcluster, String.eqb_refl. cbn -[proxyContext].
    now rewrite Hname.
  - intros port Hname Hport. unfold ListRoutes. rewrite Hmiss. cbn -[proxyContext].
    rewrite setRdsCache_same, Hcluster, String.eqb_refl. cbn -[proxyContext].
    now rewrite Hname, Hport.
Qed.

(** X18.  An uncached SDS request is answered 200 with one JSON object per
    instance that the registry lists for the service key, in the order of
    the registry, each holding the address and the port of the endpoint
    and no load-balancing weight. *)
Theorem ListEndpoints_lists_instances (ds : DS) (request : Request) :
  uncached (sdsCache E ds) (URL request) ->
  fst (ListEndpoints E ds request)
  = writeResponse
      (Some (hostsBody E
               (map (fun ep =>
                       json.Object
                         [("ip_address", json.Text (Endpoint_Address (Endpoint ep)));
                          ("port", json.Number (Endpoint_Port (Endpoint ep)))])
                    (Instances (services E ds)
                       (fst (fst (ParseServiceKey E (PathParameter request ServiceKey))))
                       (GetNames E
                          (snd (fst (ParseServiceKey E (PathParameter request ServiceKey)))))
                       (snd (ParseServiceKey E (PathParameter request ServiceKey))))))).
Proof.
  intros Hmiss. rewrite (ListEndpoints_miss E ds request Hmiss). simpl.
  unfold endpointHosts.
  destruct (ParseServiceKey E (PathParameter request ServiceKey)) as [[hostname ports] tags].
  simpl. now rewrite map_map.
Qed.

End Counters.

Section CountersMock.

Import proxyconfig model envoy DiscoverySpec CacheSpec.

Lemma serve_counts_witness :
  cache (cacheOf SDS (snd (serve SDS warm helloEndpoints))) !! "/v1/clusters"
  = cache (cacheOf SDS warm) !! "/v1/clusters".
Proof.
  apply (proj1 (serve_counts mockExternals SDS warm (snd (serve SDS warm helloEndpoints))
                  helloEndpoints (fst (serve SDS warm helloEndpoints))
                  ltac:(vm_compute; reflexivity)
                  (surjective_pairing _)
                  ltac:(vm_compute; reflexivity))).
  vm_compute. discriminate.
Defined.

Lemma ListRoutes_not_found_witness :
  ListRoutes mockExternals (mockService true) (routesOf "notanumber" "istio-proxy")
  = ({| status := StatusNotFound;
        body := Message (fmt.Sprintf "Unexpected %s %q"
                           [fmt.Str "route-config-name";
                            fmt.Str (PathParameter (routesOf "notanumber" "istio-proxy")
                                                   RouteConfigName)]) |},
     mockService true)
  /\ ListRoutes mockExternals (mockService true) (routesOf "81" "istio-proxy")
     = ({| status := StatusNotFound;
           body := Message (fmt.Sprintf "Missing route config for port %d" [fmt.Int 81]) |},
        mockService true).
Proof.
  split.
  - apply (proj1 (ListRoutes_not_found mockExternals (mockService true)
                    (routesOf "notanumber" "istio-proxy")
                    ltac:(vm_compute; reflexivity) ltac:(vm_compute; reflexivity))).
    vm_compute. reflexivity.
  - apply (proj2 (ListRoutes_not_found mockExternals (mockService true)
                    (routesOf "81" "istio-proxy")
                    ltac:(vm_compute; reflexivity) ltac:(vm_compute; reflexivity)) 81).
    + vm_compute. reflexivity.
    + vm_compute. reflexivity.
Defined.

Lemma ListEndpoints_lists_instances_witness :
  fst (ListEndpoints mockExternals (mockService true) helloEndpoints)
  = writeResponse
      (Some (hostsBody mockExternals
               [json.Object [("ip_address", json.Text "10.1.1.0"); ("port", json.Number 80)];
                json.Object [("ip_address", json.Text "10.1.1.1"); ("port", json.Number 80)]])).
Proof.
  exact (ListEndpoints_lists_instances mockExternals (mockService true) helloEndpoints
           ltac:(vm_compute; reflexivity)).
Defined.

End CountersMock.

(** ** The files of the epochs *)

Section EpochFiles.

Import proxyconfig envoy WatcherSpec.

Variable E : Externals.

Lemma Sprint_inj (a b : Z) : fmt.Sprint a = fmt.Sprint b -> a = b.
Proof.
  unfold fmt.Sprint. intros Heq. apply DecimalZ.to_int_inj.
  assert (forall z, NilZero.int_of_string (NilZero.string_of_int (Z.to_int z))
                    = Some (Z.to_int z)) as Hread.
  { intros z. apply NilZero.isi; destruct z as [|p|p]; simpl; try discriminate;
      intros [= H]; exact (DecimalPos.Unsigned.to_uint_nonnil p H). }
  pose proof (Hread a) as Ha. rewrite Heq, Hread in Ha. now injection Ha.
Qed.

Lemma length_append (s1 s2 : string) :
  String.length (s1 ++ s2) = (String.length s1 + String.length s2)%nat.
Proof. induction s1 as [|c s1 IH]; simpl; [reflexivity|now rewrite IH]. Qed.

Lemma append_inj_l (s a b : string) : (s ++ a = s ++ b)%string -> a = b.
Proof. induction s as [|c s IH]; simpl; [auto|intros [= H]; auto]. Qed.

Lemma append_inj_r (a b s : string) : (a ++ s = b ++ s)%string -> a = b.
Proof.
  revert b. induction a as [|c a IH]; intros [|d b] Heq.
  - reflexivity.
  - apply (f_equal String.length) in Heq. rewrite !length_append in Heq. simpl in Heq. lia.
  - apply (f_equal String.length) in Heq. rewrite !length_append in Heq. simpl in Heq. lia.
  - simpl in Heq. injection Heq as -> Heq. f_equal. now apply IH.
Qed.

Lemma epochFile_inj (config : string) (epoch1 epoch2 : Z) :
  epochFile config epoch1 = epochFile config epoch2 -> epoch1 = epoch2.
Proof.
  unfold epochFile. intros Heq.
  apply append_inj_l, append_inj_l, append_inj_r in Heq. now apply Sprint_inj.
Qed.

(** X19.  Every epoch has a configuration file of its own: the files of two
    epochs in a directory are the same only when the epochs are.  So the
    cleanup of one epoch does not remove the file of another, and a launch
    does not overwrite it. *)
Theorem epoch_files_distinct (mesh : ProxyMeshConfig) (ip : string) :
  (forall config epoch1 epoch2,
      configFile E config epoch1 = configFile E config epoch2 <-> epoch1 = epoch2)
  /\ (forall epoch1 epoch2,
         epoch1 <> epoch2 ->
         ~ In (CallRemove E (configFile E ConfigPath epoch2)) (cleanupEnvoy E mesh epoch1))
  /\ (forall config envoyConfig epoch1 epoch2,
         epoch1 <> epoch2 ->
         ~ In (CallWriteFile E envoyConfig (configFile E ConfigPath epoch2))
              (fst (runEnvoy E mesh ip config epoch1))).
Proof.
  assert (forall config epoch1 epoch2,
             configFile E config epoch1 = configFile E config epoch2 -> epoch1 = epoch2)
    as Hinj.
  { intros config epoch1 epoch2. rewrite !configFile_epochFile. apply epochFile_inj. }
  split; [|split].
  - intros config epoch1 epoch2. split; [apply Hinj|now intros ->].
  - intros epoch1 epoch2 Hne Hin. unfold cleanupEnvoy in Hin.
    destruct Hin as [Heq|[]]. apply Hne, (Hinj ConfigPath). congruence.
  - intros config envoyConfig epoch1 epoch2 Hne Hin. unfold runEnvoy in Hin.
    destruct config as [cfg|v]; [|destruct Hin].
    destruct (WriteFile E cfg _).
    + destruct Hin as [Heq|[]]. apply Hne, (Hinj ConfigPath). congruence.
    + destruct Hin as [Heq|[Heq|[]]]; [|discriminate Heq].
      apply Hne, (Hinj ConfigPath). congruence.
Qed.

(** X20.  The launch function starts the proxy only after it has written
    the configuration of the epoch: a call that runs a program runs the
    proxy binary, on a configuration whose file was written without error
    just before.  A value that is not a configuration makes it return an
    error without touching the file system. *)
Theorem runEnvoy_writes_first (mesh : ProxyMeshConfig) (ip : string) (config : any E)
        (epoch : Z) :
  (forall path args,
      In (CallRun E path args) (fst (runEnvoy E mesh ip config epoch)) ->
      path = BinaryPath
      /\ exists envoyConfig,
          config = ConfigPtr E envoyConfig
          /\ WriteFile E envoyConfig (configFile E ConfigPath epoch) = None
          /\ fst (runEnvoy E mesh ip config epoch)
             = [CallWriteFile E envoyConfig (configFile E ConfigPath epoch);
                CallRun E path args]
          /\ snd (runEnvoy E mesh ip config epoch) = Run E path args)
  /\ (forall gosyntax,
         config = OtherValue E gosyntax ->
         fst (runEnvoy E mesh ip config epoch) = []
         /\ snd (runEnvoy E mesh ip config epoch) <> None).
Proof.
  split.
  - intros path args Hin. unfold runEnvoy in *.
    destruct config as [cfg|v]; [|destruct Hin].
    destruct (WriteFile E cfg (configFile E ConfigPath epoch)) as [err|] eqn:Hwrite.
    + destruct Hin as [[=]|[]].
    + destruct Hin as [[=]|[[= <- <-]|[]]]. split; [reflexivity|].
      exists cfg. auto.
  - intros gosyntax ->. split; [reflexivity|discriminate].
Qed.

End EpochFiles.

(** ** What an accepted rule holds *)

Section AcceptedRules.

Import multierror proxyconfig model RouteRuleSpec ValidationSpec.

Lemma ValidateDestinationWeight_None (dw : DestinationWeight) :
  ValidateDestinationWeight dw = None
  <-> (Destination dw = "" \/ validateFQDN (Destination dw) = None)
      /\ Tags_Validate (Tags dw) = None
      /\ 0 <= Weight dw <= 100.
Proof.
  unfold ValidateDestinationWeight, validatePercent. cbv zeta.
  rewrite ifAppend_None, appendIfErr_None_iff, orb_false_iff, !Z.ltb_ge.
  destruct (String.eqb (Destination dw) "") eqn:Hempty; simpl.
  - apply String.eqb_eq in Hempty. intuition lia.
  - apply String.eqb_neq in Hempty. rewrite appendIfErr_None_iff. intuition lia.
Qed.

Lemma ValidateL4MatchAttributes_None (ma : L4MatchAttributes) :
  ValidateL4MatchAttributes ma = None
  <-> Forall (fun subnet => validateSubnet subnet = None)
             (SourceSubnet ma ++ DestinationSubnet ma).
Proof.
  unfold ValidateL4MatchAttributes. cbv zeta.
  rewrite !fold_appendIfErr_None, Forall_app. tauto.
Qed.

(** X21.  A routing rule that [ValidateRouteRule] accepts has, in its route
    list, only weights from 0 to 100, destinations that are empty or valid
    domain names and well-formed tags; the weights add up to exactly 100,
    unless the list is a single destination of weight 0. *)
Theorem accepted_rule_weights (value : RouteRule) (routes : list DestinationWeight) :
  ValidateRouteRule (proto.RouteRule value) = None ->
  Route value = Some routes ->
  Z.of_nat (length routes) <= 2 ^ 32 ->
  Forall (fun dw => 0 <= Weight dw <= 100
                    /\ (Destination dw = "" \/ validateFQDN (Destination dw) = None)
                    /\ Tags_Validate (Tags dw) = None) routes
  /\ (total routes = 100 \/ exists dw, routes = [dw] /\ Weight dw = 0).
Proof.
  intros Hnone Hroute Hlen.
  apply (proper_iff _ (proper_RouteRule (proto.RouteRule value))) in Hnone.
  rewrite (ValidateRouteRule_Errors value routes Hroute) in Hnone.
  apply app_nil_iff in Hnone as [Hbefore Hrest].
  apply app_nil_iff in Hrest as [Hweights _].
  unfold beforeWeights in Hbefore.
  apply app_nil_iff in Hbefore as [_ Hbefore].
  apply app_nil_iff in Hbefore as [_ Hbefore].
  apply app_nil_iff in Hbefore as [_ Hbefore].
  apply concat_nil in Hbefore. rewrite List.Forall_map in Hbefore.
  assert (Forall (fun dw => 0 <= Weight dw <= 100
                            /\ (Destination dw = "" \/ validateFQDN (Destination dw) = None)
                            /\ Tags_Validate (Tags dw) = None) routes) as Heach.
  { apply List.Forall_forall. intros dw Hin.
    rewrite List.Forall_forall in Hbefore. specialize (Hbefore dw Hin).
    apply (proper_iff _ (proper_DestinationWeight dw)) in Hbefore.
    apply ValidateDestinationWeight_None in Hbefore. tauto. }
  split; [exact Heach|].
  assert (wellFormed routes) as Hwf.
  { split; [|exact Hlen]. apply List.Forall_forall. intros dw Hin.
    rewrite List.Forall_forall in Heach. destruct (Heach dw Hin) as [Hrange _].
    unfold int32. lia. }
  apply (proper_iff _ (proper_Weights routes (RouteRule_Destination value))) in Hweights.
  unfold validateWeights in Hweights. rewrite (sumWeights_total routes Hwf) in Hweights.
  cbv zeta in Hweights.
  destruct ((length routes =? 1)%nat && (total routes =? 0)) eqn:Hsingle.
  - right. apply andb_true_iff in Hsingle as [Hone Hzero].
    apply Nat.eqb_eq in Hone. apply Z.eqb_eq in Hzero.
    destruct routes as [|dw [|dw' routes]]; try discriminate Hone.
    exists dw. split; [reflexivity|]. unfold total in Hzero. simpl in Hzero. lia.
  - left. destruct (total routes =? 100) eqn:Hhundred; [now apply Z.eqb_eq|discriminate].
Qed.

Lemma accepted_rule_weights_witness :
  total [to "v1" 25; to "v2" 75] = 100
  \/ exists dw, [to "v1" 25; to "v2" 75] = [dw] /\ Weight dw = 0.
Proof.
  exact (proj2 (accepted_rule_weights (rule (Some [to "v1" 25; to "v2" 75]))
                  [to "v1" 25; to "v2" 75]
                  ltac:(vm_compute; reflexivity) eq_refl ltac:(simpl; lia))).
Defined.

(** X22.  [ValidateMatchCondition] returns nil exactly when the source is
    empty or a valid domain name, the source tags are well-formed, every
    subnet of the TCP attributes is a valid IPv4 address or CIDR block,
    and there are no UDP attributes. *)
Theorem ValidateMatchCondition_accepts (mc : MatchCondition) :
  ValidateMatchCondition mc = None
  <-> (Source mc = "" \/ validateFQDN (Source mc) = None)
      /\ Tags_Validate (SourceTags mc) = None
      /\ (forall tcp, Tcp mc = Some tcp ->
                      Forall (fun subnet => validateSubnet subnet = None)
                             (SourceSubnet tcp ++ DestinationSubnet tcp))
      /\ Udp mc = None.
Proof.
  unfold ValidateMatchCondition, GetTcp, GetUdp. cbv zeta.
  assert ((if negb (String.eqb (Source mc) "")
           then appendIfErr None (validateFQDN (Source mc)) else None) = None
          <-> Source mc = "" \/ validateFQDN (Source mc) = None) as Hsource.
  { destruct (String.eqb (Source mc) "") eqn:Hempty; simpl.
    - apply String.eqb_eq in Hempty. tauto.
    - apply String.eqb_neq in Hempty. rewrite appendIfErr_None_iff. tauto. }
  destruct (Udp mc) as [udp|].
  - split; [discriminate|]. intros (_ & _ & _ & H). discriminate H.
  - destruct (Tcp mc) as [tcp|].
    + rewrite !appendIfErr_None_iff, Hsource, ValidateL4MatchAttributes_None. split.
      * intros [[H1 H2] H3]. repeat split; try assumption. now intros ? [= <-].
      * intros (H1 & H2 & H3 & _). auto.
    + rewrite appendIfErr_None_iff, Hsource. split.
      * intros [H1 H2]. repeat split; try assumption. discriminate.
      * tauto.
Qed.

End AcceptedRules.
